(** * On-chip calibration manager: a shallow embedding of
      [src/common/on-chip-calib.cpp] and the properties checked against it.

    The model comes first, one module per part of the source file:
    - [Flt]          IEEE-754 binary32/binary64 arithmetic as the C++ code
                     uses it ([float], [double], the casts between them and
                     to integers);
    - [Outcome]      how a C++ call can end: normal return, a thrown
                     [std::runtime_error], a failed assertion, or undefined
                     behaviour;
    - [FillFactor]   [on_chip_calib_manager::fill_missing_data];
    - [Health]       the health scores decoded at the end of [calibrate];
    - [ApplyCalib]   [apply_calib];
    - [StreamConfig] the frame-rate and resolution negotiation of
                     [start_viewer];
    - [DepthMetrics] [get_depth_metrics];
    - [UVMapping]    [uvmapping_calib::calibrate];
    - [Workspace], [Session]
                     [start_viewer], [stop_viewer], [try_start_viewer],
                     [process_flow] and [restore_workspace] over the state of
                     the manager, the sensor and the viewer;
    - [TablePatch]   the focal-length patch of the calibration table at the
                     end of [calibrate_fl].

    The properties follow, in the same order. *)

From Stdlib Require Import ZArith Bool String Lia.
From Stdlib Require Import Floats.SpecFloat.
From stdpp Require Import base list pretty.

Local Open Scope Z_scope.

(* ===================================================================== *)
(** * Floating point                                                      *)
(* ===================================================================== *)

(** C++ [float] is IEEE-754 binary32 and [double] is binary64; every
    operation rounds to nearest-even.  [spec_float] is the Standard Library's
    executable specification of those formats (precision [prec], exponent
    bound [emax]). *)
Module Flt.

Definition float := spec_float.

Definition prec32 : Z := 24.
Definition emax32 : Z := 128.
Definition prec64 : Z := 53.
Definition emax64 : Z := 1024.

(** binary32 operations *)
Definition add32 : float -> float -> float := SFadd prec32 emax32.
Definition sub32 : float -> float -> float := SFsub prec32 emax32.
Definition mul32 : float -> float -> float := SFmul prec32 emax32.
Definition div32 : float -> float -> float := SFdiv prec32 emax32.
Definition sqrt32 : float -> float := SFsqrt prec32 emax32.

(** binary64 operations *)
Definition add64 : float -> float -> float := SFadd prec64 emax64.
Definition sub64 : float -> float -> float := SFsub prec64 emax64.
Definition mul64 : float -> float -> float := SFmul prec64 emax64.
Definition div64 : float -> float -> float := SFdiv prec64 emax64.
Definition sqrt64 : float -> float := SFsqrt prec64 emax64.

(** sign change, absolute value and the comparisons do not depend on the
    format *)
Definition neg : float -> float := SFopp.
Definition fabs : float -> float := SFabs.
Definition ltb : float -> float -> bool := SFltb.
Definition gtb (x y : float) : bool := SFltb y x.
Definition leb : float -> float -> bool := SFleb.

(** integer to floating point ([static_cast<float>(n)], and the implicit
    conversion of an integer operand) *)
Definition of_Z32 (n : Z) : float := binary_normalize prec32 emax32 n 0 false.
Definition of_Z64 (n : Z) : float := binary_normalize prec64 emax64 n 0 false.

(** the decimal literals [n / 10^k] of the source, correctly rounded: both
    [n] and [10^k] are small enough to be exact in either format, so one
    division rounds once *)
Definition lit32 (n : Z) (k : Z) : float := div32 (of_Z32 n) (of_Z32 (10 ^ k)).
Definition lit64 (n : Z) (k : Z) : float := div64 (of_Z64 n) (of_Z64 (10 ^ k)).

(** rounding a binary64 value to binary32 ([static_cast<float>(d)]) *)
Definition to32 (x : float) : float :=
  match x with
  | S754_finite s m e => binary_round prec32 emax32 s m e
  | _ => x
  end.

(** widening a binary32 value to binary64 (a [float] operand of a [double]
    operation): exact, the mantissa is re-aligned to 53 bits *)
Definition to64 (x : float) : float :=
  match x with
  | S754_finite s m e => binary_round prec64 emax64 s m e
  | _ => x
  end.

(** floating point to integer: truncation towards zero; [None] for NaN and
    the infinities, where the C++ conversion is undefined *)
Definition trunc (x : float) : option Z :=
  match x with
  | S754_zero _ => Some 0
  | S754_finite s m e =>
      let a := if 0 <=? e then Z.pos m * 2 ^ e else Z.pos m / 2 ^ (- e) in
      Some (if s then - a else a)
  | _ => None
  end.

Definition is_nan (x : float) : bool :=
  match x with S754_nan => true | _ => false end.

End Flt.

(* ===================================================================== *)
(** * Outcomes of a call                                                  *)
(* ===================================================================== *)

Module Outcome.

(** What the C++ standard leaves undefined and the code can reach. *)
Inductive undefined : Type :=
| OutOfBounds (index : Z)      (* array subscript outside the object *)
| CastOutOfRange.              (* float -> integer cast that does not fit *)

Inductive outcome (A : Type) : Type :=
| Returns (a : A)
| Throws (what : string)
| Aborts (assertion : string)          (* a failed [assert] *)
| Undefined (u : undefined).

Arguments Returns {A} a.
Arguments Throws {A} what.
Arguments Aborts {A} assertion.
Arguments Undefined {A} u.

Definition bind {A B} (m : outcome A) (k : A -> outcome B) : outcome B :=
  match m with
  | Returns a => k a
  | Throws w => Throws w
  | Aborts a => Aborts a
  | Undefined u => Undefined u
  end.

(** [for (int i = first; i < first + n; ++i) body] over a loop state *)
Fixpoint for_loop {S} (n : nat) (i : Z) (body : Z -> S -> outcome S) (s : S)
  : outcome S :=
  match n with
  | O => Returns s
  | S n' => bind (body i s) (for_loop n' (i + 1) body)
  end.

Definition returned {A} (m : outcome A) : Prop :=
  match m with Returns _ => True | _ => False end.

End Outcome.

Import Outcome.

(** [outcome] is an error monad; stdpp's [x ← m; k] is its sequencing. *)
#[global] Instance outcome_ret : MRet outcome := @Returns.
#[global] Instance outcome_bind : MBind outcome := fun A B k m => Outcome.bind m k.

(* ===================================================================== *)
(** * fill_missing_data                                                   *)
(* ===================================================================== *)

Module FillFactor.

(** [uint16_t data[256]]: a list of 256 values in [0, 65535]. *)
Definition capacity : Z := 256.

Definition well_formed (data : list Z) : Prop :=
  Z.of_nat (length data) = capacity /\ Forall (fun v => 0 <= v <= 65535) data.

(** [data[i]] as an rvalue *)
Definition rd (data : list Z) (i : Z) : outcome Z :=
  if i <? 0 then Undefined (OutOfBounds i)
  else match data !! Z.to_nat i with
       | Some v => Returns v
       | None => Undefined (OutOfBounds i)
       end.

(** [data[i] = v] *)
Definition wr (data : list Z) (i : Z) (v : Z) : outcome (list Z) :=
  if i <? 0 then Undefined (OutOfBounds i)
  else if (Z.to_nat i <? length data)%nat then Returns (<[Z.to_nat i := v]> data)
  else Undefined (OutOfBounds i).

(** [static_cast<uint16_t>(x)] for a [float] [x] *)
Definition to_uint16 (x : Flt.float) : outcome Z :=
  match Flt.trunc x with
  | Some n => if (0 <=? n) && (n <=? 65535) then Returns n
              else Undefined CastOutOfRange
  | None => Undefined CastOutOfRange
  end.

(** [while (data[start++] == 0) ++counter;]
    [rest] is the part of the array from index [start] on; the loop has no
    bound of its own, so on an exhausted array the next read is past the
    end.  Returns [(start, counter)]. *)
Fixpoint leading_zeros (rest : list Z) (start counter : Z) : outcome (Z * Z) :=
  match rest with
  | [] => Undefined (OutOfBounds start)
  | v :: rest' =>
      if v =? 0 then leading_zeros rest' (start + 1) (counter + 1)
      else Returns (start + 1, counter)
  end.

(** [for (int i = 0; i < counter; ++i) data[i] = data[counter];] *)
Fixpoint fill_head (n : nat) (i counter : Z) (data : list Z) : outcome (list Z) :=
  match n with
  | O => Returns data
  | S n' =>
      v ← rd data counter;
      data' ← wr data i v;
      fill_head n' (i + 1) counter data'
  end.

(** [for (int j = start; j < end; ++j)
       data[j] = static_cast<uint16_t>(tmp * (j - start + 1) + data[start - 1] + 0.5f);] *)
Fixpoint interpolate (n : nat) (j start : Z) (tmp : Flt.float) (data : list Z)
  : outcome (list Z) :=
  match n with
  | O => Returns data
  | S n' =>
      prev ← rd data (start - 1);
      let x := Flt.add32
                 (Flt.add32 (Flt.mul32 tmp (Flt.of_Z32 (j - start + 1)))
                            (Flt.of_Z32 prev))
                 (Flt.lit32 5 1) in
      v ← to_uint16 x;
      data' ← wr data j v;
      interpolate n' (j + 1) start tmp data'
  end.

(** loop state of the main pass: the array and the locals [start], [end] *)
Record pass := { p_data : list Z; p_start : Z; p_end : Z }.

(** one iteration of [for (int i = 0; i < size; ++i) { ... }] *)
Definition pass_body (i : Z) (s : pass) : outcome pass :=
  di ← rd (p_data s) i;
  let start := if di =? 0 then i else p_start s in
  let end_ := if negb (start =? 0) && negb (di =? 0) then i else p_end s in
  if negb (start =? 0) && negb (end_ =? 0) then
    de ← rd (p_data s) end_;
    dp ← rd (p_data s) (start - 1);
    let tmp := Flt.of_Z32 (de - dp) in
    let tmp := Flt.div32 tmp (Flt.of_Z32 (end_ - start + 1)) in
    data' ← interpolate (Z.to_nat (end_ - start)) start start tmp (p_data s);
    Returns {| p_data := data'; p_start := 0; p_end := 0 |}
  else
    Returns {| p_data := p_data s; p_start := start; p_end := end_ |}.

(** the main pass, with [n] iterations to go at index [i] *)
Fixpoint pass_loop (n : nat) (i : Z) (s : pass) : outcome pass :=
  match n with
  | O => Returns s
  | S n' => s' ← pass_body i s; pass_loop n' (i + 1) s'
  end.

(** [for (int i = start; i < size; ++i) data[i] = data[start - 1];] *)
Fixpoint fill_tail (n : nat) (i start : Z) (data : list Z) : outcome (list Z) :=
  match n with
  | O => Returns data
  | S n' =>
      v ← rd data (start - 1);
      data' ← wr data i v;
      fill_tail n' (i + 1) start data'
  end.

Definition no_data_message : string :=
  "There is no enought valid data in the array!".

(** [void on_chip_calib_manager::fill_missing_data(uint16_t data[256], int size)];
    the array on return is the result. *)
Definition fill_missing_data (data : list Z) (size : Z) : outcome (list Z) :=
  '(start, counter) ← leading_zeros data 0 0;
  if start + 2 >? size then Throws no_data_message
  else
    data ← fill_head (Z.to_nat counter) 0 counter data;
    s ← pass_loop (Z.to_nat size) 0 {| p_data := data; p_start := 0; p_end := 0 |};
    if negb (p_start s =? 0) && (p_end s =? 0) then
      fill_tail (Z.to_nat (size - p_start s)) (p_start s) (p_start s) (p_data s)
    else Returns (p_data s).

(** The entries of [data] in [0, size) that are zero. *)
Definition zero_slots (data : list Z) (size : Z) : list nat :=
  filter (fun i => data !! i = Some 0) (seq 0 (Z.to_nat size)).

End FillFactor.


(* ===================================================================== *)
(** * Health scores of the extended on-chip calibration                   *)
(* ===================================================================== *)

Module Health.

(** [static_cast<int>(_health)]: undefined unless the truncated value is an
    [int] *)
Definition to_int (x : Flt.float) : outcome Z :=
  match Flt.trunc x with
  | Some n => if (- 2 ^ 31 <=? n) && (n <? 2 ^ 31) then Returns n
              else Undefined CastOutOfRange
  | None => Undefined CastOutOfRange
  end.

(** The [RS2_CALIB_ACTION_ON_CHIP_OB_CALIB] branch at the end of
    [on_chip_calib_manager::calibrate], from [h_both] on.  Returns
    [(_health_1, _health_2)]. *)
Definition decode_ob_health (h_both : Z) : Flt.float * Flt.float :=
  let h_1 := Z.land h_both 0x00000FFF in
  let h_2 := Z.shiftr (Z.land h_both 0x00FFF000) 12 in
  let sign := Z.shiftr (Z.land h_both 0x0F000000) 24 in
  let _health_1 := Flt.div32 (Flt.of_Z32 h_1) (Flt.of_Z32 1000) in
  let _health_1 := if negb (Z.land sign 1 =? 0) then Flt.neg _health_1 else _health_1 in
  let _health_2 := Flt.div32 (Flt.of_Z32 h_2) (Flt.of_Z32 1000) in
  let _health_2 := if negb (Z.land sign 2 =? 0) then Flt.neg _health_2 else _health_2 in
  (_health_1, _health_2).

Definition ob_health (_health : Flt.float) : outcome (Flt.float * Flt.float) :=
  h_both ← to_int _health;
  Returns (decode_ob_health h_both).

(** The decoding as the specification words it: a 12-bit magnitude scaled
    by 1/1000 and a sign bit, per score. *)
Definition signed_score (magnitude : Z) (negative : bool) : Flt.float :=
  let v := Flt.div32 (Flt.of_Z32 magnitude) (Flt.of_Z32 1000) in
  if negative then Flt.neg v else v.

Definition spec_health_1 (h : Z) : Flt.float :=
  signed_score (Z.land h 0xFFF) (Z.testbit h 24).

Definition spec_health_2 (h : Z) : Flt.float :=
  signed_score (Z.land (Z.shiftr h 12) 0xFFF) (Z.testbit h 25).

End Health.

(* ===================================================================== *)
(** * apply_calib                                                         *)
(* ===================================================================== *)

Module ApplyCalib.

(** A calibration table is a [std::vector<uint8_t>]. *)
Abbreviation table := (list Z).

(** The [auto_calibrated_device]: what matters here is which tables were
    handed to [set_calibration_table], in order. *)
Record calib_device := { tables_set : list table }.

Definition set_calibration_table (t : table) (d : calib_device) : calib_device :=
  {| tables_set := tables_set d ++ [t] |}.

(** The two tables the manager owns. *)
Record tables := { _new_calib : table; _old_calib : table }.

(** [calib_table.size()] used as a condition *)
Definition size (t : table) : Z := Z.of_nat (length t).

Definition apply_calib (use_new : bool) (m : tables) (calib_dev : calib_device)
  : calib_device :=
  let calib_table := if use_new then _new_calib m else _old_calib m in
  if negb (size calib_table =? 0) then set_calibration_table calib_table calib_dev
  else calib_dev.

Definition selected (use_new : bool) (m : tables) : table :=
  if use_new then _new_calib m else _old_calib m.

End ApplyCalib.

(* ===================================================================== *)
(** * Stream negotiation in start_viewer                                  *)
(* ===================================================================== *)

Module StreamConfig.

(** The part of [subdevice_model] that the selection reads and writes. *)
Record subdevice := {
  shared_fps_values : list Z;
  res_values : list (Z * Z);
  selected_shared_fps_id : Z;      (* ui.selected_shared_fps_id *)
  selected_res_id : Z              (* ui.selected_res_id *)
}.

Definition set_fps_id (i : Z) (s : subdevice) : subdevice :=
  {| shared_fps_values := shared_fps_values s; res_values := res_values s;
     selected_shared_fps_id := i; selected_res_id := selected_res_id s |}.

Definition set_res_id (i : Z) (s : subdevice) : subdevice :=
  {| shared_fps_values := shared_fps_values s; res_values := res_values s;
     selected_shared_fps_id := selected_shared_fps_id s; selected_res_id := i |}.

Definition res_eqb (w h : Z) (kvp : Z * Z) : bool :=
  (fst kvp =? w) && (snd kvp =? h).

(** [for (int i = 0; i < v.size(); i++) if (p(v[i])) selected = i;]
    over the elements from index [i] on: the last match wins. *)
Fixpoint select_matching {A} (p : A -> bool) (v : list A) (i : Z) (selected : Z) : Z :=
  match v with
  | [] => selected
  | x :: v' => select_matching p v' (i + 1) (if p x then i else selected)
  end.

Section Negotiation.

(** [_sub->is_selected_combination_supported()] belongs to the viewer's
    [subdevice_model]; what it answers for the current format selection
    depends on the selected resolution and frame rate entries. *)
Variable supported : Z -> Z -> bool.      (* res id, fps id *)

Definition is_selected_combination_supported (s : subdevice) : bool :=
  supported (selected_res_id s) (selected_shared_fps_id s).

(** [for (int i = 0; i < n; i++)
      { ui.selected_shared_fps_id = i;
        if (is_selected_combination_supported()) break; }]
    with [n] iterations left, at index [i]. *)
Fixpoint sweep_fps (n : nat) (i : Z) (s : subdevice) : subdevice :=
  match n with
  | O => s
  | S n' =>
      let s := set_fps_id i s in
      if is_selected_combination_supported s then s
      else sweep_fps n' (i + 1) s
  end.

(** "Select FPS value" and "Select Resolution": the requested values are
    looked up; an entry that is not found leaves the selection as it
    was. *)
Definition requested (w h fps : Z) (s : subdevice) : subdevice :=
  let s := set_fps_id
             (select_matching (Z.eqb fps) (shared_fps_values s) 0
                (selected_shared_fps_id s)) s in
  set_res_id
    (select_matching (res_eqb w h) (res_values s) 0 (selected_res_id s)) s.

(** Lines "Select FPS value" to "If still not supported, try VGA30" of
    [start_viewer]. *)
Definition select_stream (w h fps : Z) (s : subdevice) : subdevice :=
  let s := requested w h fps s in
  if negb (is_selected_combination_supported s) then
    let s := sweep_fps (length (shared_fps_values s)) 0 s in
    if negb (is_selected_combination_supported s) then
      set_res_id
        (select_matching (res_eqb 640 480) (res_values s) 0 (selected_res_id s)) s
    else s
  else s.

(** The frame-rate entries in the order the sweep tries them, and the
    first one supported at resolution entry [res_id]. *)
Definition fps_ids (s : subdevice) : list Z :=
  Z.of_nat <$> seq 0 (length (shared_fps_values s)).

Definition first_supported_fps (res_id : Z) (s : subdevice) : option Z :=
  find (supported res_id) (fps_ids s).

End Negotiation.

(** [j] is the entry of [v] that a look-up of [w]x[h] selects: the last
    one with that resolution. *)
Definition selects (v : list (Z * Z)) (w h : Z) (j : nat) : Prop :=
  v !! j = Some (w, h) /\ forall k, (j < k)%nat -> v !! k <> Some (w, h).

End StreamConfig.

(* ===================================================================== *)
(** * get_depth_metrics                                                   *)
(* ===================================================================== *)

Module DepthMetrics.

(** What one call of [depth_quality::analyze_depth_image] does to the two
    vectors through the [on_frame] callback: nothing when the analysis gives
    up before calling back; otherwise the fill rate is pushed, and the RMS
    as well when a plane was fitted ([if (!plane_fit) return;]). *)
Inductive frame_sample : Type :=
| NoCallback
| Sample (fill_rate : Flt.float) (rms : option Flt.float).

Definition on_frame (f : frame_sample) (fill_rates rmses : list Flt.float)
  : list Flt.float * list Flt.float :=
  match f with
  | NoCallback => (fill_rates, rmses)
  | Sample fill None => (fill_rates ++ [fill], rmses)
  | Sample fill (Some rms) => (fill_rates ++ [fill], rmses ++ [rms])
  end.

Definition fetch_timeout : string := "Failed to fetch depth frame within 3000ms".

(** [fetch_depth_frame(invoke)]: the next frame of the stream, or the
    time-out error when none arrives. *)
Definition fetch_depth_frame (stream : list frame_sample)
  : outcome (frame_sample * list frame_sample) :=
  match stream with
  | [] => Throws fetch_timeout
  | f :: stream' => Returns (f, stream')
  end.

(** the locals that live across the loops *)
Record vectors := {
  stream : list frame_sample;
  fill_rates : list Flt.float;
  rmses : list Flt.float
}.

(** [for (int i = 0; i < 31; i++) { f = fetch_depth_frame(invoke);
                                     analyze_depth_image(f, ..., on_frame); }] *)
Fixpoint bundle (n : nat) (v : vectors) : outcome vectors :=
  match n with
  | O => Returns v
  | S n' =>
      '(f, stream') ← fetch_depth_frame (stream v);
      let '(fr, rm) := on_frame f (fill_rates v) (rmses v) in
      bundle n' {| stream := stream'; fill_rates := fr; rmses := rm |}
  end.

(** [std::inner_product(v.begin(), v.end(), v.begin(), 0.)]: the products
    are [float], the accumulator is [double]. *)
Definition inner_product (v : list Flt.float) : Flt.float :=
  fold_left (fun acc x => Flt.add64 acc (Flt.to64 (Flt.mul32 x x))) v (S754_zero false).

Definition rms_of (rmses : list Flt.float) : Flt.float :=
  let rmses_sum_sqr := inner_product rmses in
  Flt.to32 (Flt.sqrt64 (Flt.div64 rmses_sum_sqr (Flt.of_Z64 (Z.of_nat (length rmses))))).

(** [new_rms_std < rms_std * 0.8f && new_rms_std > 10.f] *)
Definition not_decent (new_rms_std rms_std : Flt.float) : bool :=
  Flt.ltb new_rms_std (Flt.mul32 rms_std (Flt.lit32 8 1))
  && Flt.gtb new_rms_std (Flt.of_Z32 10).

(** The [do { ... } while (... && count++ < 10)] loop; [retries] is
    [10 - count].  Besides the vectors it returns the bundles it analysed,
    oldest first (bookkeeping for the statements below, not program
    state). *)
Fixpoint bundles (retries : nat) (new_rms_std : Flt.float) (v : vectors)
    (seen : list (list frame_sample)) : outcome (vectors * list (list frame_sample)) :=
  let rms_std := new_rms_std in
  v' ← bundle 31 {| stream := stream v; fill_rates := fill_rates v; rmses := [] |};
  let seen := seen ++ [take 31 (stream v)] in
  let new_rms_std := rms_of (rmses v') in
  if not_decent new_rms_std rms_std then
    match retries with
    | S retries' => bundles retries' new_rms_std v' seen
    | O => Returns (v', seen)
    end
  else Returns (v', seen).

(** [std::sort] on [float]s: insertion into an ascending list. *)
Fixpoint insert_sorted (x : Flt.float) (l : list Flt.float) : list Flt.float :=
  match l with
  | [] => [x]
  | y :: l' => if Flt.ltb y x then y :: insert_sorted x l' else x :: l
  end.

Definition sort (l : list Flt.float) : list Flt.float :=
  fold_right insert_sorted [] l.

(** [v.empty() ? 0 : v[v.size() / 2]] *)
Definition middle (v : list Flt.float) : Flt.float :=
  match v !! (length v / 2)%nat with
  | Some x => x
  | None => S754_zero false
  end.

Definition get_depth_metrics_traced (frames : list frame_sample)
  : outcome (Flt.float * Flt.float * list (list frame_sample)) :=
  '(_, frames) ← fetch_depth_frame frames;
  '(v, seen) ← bundles 10 (Flt.of_Z32 1000)
                 {| stream := frames; fill_rates := []; rmses := [] |} [];
  let fill_rates := sort (fill_rates v) in
  let rmses := sort (rmses v) in
  Returns (middle fill_rates, middle rmses, seen).

(** [on_chip_calib_manager::get_depth_metrics]: the first frame fetched
    only supplies the intrinsics and the region of interest; the frames
    after it are analysed in bundles of 31. *)
Definition get_depth_metrics (frames : list frame_sample)
  : outcome (Flt.float * Flt.float) :=
  '(median_fill_rate, median_rms, _) ← get_depth_metrics_traced frames;
  Returns (median_fill_rate, median_rms).

(** what a list of frames contributes to the two vectors *)
Definition collect (fs : list frame_sample) (acc : list Flt.float * list Flt.float)
  : list Flt.float * list Flt.float :=
  fold_left (fun acc f => on_frame f (fst acc) (snd acc)) fs acc.

Definition fills_of (fs : list frame_sample) : list Flt.float :=
  fst (collect fs ([], [])).

Definition rmses_of (fs : list frame_sample) : list Flt.float :=
  snd (collect fs ([], [])).

(** The specification's reading: both medians are taken over all sampled
    frames. *)
Definition median_over_all (sampled : list (list frame_sample))
  : Flt.float * Flt.float :=
  (middle (sort (fills_of (concat sampled))),
   middle (sort (rmses_of (concat sampled)))).

(** What the code does: all fill rates, but the RMS values of the last
    bundle only ([rmses.clear()] at the top of each round). *)
Definition median_all_fill_last_rms (sampled : list (list frame_sample))
  : Flt.float * Flt.float :=
  (middle (sort (fills_of (concat sampled))),
   middle (sort (rmses_of (default [] (last sampled))))).

End DepthMetrics.

(* ===================================================================== *)
(** * uvmapping_calib::calibrate                                          *)
(* ===================================================================== *)

Module UVMapping.

Inductive rs2_distortion : Type :=
| RS2_DISTORTION_NONE
| RS2_DISTORTION_MODIFIED_BROWN_CONRADY
| RS2_DISTORTION_INVERSE_BROWN_CONRADY
| RS2_DISTORTION_FTHETA
| RS2_DISTORTION_BROWN_CONRADY
| RS2_DISTORTION_KANNALA_BRANDT4.

Definition distortion_eqb (a b : rs2_distortion) : bool :=
  match a, b with
  | RS2_DISTORTION_NONE, RS2_DISTORTION_NONE
  | RS2_DISTORTION_MODIFIED_BROWN_CONRADY, RS2_DISTORTION_MODIFIED_BROWN_CONRADY
  | RS2_DISTORTION_INVERSE_BROWN_CONRADY, RS2_DISTORTION_INVERSE_BROWN_CONRADY
  | RS2_DISTORTION_FTHETA, RS2_DISTORTION_FTHETA
  | RS2_DISTORTION_BROWN_CONRADY, RS2_DISTORTION_BROWN_CONRADY
  | RS2_DISTORTION_KANNALA_BRANDT4, RS2_DISTORTION_KANNALA_BRANDT4 => true
  | _, _ => false
  end.

Record rs2_intrinsics := {
  width : Z; height : Z;
  ppx : Flt.float; ppy : Flt.float;
  fx : Flt.float; fy : Flt.float;
  model : rs2_distortion;
  coeffs : list Flt.float
}.

Record rs2_extrinsics := { rotation : list Flt.float; translation : list Flt.float }.

Definition point3 : Type := Flt.float * Flt.float * Flt.float.

(** the members of [uvmapping_calib] *)
Record uvmapping_calib := {
  _pt_num : Z;
  _left_x : list Flt.float; _left_y : list Flt.float; _left_z : list Flt.float;
  _color_x : list Flt.float; _color_y : list Flt.float;
  _left_intrin : rs2_intrinsics;
  _color_intrin : rs2_intrinsics;
  _extrin : rs2_extrinsics
}.

(** the reference parameters [ppx], [ppy], [fx], [fy]: read and written *)
Record params := { p_ppx : Flt.float; p_ppy : Flt.float;
                   p_fx : Flt.float; p_fy : Flt.float }.

Inductive axis : Type := AxisX | AxisY.

(** what a call leaves behind: the return value, the reference parameters,
    and which axes had the reciprocal [1 / d] of their denominator taken
    (bookkeeping for the statements below). *)
Record result := {
  accepted : bool;
  err_before : Flt.float;
  err_after : Flt.float;
  fitted : params;
  reciprocals : list axis
}.

(** [v[i]] on a [std::vector<float>] *)
Definition at_ (v : list Flt.float) (i : Z) : outcome Flt.float :=
  if i <? 0 then Undefined (OutOfBounds i)
  else match v !! Z.to_nat i with
       | Some x => Returns x
       | None => Undefined (OutOfBounds i)
       end.

(** per point: [pixel_color_norm[i]] and [pixel_color[i]] *)
Record projected := { norm_x : Flt.float; norm_y : Flt.float;
                      pix_x : Flt.float; pix_y : Flt.float }.

(** the eight running sums, all [double] *)
Record sums := { s_x : Flt.float; s_y : Flt.float;
                 s_c_x : Flt.float; s_c_y : Flt.float;
                 s_x_2 : Flt.float; s_y_2 : Flt.float;
                 s_c_xc : Flt.float; s_c_yc : Flt.float }.

Definition zero : Flt.float := S754_zero false.

Section Calibrate.

(** [rs2_deproject_pixel_to_point] and [rs2_transform_point_to_point]
    come from the SDK's [rsutil.h]; [_max_change] is a constant of the
    class declaration in [on-chip-calib.h]. *)
Variable rs2_deproject_pixel_to_point :
  rs2_intrinsics -> Flt.float * Flt.float -> Flt.float -> point3.
Variable rs2_transform_point_to_point : rs2_extrinsics -> point3 -> point3.
Variable _max_change : Flt.float.

Definition assertion : string :=
  "_color_intrin.model == RS2_DISTORTION_INVERSE_BROWN_CONRADY".

(** body of the first loop *)
Definition project (c : uvmapping_calib) (i : Z) (acc : list projected)
  : outcome (list projected) :=
  lx ← at_ (_left_x c) i;
  ly ← at_ (_left_y c) i;
  lz ← at_ (_left_z c) i;
  let point_left := rs2_deproject_pixel_to_point (_left_intrin c) (lx, ly) lz in
  let '(pc0, pc1, pc2) := rs2_transform_point_to_point (_extrin c) point_left in
  if negb (distortion_eqb (model (_color_intrin c)) RS2_DISTORTION_INVERSE_BROWN_CONRADY)
  then Aborts assertion
  else
    let n0 := Flt.div32 pc0 pc2 in
    let n1 := Flt.div32 pc1 pc2 in
    Returns (acc ++ [{| norm_x := n0; norm_y := n1;
                        pix_x := Flt.add32 (Flt.mul32 n0 (fx (_color_intrin c)))
                                           (ppx (_color_intrin c));
                        pix_y := Flt.add32 (Flt.mul32 n1 (fy (_color_intrin c)))
                                           (ppy (_color_intrin c)) |}]).

(** [pts[i]] for a row computed by the first loop (always in range) *)
Definition row (pts : list projected) (i : Z) : projected :=
  default {| norm_x := zero; norm_y := zero; pix_x := zero; pix_y := zero |}
          (pts !! Z.to_nat i).

(** body of the second loop: [diff[i]] *)
Definition point_error (c : uvmapping_calib) (pts : list projected) (i : Z)
    (diff : list Flt.float) : outcome (list Flt.float) :=
  cx ← at_ (_color_x c) i;
  let tmp := Flt.sub32 (pix_x (row pts i)) cx in
  let tmp := Flt.mul32 tmp tmp in
  let d := tmp in
  cy ← at_ (_color_y c) i;
  let tmp := Flt.sub32 (pix_y (row pts i)) cy in
  let tmp := Flt.mul32 tmp tmp in
  let d := Flt.add32 d tmp in
  Returns (diff ++ [Flt.sqrt32 d]).

(** body of the loop over the sums *)
Definition accumulate (c : uvmapping_calib) (pts : list projected) (i : Z)
    (s : sums) : outcome sums :=
  cx ← at_ (_color_x c) i;
  cy ← at_ (_color_y c) i;
  let n0 := norm_x (row pts i) in
  let n1 := norm_y (row pts i) in
  Returns {| s_x := Flt.add64 (s_x s) (Flt.to64 n0);
             s_y := Flt.add64 (s_y s) (Flt.to64 n1);
             s_c_x := Flt.add64 (s_c_x s) (Flt.to64 cx);
             s_c_y := Flt.add64 (s_c_y s) (Flt.to64 cy);
             s_x_2 := Flt.add64 (s_x_2 s) (Flt.to64 (Flt.mul32 n0 n0));
             s_y_2 := Flt.add64 (s_y_2 s) (Flt.to64 (Flt.mul32 n1 n1));
             s_c_xc := Flt.add64 (s_c_xc s) (Flt.to64 (Flt.mul32 cx n0));
             s_c_yc := Flt.add64 (s_c_yc s) (Flt.to64 (Flt.mul32 cy n1)) |}.

(** body of the last loop: one term of [err_after] *)
Definition residual (c : uvmapping_calib) (pts : list projected) (p : params)
    (i : Z) (err_after : Flt.float) : outcome Flt.float :=
  cx ← at_ (_color_x c) i;
  let tmpx := Flt.sub32 (Flt.add32 (Flt.mul32 (norm_x (row pts i)) (p_fx p)) (p_ppx p)) cx in
  let tmpx := Flt.mul32 tmpx tmpx in
  cy ← at_ (_color_y c) i;
  let tmpy := Flt.sub32 (Flt.add32 (Flt.mul32 (norm_y (row pts i)) (p_fy p)) (p_ppy p)) cy in
  let tmpy := Flt.mul32 tmpy tmpy in
  Returns (Flt.add32 err_after (Flt.sqrt32 (Flt.add32 tmpx tmpy))).

(** [double d_x = 4 * x_2 - x * x;] and its twin for [y] *)
Definition d_x (s : sums) : Flt.float :=
  Flt.sub64 (Flt.mul64 (Flt.of_Z64 4) (s_x_2 s)) (Flt.mul64 (s_x s) (s_x s)).

Definition d_y (s : sums) : Flt.float :=
  Flt.sub64 (Flt.mul64 (Flt.of_Z64 4) (s_y_2 s)) (Flt.mul64 (s_y s) (s_y s)).

(** [if (d_x > 0.01) { ... }] *)
Definition solve_x (s : sums) (p : params) (log : list axis) : params * list axis :=
  if Flt.gtb (d_x s) (Flt.lit64 1 2) then
    let d := Flt.div64 (Flt.of_Z64 1) (d_x s) in
    let fx' := Flt.to32 (Flt.mul64 d (Flt.sub64 (Flt.mul64 (Flt.of_Z64 4) (s_c_xc s))
                                                (Flt.mul64 (s_x s) (s_c_x s)))) in
    let ppx' := Flt.to32 (Flt.mul64 d (Flt.sub64 (Flt.mul64 (s_x_2 s) (s_c_x s))
                                                 (Flt.mul64 (s_x s) (s_c_xc s)))) in
    ({| p_ppx := ppx'; p_ppy := p_ppy p; p_fx := fx'; p_fy := p_fy p |}, log ++ [AxisX])
  else (p, log).

(** [if (d_y > 0.01) { ... }] *)
Definition solve_y (s : sums) (p : params) (log : list axis) : params * list axis :=
  if Flt.gtb (d_y s) (Flt.lit64 1 2) then
    let d := Flt.div64 (Flt.of_Z64 1) (d_y s) in
    let fy' := Flt.to32 (Flt.mul64 d (Flt.sub64 (Flt.mul64 (Flt.of_Z64 4) (s_c_yc s))
                                                (Flt.mul64 (s_y s) (s_c_y s)))) in
    let ppy' := Flt.to32 (Flt.mul64 d (Flt.sub64 (Flt.mul64 (s_y_2 s) (s_c_y s))
                                                 (Flt.mul64 (s_y s) (s_c_yc s)))) in
    ({| p_ppx := p_ppx p; p_ppy := ppy'; p_fx := p_fx p; p_fy := fy' |}, log ++ [AxisY])
  else (p, log).

(** [fabs(a - b) < _max_change] *)
Definition within_max_change (a b : Flt.float) : bool :=
  Flt.ltb (Flt.fabs (Flt.sub32 a b)) _max_change.

Definition no_sums : sums :=
  {| s_x := zero; s_y := zero; s_c_x := zero; s_c_y := zero;
     s_x_2 := zero; s_y_2 := zero; s_c_xc := zero; s_c_yc := zero |}.

(** the points, their errors and the sums: everything up to the two
    guarded solves *)
Definition moments (c : uvmapping_calib)
  : outcome (list projected * Flt.float * sums) :=
  pts ← for_loop 4 0 (project c) [];
  diff ← for_loop 4 0 (point_error c pts) [];
  let err_before := fold_left Flt.add32 diff zero in
  let err_before := Flt.div32 err_before (Flt.of_Z32 4) in
  s ← for_loop 4 0 (accumulate c pts) no_sums;
  Returns (pts, err_before, s).

(** [prior] holds the values of [ppx], [ppy], [fx], [fy] at the call. *)
Definition calibrate (c : uvmapping_calib) (prior : params) : outcome result :=
  '(pts, err_before, s) ← moments c;
  let '(p, log) := solve_x s prior [] in
  let '(p, log) := solve_y s p log in
  err_after ← for_loop 4 0 (residual c pts p) zero;
  let err_after := Flt.div32 err_after (Flt.of_Z32 4) in
  let ci := _color_intrin c in
  Returns {| accepted := within_max_change (ppx ci) (p_ppx p)
                         && within_max_change (ppy ci) (p_ppy p)
                         && within_max_change (fx ci) (p_fx p)
                         && within_max_change (fy ci) (p_fy p);
             err_before := err_before;
             err_after := err_after;
             fitted := p;
             reciprocals := log |}.

(** The inputs [calibrate] is written for: four points in every vector,
    and the colour camera's model as the assertion states it. *)
Definition four_points (c : uvmapping_calib) : Prop :=
  (4 <= length (_left_x c))%nat /\ (4 <= length (_left_y c))%nat /\
  (4 <= length (_left_z c))%nat /\ (4 <= length (_color_x c))%nat /\
  (4 <= length (_color_y c))%nat.

Definition asserted_model (c : uvmapping_calib) : Prop :=
  model (_color_intrin c) = RS2_DISTORTION_INVERSE_BROWN_CONRADY.

(** "differs from [b] by strictly less than [_max_change]" *)
Definition differs_by_less_than_max_change (a b : Flt.float) : Prop :=
  Flt.ltb (Flt.fabs (Flt.sub32 a b)) _max_change = true.

End Calibrate.

End UVMapping.

(* ===================================================================== *)
(** * Saving and restoring the workspace around a calibration             *)
(* ===================================================================== *)

Module Workspace.

Inductive calib_action : Type :=
| RS2_CALIB_ACTION_ON_CHIP_OB_CALIB
| RS2_CALIB_ACTION_ON_CHIP_CALIB
| RS2_CALIB_ACTION_ON_CHIP_FL_CALIB
| RS2_CALIB_ACTION_TARE_CALIB
| RS2_CALIB_ACTION_TARE_GROUND_TRUTH
| RS2_CALIB_ACTION_FL_CALIB
| RS2_CALIB_ACTION_UVMAPPING_CALIB
| RS2_CALIB_ACTION_UVMAPPING.

Definition action_eqb (a b : calib_action) : bool :=
  match a, b with
  | RS2_CALIB_ACTION_ON_CHIP_OB_CALIB, RS2_CALIB_ACTION_ON_CHIP_OB_CALIB
  | RS2_CALIB_ACTION_ON_CHIP_CALIB, RS2_CALIB_ACTION_ON_CHIP_CALIB
  | RS2_CALIB_ACTION_ON_CHIP_FL_CALIB, RS2_CALIB_ACTION_ON_CHIP_FL_CALIB
  | RS2_CALIB_ACTION_TARE_CALIB, RS2_CALIB_ACTION_TARE_CALIB
  | RS2_CALIB_ACTION_TARE_GROUND_TRUTH, RS2_CALIB_ACTION_TARE_GROUND_TRUTH
  | RS2_CALIB_ACTION_FL_CALIB, RS2_CALIB_ACTION_FL_CALIB
  | RS2_CALIB_ACTION_UVMAPPING_CALIB, RS2_CALIB_ACTION_UVMAPPING_CALIB
  | RS2_CALIB_ACTION_UVMAPPING, RS2_CALIB_ACTION_UVMAPPING => true
  | _, _ => false
  end.

(** [subdevice_ui_selection], as far as the stream negotiation touches it:
    the selected resolution and frame-rate entries. *)
Record ui_selection := { ui_res_id : Z; ui_fps_id : Z }.

(** ** What the manager works on but does not own

    The sensor [_sub->s] with its two options, the subdevice models [_sub]
    and [_sub_color] ([None]: a null pointer) and the viewer. *)
Record external := {
  supports_emitter : bool;
  supports_thermal : bool;
  emitter_enabled : Flt.float;
  thermal_compensation : Flt.float;
  sub : StreamConfig.subdevice;
  streaming : bool;
  post_processing_enabled : bool;
  sub_color : option StreamConfig.subdevice;
  is_3d_view : bool;
  synchronization_enable : bool
}.

Definition set_emitter_enabled (v : Flt.float) (e : external) : external :=
  {| supports_emitter := supports_emitter e;
     supports_thermal := supports_thermal e; emitter_enabled := v;
     thermal_compensation := thermal_compensation e; sub := sub e;
     streaming := streaming e;
     post_processing_enabled := post_processing_enabled e;
     sub_color := sub_color e; is_3d_view := is_3d_view e;
     synchronization_enable := synchronization_enable e |}.

Definition set_thermal_compensation (v : Flt.float) (e : external) : external :=
  {| supports_emitter := supports_emitter e;
     supports_thermal := supports_thermal e;
     emitter_enabled := emitter_enabled e; thermal_compensation := v;
     sub := sub e; streaming := streaming e;
     post_processing_enabled := post_processing_enabled e;
     sub_color := sub_color e; is_3d_view := is_3d_view e;
     synchronization_enable := synchronization_enable e |}.

Definition set_sub (v : StreamConfig.subdevice) (e : external) : external :=
  {| supports_emitter := supports_emitter e;
     supports_thermal := supports_thermal e;
     emitter_enabled := emitter_enabled e;
     thermal_compensation := thermal_compensation e; sub := v;
     streaming := streaming e;
     post_processing_enabled := post_processing_enabled e;
     sub_color := sub_color e; is_3d_view := is_3d_view e;
     synchronization_enable := synchronization_enable e |}.

Definition set_post_processing_enabled (v : bool) (e : external) : external :=
  {| supports_emitter := supports_emitter e;
     supports_thermal := supports_thermal e;
     emitter_enabled := emitter_enabled e;
     thermal_compensation := thermal_compensation e; sub := sub e;
     streaming := streaming e; post_processing_enabled := v;
     sub_color := sub_color e; is_3d_view := is_3d_view e;
     synchronization_enable := synchronization_enable e |}.

Definition set_sub_color (v : option StreamConfig.subdevice) (e : external) : external :=
  {| supports_emitter := supports_emitter e;
     supports_thermal := supports_thermal e;
     emitter_enabled := emitter_enabled e;
     thermal_compensation := thermal_compensation e; sub := sub e;
     streaming := streaming e;
     post_processing_enabled := post_processing_enabled e; sub_color := v;
     is_3d_view := is_3d_view e;
     synchronization_enable := synchronization_enable e |}.

Definition set_is_3d_view (v : bool) (e : external) : external :=
  {| supports_emitter := supports_emitter e;
     supports_thermal := supports_thermal e;
     emitter_enabled := emitter_enabled e;
     thermal_compensation := thermal_compensation e; sub := sub e;
     streaming := streaming e;
     post_processing_enabled := post_processing_enabled e;
     sub_color := sub_color e; is_3d_view := v;
     synchronization_enable := synchronization_enable e |}.

Definition set_synchronization_enable (v : bool) (e : external) : external :=
  {| supports_emitter := supports_emitter e;
     supports_thermal := supports_thermal e;
     emitter_enabled := emitter_enabled e;
     thermal_compensation := thermal_compensation e; sub := sub e;
     streaming := streaming e;
     post_processing_enabled := post_processing_enabled e;
     sub_color := sub_color e; is_3d_view := is_3d_view e;
     synchronization_enable := v |}.

(** ** The members of [on_chip_calib_manager] that take part *)
Record manager := {
  action : calib_action;
  host_assistance : bool;
  _version : Z;
  laser_status_prev : Flt.float;
  thermal_loop_prev : Flt.float;
  _in_3d_view : bool;
  _synchronized : bool;
  _post_processing : bool;
  _was_streaming : bool;
  _restored : bool;
  _ui : option ui_selection;
  _ui_color : option ui_selection;
  _progress : Z;
  _done : bool
}.

Definition set_laser_status_prev (v : Flt.float) (m : manager) : manager :=
  {| action := action m; host_assistance := host_assistance m;
     _version := _version m; laser_status_prev := v;
     thermal_loop_prev := thermal_loop_prev m; _in_3d_view := _in_3d_view m;
     _synchronized := _synchronized m;
     _post_processing := _post_processing m;
     _was_streaming := _was_streaming m; _restored := _restored m;
     _ui := _ui m; _ui_color := _ui_color m; _progress := _progress m;
     _done := _done m |}.

Definition set_thermal_loop_prev (v : Flt.float) (m : manager) : manager :=
  {| action := action m; host_assistance := host_assistance m;
     _version := _version m; laser_status_prev := laser_status_prev m;
     thermal_loop_prev := v; _in_3d_view := _in_3d_view m;
     _synchronized := _synchronized m;
     _post_processing := _post_processing m;
     _was_streaming := _was_streaming m; _restored := _restored m;
     _ui := _ui m; _ui_color := _ui_color m; _progress := _progress m;
     _done := _done m |}.

Definition set_in_3d_view (v : bool) (m : manager) : manager :=
  {| action := action m; host_assistance := host_assistance m;
     _version := _version m; laser_status_prev := laser_status_prev m;
     thermal_loop_prev := thermal_loop_prev m; _in_3d_view := v;
     _synchronized := _synchronized m;
     _post_processing := _post_processing m;
     _was_streaming := _was_streaming m; _restored := _restored m;
     _ui := _ui m; _ui_color := _ui_color m; _progress := _progress m;
     _done := _done m |}.

Definition set_synchronized (v : bool) (m : manager) : manager :=
  {| action := action m; host_assistance := host_assistance m;
     _version := _version m; laser_status_prev := laser_status_prev m;
     thermal_loop_prev := thermal_loop_prev m; _in_3d_view := _in_3d_view m;
     _synchronized := v; _post_processing := _post_processing m;
     _was_streaming := _was_streaming m; _restored := _restored m;
     _ui := _ui m; _ui_color := _ui_color m; _progress := _progress m;
     _done := _done m |}.

Definition set_post_processing (v : bool) (m : manager) : manager :=
  {| action := action m; host_assistance := host_assistance m;
     _version := _version m; laser_status_prev := laser_status_prev m;
     thermal_loop_prev := thermal_loop_prev m; _in_3d_view := _in_3d_view m;
     _synchronized := _synchronized m; _post_processing := v;
     _was_streaming := _was_streaming m; _restored := _restored m;
     _ui := _ui m; _ui_color := _ui_color m; _progress := _progress m;
     _done := _done m |}.

Definition set_was_streaming (v : bool) (m : manager) : manager :=
  {| action := action m; host_assistance := host_assistance m;
     _version := _version m; laser_status_prev := laser_status_prev m;
     thermal_loop_prev := thermal_loop_prev m; _in_3d_view := _in_3d_view m;
     _synchronized := _synchronized m;
     _post_processing := _post_processing m; _was_streaming := v;
     _restored := _restored m; _ui := _ui m; _ui_color := _ui_color m;
     _progress := _progress m; _done := _done m |}.

Definition set_restored (v : bool) (m : manager) : manager :=
  {| action := action m; host_assistance := host_assistance m;
     _version := _version m; laser_status_prev := laser_status_prev m;
     thermal_loop_prev := thermal_loop_prev m; _in_3d_view := _in_3d_view m;
     _synchronized := _synchronized m;
     _post_processing := _post_processing m;
     _was_streaming := _was_streaming m; _restored := v; _ui := _ui m;
     _ui_color := _ui_color m; _progress := _progress m; _done := _done m |}.

Definition set_ui (v : option ui_selection) (m : manager) : manager :=
  {| action := action m; host_assistance := host_assistance m;
     _version := _version m; laser_status_prev := laser_status_prev m;
     thermal_loop_prev := thermal_loop_prev m; _in_3d_view := _in_3d_view m;
     _synchronized := _synchronized m;
     _post_processing := _post_processing m;
     _was_streaming := _was_streaming m; _restored := _restored m; _ui := v;
     _ui_color := _ui_color m; _progress := _progress m; _done := _done m |}.

Definition set_ui_color (v : option ui_selection) (m : manager) : manager :=
  {| action := action m; host_assistance := host_assistance m;
     _version := _version m; laser_status_prev := laser_status_prev m;
     thermal_loop_prev := thermal_loop_prev m; _in_3d_view := _in_3d_view m;
     _synchronized := _synchronized m;
     _post_processing := _post_processing m;
     _was_streaming := _was_streaming m; _restored := _restored m;
     _ui := _ui m; _ui_color := v; _progress := _progress m;
     _done := _done m |}.

Definition set_progress (v : Z) (m : manager) : manager :=
  {| action := action m; host_assistance := host_assistance m;
     _version := _version m; laser_status_prev := laser_status_prev m;
     thermal_loop_prev := thermal_loop_prev m; _in_3d_view := _in_3d_view m;
     _synchronized := _synchronized m;
     _post_processing := _post_processing m;
     _was_streaming := _was_streaming m; _restored := _restored m;
     _ui := _ui m; _ui_color := _ui_color m; _progress := v;
     _done := _done m |}.

Definition set_done (v : bool) (m : manager) : manager :=
  {| action := action m; host_assistance := host_assistance m;
     _version := _version m; laser_status_prev := laser_status_prev m;
     thermal_loop_prev := thermal_loop_prev m; _in_3d_view := _in_3d_view m;
     _synchronized := _synchronized m;
     _post_processing := _post_processing m;
     _was_streaming := _was_streaming m; _restored := _restored m;
     _ui := _ui m; _ui_color := _ui_color m; _progress := _progress m;
     _done := v |}.

(** ** Calls that can throw, over a state that keeps what was written

    A member function runs on the manager and on the collaborators' state;
    it ends normally, by an exception that leaves the writes made so far in
    place, or in undefined behaviour (a null [_sub_color] dereferenced). *)
Definition state : Type := manager * external.

Inductive res (A : Type) : Type :=
| Ok (a : A)
| Raise (what : string)
| Crash.

Arguments Ok {A} a.
Arguments Raise {A} what.
Arguments Crash {A}.

Definition prog (A : Type) : Type := state -> res A * state.

Definition ret {A} (a : A) : prog A := fun st => (Ok a, st).

Definition bind {A B} (m : prog A) (k : A -> prog B) : prog B :=
  fun st =>
    match m st with
    | (Ok a, st') => k a st'
    | (Raise w, st') => (Raise w, st')
    | (Crash, st') => (Crash, st')
    end.

Definition throw {A} (what : string) : prog A := fun st => (Raise what, st).

Definition crash {A} : prog A := fun st => (Crash, st).

(** [try { m } catch (...) { h }]; [h] gets the exception to rethrow it *)
Definition try_catch {A} (m : prog A) (h : string -> prog A) : prog A :=
  fun st =>
    match m st with
    | (Raise w, st') => h w st'
    | r => r
    end.

Definition the_manager : prog manager := fun st => (Ok (fst st), st).
Definition the_external : prog external := fun st => (Ok (snd st), st).

Definition update_manager (f : manager -> manager) : prog unit :=
  fun st => (Ok tt, (f (fst st), snd st)).

Definition update_external (f : external -> external) : prog unit :=
  fun st => (Ok tt, (fst st, f (snd st))).

(** a call into a collaborator: it sees and changes only its own side *)
Definition call {A} (f : external -> res A * external) : prog A :=
  fun st => let '(r, e) := f (snd st) in (r, (fst st, e)).

Definition when (b : bool) (m : prog unit) : prog unit :=
  if b then m else ret tt.

End Workspace.

#[global] Instance workspace_ret : MRet Workspace.prog := @Workspace.ret.
#[global] Instance workspace_bind : MBind Workspace.prog :=
  fun A B k m => Workspace.bind m k.

Module Session.
Import Workspace.

(** The collaborators (§6 of the specification): the viewer's streaming
    runtime and the device, whose code is outside this file. *)
Record collaborators := {
  (* _sub->is_selected_combination_supported(), by resolution and fps id *)
  is_combination_supported : Z -> Z -> bool;
  (* get_selected_profiles(), then _sub->stop / _sub_color->stop *)
  stop_streams : external -> res unit * external;
  (* get_selected_profiles(), play, begin_stream, and whether a frame
     arrives within the 200 polls *)
  play_streams : external -> res bool * external;
  (* calib_dev.get_calibration_table() *)
  get_calibration_table : external -> res unit * external;
  (* calibrate(), calibrate_fl() or calibrate_uv_mapping() *)
  run_calibration : calib_action -> external -> res unit * external;
  (* get_ground_truth(): reports its failures through fail() *)
  run_ground_truth : external -> external;
  (* get_depth_metrics(invoke) *)
  measure_depth : external -> res unit * external;
  (* apply_calib(true) *)
  apply_new_calib : external -> res unit * external;
  (* the device reports no USB descriptor, or one that starts with "3." *)
  usb3 : bool
}.

Definition zero : Flt.float := S754_zero false.

Definition ui_of (s : StreamConfig.subdevice) : ui_selection :=
  {| ui_res_id := StreamConfig.selected_res_id s;
     ui_fps_id := StreamConfig.selected_shared_fps_id s |}.

(** [sub->ui = u] *)
Definition with_ui (u : ui_selection) (s : StreamConfig.subdevice)
  : StreamConfig.subdevice :=
  StreamConfig.set_res_id (ui_res_id u) (StreamConfig.set_fps_id (ui_fps_id u) s).

Section WithCollaborators.

Variable env : collaborators.

(** [stop_viewer(invoker)] *)
Definition stop_viewer : prog unit :=
  try_catch (call (stop_streams env)) (fun _ => ret tt).

(** [if (supports(EMITTER_ENABLED)) set_option(EMITTER_ENABLED, 0.0f);] *)
Definition emitter_off : prog unit :=
  e ← the_external;
  when (supports_emitter e) (update_external (set_emitter_enabled zero)).

(** [if (supports(THERMAL_COMPENSATION)) set_option(THERMAL_COMPENSATION, 0.f);] *)
Definition thermal_off : prog unit :=
  e ← the_external;
  when (supports_thermal e) (update_external (set_thermal_compensation zero)).

(** The colour sensor's frame rate and resolution in the
    [RS2_CALIB_ACTION_UVMAPPING_CALIB] case: looked up, no fall-back. *)
Definition select_color (w h fps : Z) (c : StreamConfig.subdevice)
  : StreamConfig.subdevice :=
  let c := StreamConfig.set_fps_id
             (StreamConfig.select_matching (Z.eqb fps)
                (StreamConfig.shared_fps_values c) 0
                (StreamConfig.selected_shared_fps_id c)) c in
  StreamConfig.set_res_id
    (StreamConfig.select_matching (StreamConfig.res_eqb w h)
       (StreamConfig.res_values c) 0 (StreamConfig.selected_res_id c)) c.

(** The body of the [try] block of [start_viewer].  The choice of the
    stream ids [_uid], [_uid2], [_uid_color] by pixel format is not
    represented: it writes [stream_enabled] and [selected_format_id]
    only. *)
Definition start_viewer_body (w h fps : Z) : prog bool :=
  e ← the_external;
  when (supports_emitter e)
    (update_manager (set_laser_status_prev (emitter_enabled e));;
     update_external (set_emitter_enabled zero));;
  e ← the_external;
  when (supports_thermal e)
    (update_manager (set_thermal_loop_prev (thermal_compensation e));;
     update_external (set_thermal_compensation zero));;
  m ← the_manager;
  let run_fl_calib :=
    action_eqb (action m) RS2_CALIB_ACTION_FL_CALIB
    && (w =? 1280) && (h =? 720) && (fps =? 30) in
  (if action_eqb (action m) RS2_CALIB_ACTION_TARE_GROUND_TRUTH then ret tt
   else if action_eqb (action m) RS2_CALIB_ACTION_UVMAPPING_CALIB then
     e ← the_external;
     match sub_color e with
     | None => crash
     | Some _ => emitter_off;; thermal_off
     end
   else if action_eqb (action m) RS2_CALIB_ACTION_UVMAPPING then
     e ← the_external;
     match sub_color e with
     | None => crash
     | Some _ => emitter_off
     end
   else if run_fl_calib then emitter_off;; thermal_off
   else ret tt);;
  update_external
    (fun e => set_sub (StreamConfig.select_stream (is_combination_supported env)
                         w h fps (sub e)) e);;
  (if action_eqb (action m) RS2_CALIB_ACTION_UVMAPPING_CALIB then
     update_external
       (fun e => set_sub_color (select_color w h fps <$> sub_color e) e)
   else ret tt);;
  call (play_streams env).

(** [start_viewer]: any exception leaves [frame_arrived] false *)
Definition start_viewer (w h fps : Z) : prog bool :=
  try_catch (start_viewer_body w h fps) (fun _ => ret false).

Definition start_failure (w h fps : Z) : string :=
  "Failed to start streaming (" +:+ pretty w +:+ ", " +:+ pretty h +:+ ", "
    +:+ pretty fps +:+ ")!".

Definition try_start_viewer (w h fps : Z) : prog unit :=
  started ← start_viewer w h fps;
  started ← (if negb started then start_viewer w h fps else ret started);
  if negb started then stop_viewer;; throw (start_failure w h fps)
  else ret tt.

(** [if (_sub.get() && _ui.get()) { _sub->ui = *_ui; _ui.reset(); }] *)
Definition restore_ui : prog unit :=
  m ← the_manager;
  match _ui m with
  | Some u =>
      update_external (fun e => set_sub (with_ui u (sub e)) e);;
      update_manager (set_ui None)
  | None => ret tt
  end.

(** [if (_sub_color.get() && _ui_color.get())
      { _sub_color->ui = *_ui_color; _ui_color.reset(); }] *)
Definition restore_ui_color : prog unit :=
  m ← the_manager;
  e ← the_external;
  match sub_color e, _ui_color m with
  | Some _, Some u =>
      update_external (fun e => set_sub_color (with_ui u <$> sub_color e) e);;
      update_manager (set_ui_color None)
  | _, _ => ret tt
  end.

Definition restore_workspace : prog unit :=
  try_catch
    (m ← the_manager;
     if _restored m then ret tt
     else
       update_external (set_is_3d_view (_in_3d_view m));;
       update_external (set_synchronization_enable (_synchronized m));;
       stop_viewer;;
       restore_ui;;
       when (action_eqb (action m) RS2_CALIB_ACTION_UVMAPPING_CALIB) restore_ui_color;;
       update_external (set_post_processing_enabled (_post_processing m));;
       when (_was_streaming m) (start_viewer 0 0 0;; ret tt);;
       update_manager (set_restored true))
    (fun _ => ret tt).

Definition is_action (m : manager) (a : calib_action) : bool :=
  action_eqb (action m) a.

(** [process_flow].  [update_last_used()] and the [log] calls write the
    configuration file and the log only and are left out. *)
Definition process_flow : prog unit :=
  m ← the_manager;
  let fl := is_action m RS2_CALIB_ACTION_FL_CALIB in
  let gt := is_action m RS2_CALIB_ACTION_TARE_GROUND_TRUTH in
  let uv := is_action m RS2_CALIB_ACTION_UVMAPPING_CALIB in
  when (fl || uv) stop_viewer;;
  e ← the_external;
  update_manager (set_in_3d_view (is_3d_view e));;
  update_external (set_is_3d_view (if gt then false else true));;
  call (get_calibration_table env);;
  e ← the_external;
  update_manager (set_was_streaming (streaming e));;
  update_manager (set_synchronized (synchronization_enable e));;
  update_manager (set_post_processing (post_processing_enabled e));;
  update_external (set_post_processing_enabled false);;
  update_external (set_synchronization_enable false);;
  update_manager (set_restored false);;
  when (negb gt && negb uv)
    (m ← the_manager;
     when (negb (_was_streaming m))
       (if fl then try_start_viewer 848 480 30 else try_start_viewer 0 0 0);;
     (* Capture metrics before *)
     call (measure_depth env));;
  stop_viewer;;
  e ← the_external;
  update_manager (set_ui (Some (ui_of (sub e))));;
  match sub_color e with
  | Some c => when uv (update_manager (set_ui_color (Some (ui_of c))))
  | None => ret tt
  end;;
  (* Switch into special Auto-Calibration mode *)
  when (fl || uv) (update_external (set_is_3d_view false));;
  let fps := if usb3 env then 30 else 5 in
  m ← the_manager;
  (if fl || gt || uv || ((_version m =? 3) && negb gt)
   then try_start_viewer 1280 720 fps
   else if host_assistance m && negb gt then try_start_viewer 0 0 0
   else try_start_viewer 256 144 90);;
  (if gt then update_external (run_ground_truth env)
   else
     try_catch (call (run_calibration env (action m)))
       (fun w =>
          stop_viewer;;
          restore_ui;;
          when uv restore_ui_color;;
          m ← the_manager;
          when (_was_streaming m) (start_viewer 0 0 0;; ret tt);;
          throw w));;
  when (negb uv) (stop_viewer;; restore_ui;; restore_ui_color);;
  when (negb gt && negb uv)
    (when fl (update_external (set_is_3d_view true));;
     try_start_viewer 0 0 0;;  (* Start with default settings *)
     (* Make new calibration active *)
     call (apply_new_calib env);;
     (* Capture metrics after *)
     call (measure_depth env));;
  update_manager (set_progress 100);;
  update_manager (set_done true).

(** What the notification's buttons do with the saved option values
    ("Back", ground truth complete, calibration complete for
    [RS2_CALIB_ACTION_FL_CALIB]):
    [set_option(EMITTER_ENABLED, laser_status_prev);
     set_option(THERMAL_COMPENSATION, thermal_loop_prev);], each under
    its [supports] test. *)
Definition write_back_options : prog unit :=
  m ← the_manager;
  e ← the_external;
  when (supports_emitter e)
    (update_external (set_emitter_enabled (laser_status_prev m)));;
  when (supports_thermal e)
    (update_external (set_thermal_compensation (thermal_loop_prev m))).

End WithCollaborators.

(** ** A camera and a viewer on a good day *)

Definition set_streaming (v : bool) (e : external) : external :=
  {| supports_emitter := supports_emitter e; supports_thermal := supports_thermal e;
     emitter_enabled := emitter_enabled e;
     thermal_compensation := thermal_compensation e;
     sub := sub e; streaming := v;
     post_processing_enabled := post_processing_enabled e;
     sub_color := sub_color e; is_3d_view := is_3d_view e;
     synchronization_enable := synchronization_enable e |}.

(** Every combination is supported, streams start and stop at once, no call
    fails. *)
Definition cooperative : collaborators :=
  {| is_combination_supported := fun _ _ => true;
     stop_streams := fun e => (Ok tt, set_streaming false e);
     play_streams := fun e => (Ok true, set_streaming true e);
     get_calibration_table := fun e => (Ok tt, e);
     run_calibration := fun _ e => (Ok tt, e);
     run_ground_truth := fun e => e;
     measure_depth := fun e => (Ok tt, e);
     apply_new_calib := fun e => (Ok tt, e);
     usb3 := true |}.

Definition one : Flt.float := Flt.of_Z32 1.

(** A depth camera with its projector and thermal loop on, idle, with the
    viewer in 2D. *)
Definition camera : external :=
  {| supports_emitter := true; supports_thermal := true;
     emitter_enabled := one; thermal_compensation := one;
     sub := {| StreamConfig.shared_fps_values := [6; 15; 30; 60; 90];
               StreamConfig.res_values :=
                 [(256, 144); (424, 240); (480, 270); (640, 360); (640, 480);
                  (848, 480); (1280, 720)];
               StreamConfig.selected_shared_fps_id := 2;
               StreamConfig.selected_res_id := 5 |};
     streaming := false; post_processing_enabled := true;
     sub_color := None; is_3d_view := false; synchronization_enable := true |}.

(** A freshly constructed manager about to run [a]. *)
Definition fresh (a : calib_action) : manager :=
  {| action := a; host_assistance := false; _version := 2;
     laser_status_prev := zero; thermal_loop_prev := zero;
     _in_3d_view := false; _synchronized := false; _post_processing := false;
     _was_streaming := false; _restored := true;
     _ui := None; _ui_color := None; _progress := 0; _done := false |}.

(** One session as the notification drives it: the worker runs
    [process_flow], then the user's choice calls [restore_workspace] and,
    on the paths that do so, writes the saved options back. *)
Definition session (env : collaborators) : prog unit :=
  process_flow env;;
  restore_workspace env;;
  write_back_options.

End Session.

(* ===================================================================== *)
(** * The focal-length patch of the calibration table                     *)
(* ===================================================================== *)

Module TablePatch.

(** A table is a [std::vector<uint8_t>]; the code reads it through a
    [coefficients_table*].  Multi-byte fields are little-endian, as on the
    hosts the viewer runs on. *)
Abbreviation table := (list Z).

Definition is_byte (b : Z) : Prop := 0 <= b < 256.

Definition byte_at (t : table) (i : nat) : outcome Z :=
  match t !! i with
  | Some b => Returns b
  | None => Undefined (OutOfBounds (Z.of_nat i))
  end.

(** a 32-bit load at byte offset [off] *)
Definition load32 (t : table) (off : nat) : outcome Z :=
  b0 ← byte_at t off;
  b1 ← byte_at t (off + 1);
  b2 ← byte_at t (off + 2);
  b3 ← byte_at t (off + 3);
  Returns (b0 + 2 ^ 8 * b1 + 2 ^ 16 * b2 + 2 ^ 24 * b3).

(** a 32-bit store at byte offset [off] *)
Definition store32 (t : table) (off : nat) (w : Z) : outcome table :=
  if (off + 4 <=? length t)%nat then
    Returns (<[(off + 3)%nat := (w / 2 ^ 24) mod 256]>
             (<[(off + 2)%nat := (w / 2 ^ 16) mod 256]>
              (<[(off + 1)%nat := (w / 2 ^ 8) mod 256]>
               (<[off := w mod 256]> t))))
  else Undefined (OutOfBounds (Z.of_nat (length t))).

(** The binary32 value of a 32-bit pattern: sign (bit 31), biased exponent
    (bits 30..23), fraction (bits 22..0). *)
Definition float_of_bits (w : Z) : Flt.float :=
  let s := 2 ^ 31 <=? w in
  let e := (w / 2 ^ 23) mod 2 ^ 8 in
  let f := w mod 2 ^ 23 in
  if e =? 0 then
    match f with
    | Z.pos m => S754_finite s m (-149)
    | _ => S754_zero s
    end
  else if e =? 255 then
    if f =? 0 then S754_infinity s else S754_nan
  else
    match f + 2 ^ 23 with
    | Z.pos m => S754_finite s m (e - 150)
    | _ => S754_nan
    end.

(** The 32-bit pattern of a binary32 value.  A NaN is stored as the
    default quiet NaN: the payload is not part of [spec_float]. *)
Definition bits_of_float (x : Flt.float) : Z :=
  let sign (s : bool) := if s then 2 ^ 31 else 0 in
  match x with
  | S754_zero s => sign s
  | S754_infinity s => sign s + 255 * 2 ^ 23
  | S754_nan => 0x7FC00000
  | S754_finite s m e =>
      if Z.pos m <? 2 ^ 23 then sign s + Z.pos m
      else sign s + (e + 150) * 2 ^ 23 + (Z.pos m - 2 ^ 23)
  end.

Definition load_float (t : table) (off : nat) : outcome Flt.float :=
  w ← load32 t off;
  Returns (float_of_bits w).

Definition store_float (t : table) (off : nat) (x : Flt.float) : outcome table :=
  store32 t off (bits_of_float x).

Section Layout.

(** From the declarations of [librealsense::ds::table_header] and
    [librealsense::ds::coefficients_table], and [helpers::calc_crc32];
    none of them is in this file. *)
Variable header_size : nat.              (* sizeof(table_header) *)
Variable crc32_offset : nat.             (* offsetof(table_header, crc32) *)
Variable right_xx_offset : nat.          (* intrinsic_right.x.x *)
Variable right_xy_offset : nat.          (* intrinsic_right.x.y *)
Variable calc_crc32 : list Z -> Z.

(** Lines 1704-1713 of [calibrate_fl]: from [corrected_ratio] and
    [_old_calib] to [_new_calib]. *)
Definition patch_table (corrected_ratio : Flt.float) (_old_calib : table)
  : outcome table :=
  let ratio_to_apply :=
    Flt.add32 (Flt.div32 corrected_ratio (Flt.of_Z32 100)) (Flt.of_Z32 1) in
  let _new_calib := _old_calib in
  xx ← load_float _new_calib right_xx_offset;
  _new_calib ← store_float _new_calib right_xx_offset (Flt.mul32 xx ratio_to_apply);
  xy ← load_float _new_calib right_xy_offset;
  _new_calib ← store_float _new_calib right_xy_offset (Flt.mul32 xy ratio_to_apply);
  if (length _new_calib <? header_size)%nat
  then Undefined (OutOfBounds (Z.of_nat (length _new_calib)))
  else
    let actual_data := drop header_size _new_calib in
    let crc := calc_crc32 actual_data in
    store32 _new_calib crc32_offset crc.

(** the table body: the bytes after the header *)
Definition body (t : table) : list Z := drop header_size t.

(** the four bytes of a field *)
Definition field (t : table) (off : nat) : list Z := take 4 (drop off t).

(** The layout facts the code relies on: the checksum lies inside the
    header, the two scale factors behind it, one after the other, and the
    table is long enough to hold them. *)
Record layout_ok (t : table) : Prop := {
  crc_in_header : (crc32_offset + 4 <= header_size)%nat;
  xx_in_body : (header_size <= right_xx_offset)%nat;
  xy_after_xx : (right_xx_offset + 4 <= right_xy_offset)%nat;
  long_enough : (right_xy_offset + 4 <= length t)%nat;
  bytes : Forall is_byte t;
  crc_is_uint32 : 0 <= calc_crc32 (drop header_size t) < 2 ^ 32
}.

(** the stored scale factors are numbers *)
Definition scale_is_number (t : table) : Prop :=
  exists xx xy,
    load_float t right_xx_offset = Returns xx /\
    load_float t right_xy_offset = Returns xy /\
    Flt.is_nan xx = false /\ Flt.is_nan xy = false.

End Layout.

(** Modelled from the spec: [helpers::calc_crc32] is not in this file; the
    specification calls it a CRC32, taken here as the reflected CRC-32 with
    polynomial 0xEDB88320, initial value and final xor 0xFFFFFFFF.  It is
    used only to run the patch on a concrete table. *)
Fixpoint crc_bits (n : nat) (crc : Z) : Z :=
  match n with
  | O => crc
  | S n' =>
      crc_bits n' (if Z.odd crc then Z.lxor (Z.shiftr crc 1) 0xEDB88320
                   else Z.shiftr crc 1)
  end.

Definition crc32 (l : list Z) : Z :=
  Z.lxor (fold_left (fun crc b => crc_bits 8 (Z.lxor crc b)) l 0xFFFFFFFF) 0xFFFFFFFF.

End TablePatch.

(* ===================================================================== *)
(** * Properties                                                          *)
(* ===================================================================== *)

(** ** Sequencing *)

Lemma bind_returns {A B} (m : outcome A) (k : A -> outcome B) (b : B) :
  m ≫= k = Returns b -> exists a, m = Returns a /\ k a = Returns b.
Proof.
  destruct m as [a| | |]; simpl; intros H; try discriminate.
  exists a. split; [reflexivity | exact H].
Qed.

(** ** fill_missing_data *)

Section FillFactorFacts.
Import FillFactor.

Lemma leading_zeros_all_zero (rest : list Z) (start counter : Z) :
  Forall (fun v => v = 0) rest ->
  leading_zeros rest start counter
  = Undefined (OutOfBounds (start + Z.of_nat (length rest))).
Proof.
  intros Hz. revert start counter.
  induction Hz as [|v rest Hv _ IH]; intros start counter; simpl.
  - f_equal. f_equal. lia.
  - subst v. simpl. rewrite IH. f_equal. f_equal. lia.
Qed.

Lemma rd_returns (data : list Z) (i v : Z) :
  rd data i = Returns v <-> 0 <= i /\ data !! Z.to_nat i = Some v.
Proof.
  unfold rd. destruct (Z.ltb_spec i 0).
  - split; [discriminate | lia].
  - destruct (data !! Z.to_nat i) as [x|]; split.
    + intros [= ->]. auto.
    + intros [_ [= ->]]. reflexivity.
    + discriminate.
    + intros [_ ?]. discriminate.
Qed.

Lemma wr_returns (data data' : list Z) (i v : Z) :
  wr data i v = Returns data' ->
  0 <= i /\ (Z.to_nat i < length data)%nat /\ data' = <[Z.to_nat i := v]> data.
Proof.
  unfold wr. destruct (Z.ltb_spec i 0); [discriminate|].
  destruct (Nat.ltb_spec (Z.to_nat i) (length data)); [|discriminate].
  intros [= <-]. auto.
Qed.

(** [cur] still has every sample of [orig] *)
Definition keeps (orig cur : list Z) : Prop :=
  forall k v, orig !! k = Some v -> v <> 0 -> cur !! k = Some v.

Lemma keeps_refl (orig : list Z) : keeps orig orig.
Proof. intros k v H _. exact H. Qed.

(** writing into a slot that holds zero loses no sample *)
Lemma keeps_wr (orig cur cur' : list Z) (i v : Z) :
  keeps orig cur -> cur !! Z.to_nat i = Some 0 -> wr cur i v = Returns cur' ->
  keeps orig cur'.
Proof.
  intros Hk Hz Hw. apply wr_returns in Hw as (_ & _ & ->).
  intros k x Hx Hne. destruct (decide (k = Z.to_nat i)) as [->|Hki].
  - rewrite (Hk _ _ Hx Hne) in Hz. congruence.
  - rewrite list_lookup_insert_ne by congruence. apply Hk; assumption.
Qed.

Lemma fill_head_keeps (orig : list Z) (n : nat) (i counter : Z) (cur out : list Z) :
  0 <= i ->
  keeps orig cur ->
  (forall k, (Z.to_nat i <= k < Z.to_nat i + n)%nat -> cur !! k = Some 0) ->
  fill_head n i counter cur = Returns out ->
  keeps orig out.
Proof.
  revert i cur. induction n as [|n IH]; intros i cur Hi Hk Hz H.
  - injection H as <-. exact Hk.
  - cbn [fill_head] in H. apply bind_returns in H as (v & _ & H).
    apply bind_returns in H as (cur' & Hw & H).
    apply (IH (i + 1) cur'); [lia | | | exact H].
    + apply (keeps_wr orig cur cur' i v Hk); [apply Hz; lia | exact Hw].
    + intros k Hk'. apply wr_returns in Hw as (_ & _ & ->).
      rewrite list_lookup_insert_ne by lia. apply Hz. lia.
Qed.

(** the scan stops at the first sample, with only zeros before it *)
Lemma leading_zeros_returns (rest : list Z) (start counter s c : Z) :
  leading_zeros rest start counter = Returns (s, c) ->
  exists k : nat,
    s = start + Z.of_nat k + 1 /\ c = counter + Z.of_nat k
    /\ (forall j, (j < k)%nat -> rest !! j = Some 0)
    /\ (exists v, rest !! k = Some v /\ v <> 0).
Proof.
  revert start counter. induction rest as [|v rest IH]; intros start counter H.
  - discriminate.
  - cbn [leading_zeros] in H. destruct (Z.eqb_spec v 0) as [->|Hv].
    + apply IH in H as (k & -> & -> & Hz & Hs). exists (S k).
      split; [lia|]. split; [lia|]. split; [|exact Hs].
      intros [|j] Hj; [reflexivity|]. apply Hz. lia.
    + injection H as <- <-. exists 0%nat.
      split; [lia|]. split; [lia|]. split; [lia|]. exists v. auto.
Qed.

(** what the main pass knows at the top of iteration [i] *)
Definition pass_inv (orig : list Z) (i : Z) (s : pass) : Prop :=
  keeps orig (p_data s) /\ p_end s = 0
  /\ (p_start s = 0
      \/ (0 < p_start s /\ p_start s = i - 1
          /\ p_data s !! Z.to_nat (i - 1) = Some 0)).

Lemma pass_body_inv (orig : list Z) (i : Z) (s s' : pass) :
  0 <= i -> pass_inv orig i s -> pass_body i s = Returns s' ->
  pass_inv orig (i + 1) s'.
Proof.
  intros Hi (Hk & He & Hs) H. unfold pass_body in H.
  apply bind_returns in H as (di & Hdi & H). apply rd_returns in Hdi as [_ Hdi].
  rewrite He in H.
  destruct (Z.eqb_spec di 0) as [->|Hdi0]; cbn [negb andb] in H.
  - rewrite andb_false_r in H. cbn [negb andb] in H.
    rewrite andb_false_r in H. injection H as <-.
    split; [exact Hk|]. split; [reflexivity|]. cbn [p_start p_data].
    destruct (Z.eq_dec i 0) as [->|]; [left; reflexivity|].
    right. replace (i + 1 - 1) with i by lia. auto with zarith.
  - rewrite andb_true_r in H.
    destruct Hs as [Hs|(Hpos & Hs & Hz)].
    + rewrite Hs in H. cbn [Z.eqb negb andb] in H. injection H as <-.
      split; [exact Hk|]. split; [reflexivity|]. left. reflexivity.
    + destruct (Z.eqb_spec (p_start s) 0) as [?|_]; [lia|]. cbn [negb andb] in H.
      destruct (Z.eqb_spec i 0) as [?|_]; [lia|]. cbn [negb] in H.
      apply bind_returns in H as (de & _ & H).
      apply bind_returns in H as (dp & _ & H).
      apply bind_returns in H as (data' & Hint & H). injection H as <-.
      replace (Z.to_nat (i - p_start s)) with 1%nat in Hint by lia.
      cbn [interpolate] in Hint.
      apply bind_returns in Hint as (prev & _ & Hint).
      apply bind_returns in Hint as (v & _ & Hint).
      apply bind_returns in Hint as (data'' & Hw & Hint). injection Hint as <-.
      split; [|split; [reflexivity | left; reflexivity]]. cbn [p_data].
      apply (keeps_wr orig (p_data s) data'' (p_start s) v Hk); [|exact Hw].
      rewrite Hs. exact Hz.
Qed.

Lemma pass_loop_inv (orig : list Z) (n : nat) (i : Z) (s s' : pass) :
  0 <= i -> pass_inv orig i s -> pass_loop n i s = Returns s' ->
  pass_inv orig (i + Z.of_nat n) s'.
Proof.
  revert i s. induction n as [|n IH]; intros i s Hi Hinv H.
  - injection H as <-. replace (i + Z.of_nat 0) with i by lia. exact Hinv.
  - cbn [pass_loop] in H. apply bind_returns in H as (s1 & Hb & H).
    replace (i + Z.of_nat (S n)) with (i + 1 + Z.of_nat n) by lia.
    apply (IH (i + 1) s1); [lia | | exact H].
    apply (pass_body_inv orig i s s1 Hi Hinv Hb).
Qed.

(** The half of C1 that holds: whenever [fill_missing_data] returns, every
    entry that was not zero is still there with its value. *)
Lemma fill_missing_data_keeps_samples (data out : list Z) (size : Z) :
  fill_missing_data data size = Returns out -> keeps data out.
Proof.
  unfold fill_missing_data. intros H.
  apply bind_returns in H as ([start counter] & Hlead & H).
  apply leading_zeros_returns in Hlead as (k & -> & -> & Hz & _).
  destruct (0 + Z.of_nat k + 1 + 2 >? size); [discriminate|].
  apply bind_returns in H as (data1 & Hhead & H).
  apply bind_returns in H as (s & Hpass & H).
  assert (Hk1 : keeps data data1).
  { refine (fill_head_keeps data _ 0 _ data data1 _ (keeps_refl data) _ Hhead);
      [lia|].
    intros j Hj. apply Hz. lia. }
  apply (pass_loop_inv data) in Hpass; [|lia|].
  2:{ split; [exact Hk1|]. split; [reflexivity | left; reflexivity]. }
  destruct Hpass as (Hk & He & Hs).
  destruct Hs as [Hs|(Hpos & Hs & Hzero)].
  - rewrite Hs in H. cbn [Z.eqb negb andb] in H. injection H as <-. exact Hk.
  - rewrite He in H. destruct (Z.eqb_spec (p_start s) 0) as [?|_]; [lia|].
    cbn [Z.eqb negb andb] in H.
    assert (Hsize : 0 + Z.of_nat (Z.to_nat size) = size) by lia.
    rewrite Hsize in Hs, Hzero.
    replace (Z.to_nat (size - p_start s)) with 1%nat in H by lia.
    cbn [fill_tail] in H. apply bind_returns in H as (v & _ & H).
    apply bind_returns in H as (data' & Hw & H). injection H as <-.
    apply (keeps_wr data (p_data s) data' (p_start s) v Hk); [|exact Hw].
    rewrite Hs. exact Hzero.
Qed.

(** A table with a gap of two: samples at 0 and from 3 on. *)
Definition gap_of_two : list Z := [5; 0; 0; 5] ++ replicate 252 5.

(** A table whose only sample is in the last slot. *)
Definition late_sample : list Z := replicate 255 0 ++ [7].

(** C1 (code defect).  The claim: on a table with a non-zero entry,
    [fill_missing_data] returns a table without zero entries in
    [0, size).  The code, on a well-formed table with samples around a gap
    of two slots, returns with slot 1 still zero: [start] is overwritten at
    every zero, so only the last slot of a gap is interpolated.  On a
    table whose only sample is in the last slot it throws instead of
    returning. *)
Theorem fill_missing_data_leaves_zero_in_gap :
  well_formed gap_of_two /\ gap_of_two !! 0%nat = Some 5 /\
  (exists out, fill_missing_data gap_of_two 256 = Returns out /\
               out !! 1%nat = Some 0 /\ zero_slots out 256 = [1%nat]) /\
  well_formed late_sample /\ late_sample !! 255%nat = Some 7 /\
  fill_missing_data late_sample 256 = Throws no_data_message.
Proof.
  assert (Hwf : forall l, length l = 256%nat ->
                          forallb (fun v => (0 <=? v) && (v <=? 65535)) l = true ->
                          well_formed l).
  { intros l Hlen Hall. split.
    - rewrite Hlen. reflexivity.
    - apply Forall_forall. intros v Hv.
      rewrite forallb_forall in Hall.
      specialize (Hall v (proj1 (list_elem_of_In _ _) Hv)). lia. }
  split; [apply Hwf; reflexivity|].
  split; [reflexivity|].
  split.
  { eexists. split; [vm_compute; reflexivity|]. split; reflexivity. }
  split; [apply Hwf; reflexivity|].
  split; [reflexivity|].
  vm_compute. reflexivity.
Qed.

(** C2 (code defect).  The claim: on an all-zero table the call throws and
    stays within the array.  The code scans for the first sample without a
    bound, so on a full-size all-zero table it reads [data[256]], one past
    the end, before the size test is reached -- whatever [size] is. *)
Theorem fill_missing_data_all_zero_reads_past_end (data : list Z) (size : Z) :
  well_formed data ->
  Forall (fun v => v = 0) data ->
  fill_missing_data data size = Undefined (OutOfBounds 256).
Proof.
  intros [Hlen _] Hz. unfold fill_missing_data.
  rewrite (leading_zeros_all_zero data 0 0 Hz). simpl.
  unfold capacity in Hlen. rewrite Hlen. reflexivity.
Qed.

Lemma fill_missing_data_all_zero_witness :
  fill_missing_data (replicate 256 0) 256 = Undefined (OutOfBounds 256).
Proof.
  apply (fill_missing_data_all_zero_reads_past_end (replicate 256 0) 256).
  - split; [reflexivity|]. apply Forall_forall. intros v Hv.
    apply elem_of_replicate in Hv as [-> _]. lia.
  - apply Forall_forall. intros v Hv.
    apply elem_of_replicate in Hv as [-> _]. reflexivity.
Defined.

End FillFactorFacts.

(** ** Health scores *)

Section HealthFacts.
Import Health.

(** a mask with the single bit [n] tests that bit *)
Lemma land_pow2_eqb_0 (a n : Z) :
  0 <= n -> (Z.land a (2 ^ n) =? 0) = negb (Z.testbit a n).
Proof.
  intros Hn. destruct (Z.testbit a n) eqn:Hbit; simpl.
  - apply Z.eqb_neq. intros H0.
    assert (Hb : Z.testbit (Z.land a (2 ^ n)) n = true).
    { rewrite Z.land_spec, Hbit, Z.pow2_bits_true by lia. reflexivity. }
    rewrite H0, Z.bits_0 in Hb. discriminate.
  - apply Z.eqb_eq. apply Z.bits_inj'. intros k Hk.
    rewrite Z.land_spec, Z.bits_0, Z.pow2_bits_eqb by lia.
    destruct (Z.eqb_spec n k) as [->|_].
    + rewrite Hbit. reflexivity.
    + apply andb_false_r.
Qed.

Lemma sign_field (h k : Z) :
  0 <= k < 4 ->
  (Z.land (Z.shiftr (Z.land h 0x0F000000) 24) (2 ^ k) =? 0)
  = negb (Z.testbit h (24 + k)).
Proof.
  intros Hk. rewrite land_pow2_eqb_0 by lia. f_equal.
  rewrite Z.shiftr_spec, Z.land_spec by lia.
  replace (k + 24) with (24 + k) by lia.
  assert (Hmask : Z.testbit 0x0F000000 (24 + k) = true).
  { assert (k = 0 \/ k = 1 \/ k = 2 \/ k = 3) as [->|[->|[->| ->]]] by lia;
      reflexivity. }
  rewrite Hmask. apply andb_true_r.
Qed.

Lemma magnitude_field (h : Z) :
  Z.shiftr (Z.land h 0x00FFF000) 12 = Z.land (Z.shiftr h 12) 0xFFF.
Proof. rewrite Z.shiftr_land. reflexivity. Qed.

(** C9.  For every return code [h], the two scores the code derives are the
    specification's: [(h & 0xFFF) / 1000] negated when bit 24 is set, and
    [((h >> 12) & 0xFFF) / 1000] negated when bit 25 is set (the division
    is the [float] one, by [1000.0f]). *)
Theorem decode_ob_health_spec (h : Z) :
  decode_ob_health h = (spec_health_1 h, spec_health_2 h).
Proof.
  unfold decode_ob_health, spec_health_1, spec_health_2, signed_score.
  rewrite magnitude_field.
  pose proof (sign_field h 0 ltac:(lia)) as H1.
  pose proof (sign_field h 1 ltac:(lia)) as H2.
  change (2 ^ 0) with 1 in H1. change (2 ^ 1) with 2 in H2.
  change (24 + 0) with 24 in H1. change (24 + 1) with 25 in H2.
  rewrite H1, H2, !negb_involutive. reflexivity.
Qed.

End HealthFacts.

(** ** apply_calib *)

Section ApplyCalibFacts.
Import ApplyCalib.

(** C10.  [apply_calib] hands the selected table to the device exactly when
    it is not empty: with an empty table the device is left as it was, and
    otherwise the one call made is [set_calibration_table] with the
    selected table. *)
Theorem apply_calib_only_nonempty (use_new : bool) (m : tables) (d : calib_device) :
  (selected use_new m = [] -> apply_calib use_new m d = d) /\
  (selected use_new m <> [] ->
   tables_set (apply_calib use_new m d) = tables_set d ++ [selected use_new m]).
Proof.
  unfold apply_calib, selected, size.
  destruct (if use_new then _new_calib m else _old_calib m) as [|b t] eqn:Hsel.
  - split; [reflexivity | congruence].
  - split; [discriminate | reflexivity].
Qed.

Lemma apply_calib_only_nonempty_witness :
  apply_calib true {| _new_calib := []; _old_calib := [1; 2] |} {| tables_set := [] |}
  = {| tables_set := [] |} /\
  tables_set (apply_calib false {| _new_calib := []; _old_calib := [1; 2] |}
                {| tables_set := [] |}) = [[1; 2]].
Proof.
  split.
  - apply (apply_calib_only_nonempty true _ _). reflexivity.
  - apply (apply_calib_only_nonempty false
             {| _new_calib := []; _old_calib := [1; 2] |} {| tables_set := [] |}).
    discriminate.
Defined.

End ApplyCalibFacts.

(** ** Stream negotiation *)

Section StreamConfigFacts.
Import StreamConfig.

Variable supported : Z -> Z -> bool.

Lemma res_eqb_true (w h : Z) (kvp : Z * Z) :
  res_eqb w h kvp = true <-> kvp = (w, h).
Proof.
  destruct kvp as [a b]. unfold res_eqb. simpl.
  rewrite andb_true_iff, !Z.eqb_eq. split.
  - intros [-> ->]. reflexivity.
  - intros [= -> ->]. split; reflexivity.
Qed.

Lemma select_matching_none {A} (p : A -> bool) (v : list A) (i sel : Z) :
  (forall x, x ∈ v -> p x = false) -> select_matching p v i sel = sel.
Proof.
  revert i sel. induction v as [|x v IH]; intros i sel Hp; simpl.
  - reflexivity.
  - rewrite (Hp x) by apply list_elem_of_here.
    apply IH. intros y Hy. apply Hp. apply list_elem_of_further, Hy.
Qed.

Lemma select_matching_last {A} (p : A -> bool) (v : list A) (i sel : Z)
      (j : nat) (x : A) :
  v !! j = Some x -> p x = true ->
  (forall k y, (j < k)%nat -> v !! k = Some y -> p y = false) ->
  select_matching p v i sel = i + Z.of_nat j.
Proof.
  revert i sel j. induction v as [|y v IH]; intros i sel j Hj Hx Hlast.
  - discriminate.
  - destruct j as [|j]; simpl in *.
    + injection Hj as ->. rewrite Hx.
      rewrite select_matching_none; [lia|].
      intros z Hz. apply list_elem_of_lookup in Hz as [k Hk].
      apply (Hlast (S k) z); [lia | exact Hk].
    + rewrite (IH (i + 1) _ j Hj Hx); [lia|].
      intros k z Hk Hz. apply (Hlast (S k) z); [lia | exact Hz].
Qed.

Lemma sweep_fps_res (n : nat) (i : Z) (s : subdevice) :
  selected_res_id (sweep_fps supported n i s) = selected_res_id s
  /\ res_values (sweep_fps supported n i s) = res_values s.
Proof.
  revert i s. induction n as [|n IH]; intros i s; simpl.
  - split; reflexivity.
  - destruct (is_selected_combination_supported supported (set_fps_id i s)).
    + split; reflexivity.
    + destruct (IH (i + 1) (set_fps_id i s)) as [-> ->]. split; reflexivity.
Qed.

(** the sweep stops at the first supported entry, and ends on the last
    entry when there is none *)
Lemma sweep_fps_find (n : nat) (i : Z) (s : subdevice) :
  selected_shared_fps_id (sweep_fps supported n i s)
  = match find (supported (selected_res_id s))
               ((fun k => i + Z.of_nat k) <$> seq 0 n) with
    | Some j => j
    | None => match n with
              | O => selected_shared_fps_id s
              | S n' => i + Z.of_nat n'
              end
    end.
Proof.
  revert i s. induction n as [|n IH]; intros i s.
  - reflexivity.
  - cbn [sweep_fps seq fmap list_fmap find].
    unfold is_selected_combination_supported at 1. cbn [set_fps_id selected_res_id
      selected_shared_fps_id].
    replace (i + Z.of_nat 0) with i by lia.
    destruct (supported (selected_res_id s) i) eqn:Hsup.
    + reflexivity.
    + rewrite IH. cbn [set_fps_id selected_res_id selected_shared_fps_id].
      rewrite <- seq_shift, <- list_fmap_compose.
      assert (Hext : ((fun k => i + Z.of_nat k) ∘ S <$> seq 0 n)
                     = ((fun k => i + 1 + Z.of_nat k) <$> seq 0 n)).
      { apply list_fmap_ext. intros _ k _. simpl. lia. }
      rewrite Hext.
      destruct (find _ _); [reflexivity|].
      destruct n; simpl; lia.
Qed.

(** C8.  When the requested combination is not supported, the frame-rate
    entries are tried in order at the resolution selected for the request,
    and the first supported one is kept.  When none is supported at that
    resolution, the 640x480 resolution entry is selected (the resolution
    stays as it is when the sensor lists no such entry). *)
Theorem select_stream_fallback (w h fps : Z) (s : subdevice) :
  let r := requested w h fps s in
  let out := select_stream supported w h fps s in
  is_selected_combination_supported supported r = false ->
  (forall i, first_supported_fps supported (selected_res_id r) s = Some i ->
             selected_shared_fps_id out = i
             /\ selected_res_id out = selected_res_id r
             /\ is_selected_combination_supported supported out = true)
  /\ (first_supported_fps supported (selected_res_id r) s = None ->
      (forall j, selects (res_values s) 640 480 j ->
                 selected_res_id out = Z.of_nat j)
      /\ ((forall j, res_values s !! j <> Some (640, 480)) ->
          selected_res_id out = selected_res_id r)).
Proof.
  intros r out Hunsup. subst out. unfold select_stream. fold r.
  rewrite Hunsup. cbn [negb].
  assert (Hlen : length (shared_fps_values r) = length (shared_fps_values s))
    by reflexivity.
  assert (Hres : res_values r = res_values s) by reflexivity.
  set (sw := sweep_fps supported (length (shared_fps_values r)) 0 r).
  destruct (sweep_fps_res (length (shared_fps_values r)) 0 r) as [Hsr Hsv].
  fold sw in Hsr, Hsv.
  pose proof (sweep_fps_find (length (shared_fps_values r)) 0 r) as Hfind.
  fold sw in Hfind.
  assert (Hids : ((fun k => 0 + Z.of_nat k) <$> seq 0 (length (shared_fps_values r)))
                 = fps_ids s).
  { unfold fps_ids. rewrite Hlen. apply list_fmap_ext. intros _ k _. lia. }
  rewrite Hids in Hfind.
  unfold first_supported_fps. split.
  - intros i Hi. rewrite Hi in Hfind.
    assert (Hsup : is_selected_combination_supported supported sw = true).
    { unfold is_selected_combination_supported. rewrite Hsr, Hfind.
      apply find_some in Hi. apply Hi. }
    rewrite Hsup. cbn [negb]. auto.
  - intros Hnone. rewrite Hnone in Hfind.
    assert (Hsup : is_selected_combination_supported supported sw = false).
    { unfold is_selected_combination_supported. rewrite Hsr.
      destruct (length (shared_fps_values r)) as [|n] eqn:Hn.
      - rewrite Hfind. exact Hunsup.
      - rewrite Hfind.
        apply (find_none _ _ Hnone). unfold fps_ids. rewrite <- Hlen.
        apply in_map_iff. exists n. split; [lia|]. apply in_seq. lia. }
    rewrite Hsup. cbn [negb set_res_id selected_res_id]. rewrite Hsv, Hres, Hsr.
    split.
    + intros j [Hj Hlast].
      rewrite (select_matching_last _ _ 0 _ j (640, 480) Hj); [lia| |].
      * apply res_eqb_true. reflexivity.
      * intros k y Hk Hy. destruct (res_eqb 640 480 y) eqn:Hy'; [|reflexivity].
        apply res_eqb_true in Hy'. subst y. destruct (Hlast k Hk Hy).
    + intros Hno. apply select_matching_none.
      intros y Hy. destruct (res_eqb 640 480 y) eqn:Hy'; [|reflexivity].
      apply res_eqb_true in Hy'. subst y.
      apply list_elem_of_lookup in Hy as [j Hj]. destruct (Hno j Hj).
Qed.

End StreamConfigFacts.

Lemma select_stream_fallback_witness :
  let only_vga30 := fun res fps : Z => (res =? 0) && (fps =? 1) in
  let s := {| StreamConfig.shared_fps_values := [6; 30];
              StreamConfig.res_values := [(640, 480); (1280, 720)];
              StreamConfig.selected_shared_fps_id := 0;
              StreamConfig.selected_res_id := 1 |} in
  StreamConfig.selected_shared_fps_id (StreamConfig.select_stream only_vga30 640 480 6 s) = 1
  /\ StreamConfig.selected_res_id (StreamConfig.select_stream only_vga30 1280 720 6 s) = 0.
Proof.
  intros only_vga30 s. split.
  - apply (proj1 (select_stream_fallback only_vga30 640 480 6 s eq_refl) 1 eq_refl).
  - apply (proj1 (proj2 (select_stream_fallback only_vga30 1280 720 6 s eq_refl) eq_refl)
             0%nat).
    split; [reflexivity|].
    intros k Hk. destruct k as [|[|k]]; [lia | discriminate | discriminate].
Defined.

(** ** Floating-point comparisons *)

Lemma SFcompare_antisym (x y : spec_float) :
  SFcompare y x = CompOpp <$> SFcompare x y.
Proof.
  destruct x as [sx|sx| |sx mx ex], y as [sy|sy| |sy my ey];
    try destruct sx; try destruct sy; try reflexivity; simpl;
    rewrite (Z.compare_antisym ex ey);
    destruct (ex ?= ey); simpl; try reflexivity;
    rewrite (Pos.compare_cont_antisym mx my Eq); reflexivity.
Qed.

Lemma leb_not_gtb (x y : Flt.float) : Flt.leb x y = true -> Flt.gtb x y = false.
Proof.
  unfold Flt.leb, Flt.gtb, SFleb, SFltb. rewrite (SFcompare_antisym x y).
  destruct (SFcompare x y) as [[| |]|]; simpl; congruence.
Qed.

(** ** The UV-mapping solver *)

Lemma for_loop_returns {S} (n : nat) (first : Z) (body : Z -> S -> outcome S) (s : S) :
  (forall i s, first <= i < first + Z.of_nat n -> exists s', body i s = Returns s') ->
  exists s', for_loop n first body s = Returns s'.
Proof.
  revert first s. induction n as [|n IH]; intros first s Hbody; simpl.
  - eexists. reflexivity.
  - destruct (Hbody first s ltac:(lia)) as [s1 ->]. simpl.
    apply IH. intros i s2 Hi. apply Hbody. lia.
Qed.

Section UVMappingFacts.
Import UVMapping.

Variable rs2_deproject_pixel_to_point :
  rs2_intrinsics -> Flt.float * Flt.float -> Flt.float -> point3.
Variable rs2_transform_point_to_point : rs2_extrinsics -> point3 -> point3.
Variable _max_change : Flt.float.

#[local] Abbreviation calibrate :=
  (calibrate rs2_deproject_pixel_to_point rs2_transform_point_to_point _max_change).
#[local] Abbreviation moments :=
  (moments rs2_deproject_pixel_to_point rs2_transform_point_to_point).
#[local] Abbreviation differs_lt := (differs_by_less_than_max_change _max_change).

Lemma at_in_range (v : list Flt.float) (i : Z) :
  0 <= i -> (Z.to_nat i < length v)%nat -> exists x, at_ v i = Returns x.
Proof.
  intros Hi Hlen. unfold at_.
  destruct (Z.ltb_spec i 0) as [?|_]; [lia|].
  destruct (lookup_lt_is_Some_2 v (Z.to_nat i) Hlen) as [x ->].
  eexists. reflexivity.
Qed.

Ltac read_at v i :=
  let x := fresh "x" in
  let H := fresh "H" in
  destruct (at_in_range v i) as [x H]; [lia | lia | rewrite H; clear H; simpl].

Lemma moments_returns (c : uvmapping_calib) :
  four_points c -> asserted_model c ->
  exists pts eb s, moments c = Returns (pts, eb, s).
Proof.
  intros (Hlx & Hly & Hlz & Hcx & Hcy) Hmodel. unfold UVMapping.moments.
  destruct (for_loop_returns 4 0
              (project rs2_deproject_pixel_to_point rs2_transform_point_to_point c) [])
    as [pts Hpts].
  { intros i acc Hi. unfold project.
    read_at (_left_x c) i. read_at (_left_y c) i. read_at (_left_z c) i.
    destruct (rs2_transform_point_to_point _ _) as [[pc0 pc1] pc2].
    unfold asserted_model in Hmodel. rewrite Hmodel. simpl.
    eexists. reflexivity. }
  rewrite Hpts. cbn [mbind outcome_bind Outcome.bind].
  destruct (for_loop_returns 4 0 (point_error c pts) []) as [diff Hdiff].
  { intros i acc Hi. unfold point_error.
    read_at (_color_x c) i. read_at (_color_y c) i. eexists. reflexivity. }
  rewrite Hdiff. cbn [mbind outcome_bind Outcome.bind].
  destruct (for_loop_returns 4 0 (accumulate c pts) no_sums) as [s Hs].
  { intros i acc Hi. unfold accumulate.
    read_at (_color_x c) i. read_at (_color_y c) i. eexists. reflexivity. }
  rewrite Hs. cbn [mbind outcome_bind Outcome.bind]. eexists _, _, _. reflexivity.
Qed.

Lemma residuals_return (c : uvmapping_calib) (pts : list projected) (p : params) :
  four_points c ->
  exists e, for_loop 4 0 (residual c pts p) zero = Returns e.
Proof.
  intros (Hlx & Hly & Hlz & Hcx & Hcy).
  apply for_loop_returns. intros i acc Hi. unfold residual.
  read_at (_color_x c) i. read_at (_color_y c) i. eexists. reflexivity.
Qed.

(** the shape of a call's result on the inputs it is written for *)
Lemma calibrate_returns (c : uvmapping_calib) (prior : params) :
  four_points c -> asserted_model c ->
  exists pts eb s ea,
    moments c = Returns (pts, eb, s) /\
    let p := fst (solve_y s (fst (solve_x s prior [])) (snd (solve_x s prior []))) in
    let log := snd (solve_y s (fst (solve_x s prior [])) (snd (solve_x s prior []))) in
    for_loop 4 0 (residual c pts p) zero = Returns ea /\
    calibrate c prior
    = Returns {| accepted :=
                   within_max_change _max_change (ppx (_color_intrin c)) (p_ppx p)
                   && within_max_change _max_change (ppy (_color_intrin c)) (p_ppy p)
                   && within_max_change _max_change (fx (_color_intrin c)) (p_fx p)
                   && within_max_change _max_change (fy (_color_intrin c)) (p_fy p);
                 err_before := eb;
                 err_after := Flt.div32 ea (Flt.of_Z32 4);
                 fitted := p;
                 reciprocals := log |}.
Proof.
  intros H4 Hmodel.
  destruct (moments_returns c H4 Hmodel) as (pts & eb & s & Hm).
  exists pts, eb, s.
  unfold UVMapping.calibrate. rewrite Hm. cbn [mbind outcome_bind Outcome.bind].
  destruct (solve_x s prior []) as [p1 log1]. cbn [fst snd].
  destruct (solve_y s p1 log1) as [p2 log2]. cbn [fst snd].
  destruct (residuals_return c pts p2 H4) as [ea Hea].
  exists ea. split; [reflexivity|]. split; [exact Hea|].
  rewrite Hea. reflexivity.
Qed.

(** C4.  On four correspondence points (and the colour model the function
    asserts), [calibrate] returns, and it returns [true] exactly when each
    of the fitted [ppx], [ppy], [fx], [fy] differs from the colour
    intrinsics' value by strictly less than [_max_change]; the statement
    does not mention the two errors. *)
Theorem calibrate_accepts_iff_small_change (c : uvmapping_calib) (prior : params) :
  four_points c -> asserted_model c ->
  exists r,
    calibrate c prior = Returns r /\
    (accepted r = true <->
     differs_lt (ppx (_color_intrin c)) (p_ppx (fitted r)) /\
     differs_lt (ppy (_color_intrin c)) (p_ppy (fitted r)) /\
     differs_lt (fx (_color_intrin c)) (p_fx (fitted r)) /\
     differs_lt (fy (_color_intrin c)) (p_fy (fitted r))).
Proof.
  intros H4 Hmodel.
  destruct (calibrate_returns c prior H4 Hmodel) as (pts & eb & s & ea & _ & _ & Hc).
  eexists. split; [exact Hc|]. simpl.
  unfold differs_by_less_than_max_change, within_max_change.
  rewrite !andb_true_iff. tauto.
Qed.

Lemma solve_x_skipped (s : sums) (p : params) (log : list axis) :
  Flt.leb (d_x s) (Flt.lit64 1 2) = true -> solve_x s p log = (p, log).
Proof. intros H. unfold solve_x. rewrite (leb_not_gtb _ _ H). reflexivity. Qed.

Lemma solve_y_skipped (s : sums) (p : params) (log : list axis) :
  Flt.leb (d_y s) (Flt.lit64 1 2) = true -> solve_y s p log = (p, log).
Proof. intros H. unfold solve_y. rewrite (leb_not_gtb _ _ H). reflexivity. Qed.

(** neither solve touches the other axis, whatever it is handed *)
Lemma solve_x_frame (s : sums) (p : params) (log : list axis) :
  p_fy (fst (solve_x s p log)) = p_fy p /\ p_ppy (fst (solve_x s p log)) = p_ppy p
  /\ (AxisY ∈ snd (solve_x s p log) <-> AxisY ∈ log).
Proof.
  unfold solve_x. destruct (Flt.gtb _ _); simpl; [|tauto].
  split; [reflexivity|]. split; [reflexivity|].
  rewrite elem_of_app, list_elem_of_singleton. split; [|tauto].
  intros [H|H]; [exact H | discriminate].
Qed.

Lemma solve_y_frame (s : sums) (p : params) (log : list axis) :
  p_fx (fst (solve_y s p log)) = p_fx p /\ p_ppx (fst (solve_y s p log)) = p_ppx p
  /\ (AxisX ∈ snd (solve_y s p log) <-> AxisX ∈ log).
Proof.
  unfold solve_y. destruct (Flt.gtb _ _); simpl; [|tauto].
  split; [reflexivity|]. split; [reflexivity|].
  rewrite elem_of_app, list_elem_of_singleton. split; [|tauto].
  intros [H|H]; [exact H | discriminate].
Qed.

(** the y solve gives the same y parameters whatever the x solve did *)
Lemma solve_y_independent (s : sums) (p q : params) (log log' : list axis) :
  p_fy p = p_fy q -> p_ppy p = p_ppy q ->
  p_fy (fst (solve_y s p log)) = p_fy (fst (solve_y s q log'))
  /\ p_ppy (fst (solve_y s p log)) = p_ppy (fst (solve_y s q log')).
Proof.
  intros Hfy Hppy. unfold solve_y. destruct (Flt.gtb _ _); simpl; auto.
Qed.

(** C5.  Per axis: when the denominator [4 * sum(x^2) - (sum x)^2] of an
    axis is at most 0.01, the call still returns with both errors computed,
    that axis keeps the caller's scale and offset, the reciprocal of that
    denominator is not taken, and the other axis comes out as its own solve
    gives it. *)
Theorem calibrate_skips_degenerate_axis (c : uvmapping_calib) (prior : params) :
  four_points c -> asserted_model c ->
  exists pts eb s r,
    moments c = Returns (pts, eb, s) /\
    calibrate c prior = Returns r /\
    err_before r = eb /\
    (exists ea, for_loop 4 0 (residual c pts (fitted r)) zero = Returns ea
                /\ err_after r = Flt.div32 ea (Flt.of_Z32 4)) /\
    (Flt.leb (d_x s) (Flt.lit64 1 2) = true ->
       p_fx (fitted r) = p_fx prior /\ p_ppx (fitted r) = p_ppx prior
       /\ (AxisX ∉ reciprocals r)
       /\ p_fy (fitted r) = p_fy (fst (solve_y s prior []))
       /\ p_ppy (fitted r) = p_ppy (fst (solve_y s prior []))) /\
    (Flt.leb (d_y s) (Flt.lit64 1 2) = true ->
       p_fy (fitted r) = p_fy prior /\ p_ppy (fitted r) = p_ppy prior
       /\ (AxisY ∉ reciprocals r)
       /\ p_fx (fitted r) = p_fx (fst (solve_x s prior []))
       /\ p_ppx (fitted r) = p_ppx (fst (solve_x s prior []))).
Proof.
  intros H4 Hmodel.
  destruct (calibrate_returns c prior H4 Hmodel) as (pts & eb & s & ea & Hm & Hea & Hc).
  exists pts, eb, s. eexists. split; [exact Hm|]. split; [exact Hc|].
  cbn [err_before err_after fitted reciprocals].
  split; [reflexivity|]. split; [exists ea; split; [exact Hea | reflexivity]|].
  split.
  - intros Hdx. rewrite (solve_x_skipped s prior [] Hdx). cbn [fst snd].
    destruct (solve_y_frame s prior []) as (Hfx & Hppx & Hlog).
    rewrite Hfx, Hppx, Hlog. repeat split; try reflexivity.
    apply not_elem_of_nil.
  - intros Hdy. rewrite solve_y_skipped by exact Hdy. cbn [fst snd].
    destruct (solve_x_frame s prior []) as (Hfy & Hppy & Hlog).
    rewrite Hfy, Hppy, Hlog. repeat split; try reflexivity.
    apply not_elem_of_nil.
Qed.

End UVMappingFacts.

(** A concrete run: a pinhole left camera looking along the colour camera's
    axis, four points with the same x. *)
Module UVMappingExample.
Import UVMapping.

Definition f (n : Z) : Flt.float := Flt.of_Z32 n.

Definition pinhole (i : rs2_intrinsics) (pixel : Flt.float * Flt.float)
    (depth : Flt.float) : point3 :=
  (Flt.mul32 depth (fst pixel), Flt.mul32 depth (snd pixel), depth).

Definition same_frame (e : rs2_extrinsics) (p : point3) : point3 := p.

Definition color : rs2_intrinsics :=
  {| width := 1280; height := 720; ppx := f 9; ppy := f 5; fx := f 1; fy := f 2;
     model := RS2_DISTORTION_INVERSE_BROWN_CONRADY; coeffs := [] |}.

Definition four : uvmapping_calib :=
  {| _pt_num := 4;
     _left_x := [f 1; f 1; f 1; f 1]; _left_y := [f 0; f 1; f 0; f 1];
     _left_z := [f 1; f 1; f 1; f 1];
     _color_x := [f 10; f 10; f 10; f 10]; _color_y := [f 5; f 7; f 5; f 7];
     _left_intrin := color; _color_intrin := color;
     _extrin := {| rotation := []; translation := [] |} |}.

Definition prior : params :=
  {| p_ppx := f 9; p_ppy := f 0; p_fx := f 1; p_fy := f 0 |}.

Lemma four_has_four_points : four_points four.
Proof. unfold four_points. simpl. lia. Defined.

End UVMappingExample.

Lemma calibrate_accepts_iff_small_change_witness :
  exists r,
    UVMapping.calibrate UVMappingExample.pinhole UVMappingExample.same_frame
      (Flt.of_Z32 1000) UVMappingExample.four UVMappingExample.prior = Returns r
    /\ UVMapping.accepted r = true.
Proof.
  destruct (calibrate_accepts_iff_small_change
              UVMappingExample.pinhole UVMappingExample.same_frame (Flt.of_Z32 1000)
              UVMappingExample.four UVMappingExample.prior
              UVMappingExample.four_has_four_points eq_refl) as (r & Hr & Hiff).
  exists r. split; [exact Hr|].
  vm_compute in Hr. injection Hr as <-. reflexivity.
Defined.

Lemma calibrate_skips_degenerate_axis_witness :
  exists r,
    UVMapping.calibrate UVMappingExample.pinhole UVMappingExample.same_frame
      (Flt.of_Z32 1000) UVMappingExample.four UVMappingExample.prior = Returns r
    /\ UVMapping.p_fx (UVMapping.fitted r) = Flt.of_Z32 1
    /\ UVMapping.p_ppx (UVMapping.fitted r) = Flt.of_Z32 9
    /\ UVMapping.p_fy (UVMapping.fitted r) = Flt.of_Z32 2
    /\ UVMapping.p_ppy (UVMapping.fitted r) = Flt.of_Z32 5.
Proof.
  destruct (calibrate_skips_degenerate_axis
              UVMappingExample.pinhole UVMappingExample.same_frame (Flt.of_Z32 1000)
              UVMappingExample.four UVMappingExample.prior
              UVMappingExample.four_has_four_points eq_refl)
    as (pts & eb & s & r & Hm & Hr & _ & _ & Hx & _).
  exists r. split; [exact Hr|].
  vm_compute in Hm. injection Hm as <- <- <-.
  destruct (Hx eq_refl) as (Hfx & Hppx & _ & Hfy & Hppy).
  rewrite Hfx, Hppx, Hfy, Hppy. repeat split; vm_compute; reflexivity.
Defined.

(** ** Depth metrics *)

Section DepthMetricsFacts.
Import DepthMetrics.

Lemma on_frame_acc (f : frame_sample) (a b : list Flt.float) :
  on_frame f a b = (a ++ fst (on_frame f [] []), b ++ snd (on_frame f [] [])).
Proof.
  destruct f as [|fill [rms|]]; simpl; rewrite ?app_nil_r; reflexivity.
Qed.

Lemma collect_acc (fs : list frame_sample) (a b : list Flt.float) :
  collect fs (a, b) = (a ++ fills_of fs, b ++ rmses_of fs).
Proof.
  revert a b. induction fs as [|f fs IH]; intros a b.
  - unfold fills_of, rmses_of. simpl. rewrite !app_nil_r. reflexivity.
  - unfold fills_of, rmses_of, collect. cbn [fold_left fst snd].
    fold (collect fs (on_frame f a b)). fold (collect fs (on_frame f [] [])).
    rewrite (on_frame_acc f a b).
    destruct (on_frame f [] []) as [fa fb]. cbn [fst snd].
    rewrite !IH. cbn [fst snd app]. rewrite <- !app_assoc. reflexivity.
Qed.

Lemma collect_app (fs gs : list frame_sample) :
  fills_of (fs ++ gs) = fills_of fs ++ fills_of gs
  /\ rmses_of (fs ++ gs) = rmses_of fs ++ rmses_of gs.
Proof.
  unfold fills_of at 1, rmses_of at 1, collect. rewrite fold_left_app.
  fold (collect fs ([], [])). rewrite collect_acc. cbn [app].
  fold (collect gs (fills_of fs, rmses_of fs)). rewrite collect_acc.
  split; reflexivity.
Qed.

(** one bundle: [n] frames leave the stream and land in the vectors *)
Lemma bundle_spec (n : nat) (v v' : vectors) :
  bundle n v = Returns v' ->
  exists fs, length fs = n /\ stream v = fs ++ stream v'
             /\ fill_rates v' = fill_rates v ++ fills_of fs
             /\ rmses v' = rmses v ++ rmses_of fs.
Proof.
  revert v. induction n as [|n IH]; intros v H.
  - injection H as <-. exists []. rewrite !app_nil_r. auto.
  - cbn [bundle] in H. destruct (stream v) as [|f rest] eqn:Hs; [discriminate|].
    cbn in H. destruct (on_frame f (fill_rates v) (rmses v)) as [fr rm] eqn:Hf.
    apply IH in H as (fs & Hlen & Hstream & Hfr & Hrm). cbn in Hstream, Hfr, Hrm.
    exists (f :: fs). cbn [length]. rewrite Hlen, Hstream.
    split; [reflexivity|]. split; [reflexivity|].
    rewrite on_frame_acc in Hf. injection Hf as <- <-.
    destruct (collect_app [f] fs) as [Ha Hb]. cbn [app] in Ha, Hb.
    rewrite Ha, Hb, Hfr, Hrm, <- !app_assoc. split; reflexivity.
Qed.

Lemma bundle_returns (n : nat) (v : vectors) :
  (n <= length (stream v))%nat -> exists v', bundle n v = Returns v'.
Proof.
  revert v. induction n as [|n IH]; intros v Hlen.
  - eexists. reflexivity.
  - cbn [bundle]. destruct (stream v) as [|f rest] eqn:Hs; [simpl in Hlen; lia|].
    cbn. destruct (on_frame f (fill_rates v) (rmses v)) as [fr rm].
    apply IH. cbn. simpl in Hlen. lia.
Qed.

(** the loop: at least one bundle, each of 31 frames; every fill rate is
    kept, the RMS values are those of the last bundle *)
Lemma bundles_spec (retries : nat) (std : Flt.float) (v v' : vectors)
      (seen seen' : list (list frame_sample)) :
  bundles retries std v seen = Returns (v', seen') ->
  exists bs, seen' = seen ++ bs /\ bs <> [] /\ (length bs <= S retries)%nat
             /\ Forall (fun b => length b = 31%nat) bs
             /\ stream v = concat bs ++ stream v'
             /\ fill_rates v' = fill_rates v ++ fills_of (concat bs)
             /\ rmses v' = rmses_of (default [] (last bs)).
Proof.
  revert std v seen. induction retries as [|retries IH]; intros std v seen H;
    cbn [bundles] in H; apply bind_returns in H as (v1 & Hb & H);
    apply bundle_spec in Hb as (fs & Hlen & Hstream & Hfr & Hrm);
    cbn [stream fill_rates rmses] in Hstream, Hfr, Hrm;
    assert (Htake : take 31 (stream v) = fs)
      by (rewrite Hstream, <- Hlen; apply take_app_length);
    rewrite Htake in H.
  - assert (H' : v' = v1 /\ seen' = seen ++ [fs])
      by (destruct (not_decent _ _); injection H as <- <-; auto).
    destruct H' as [-> ->]. exists [fs]. cbn [concat last default length].
    rewrite app_nil_r. repeat split; auto.
  - destruct (not_decent (rms_of (rmses v1)) std).
    + apply IH in H as (bs & -> & Hne & Hn & Hall & Hs & Hf & Hr).
      exists (fs :: bs). rewrite <- app_assoc. cbn [app concat length].
      split; [reflexivity|]. split; [discriminate|]. split; [lia|].
      split; [constructor; auto|].
      rewrite Hstream, Hs, <- app_assoc. split; [reflexivity|].
      destruct (collect_app fs (concat bs)) as [-> _].
      rewrite Hf, Hfr, <- app_assoc. split; [reflexivity|].
      rewrite Hr. destruct bs as [|b bs]; [congruence | reflexivity].
    + injection H as <- <-. exists [fs]. cbn [concat last default length].
      rewrite app_nil_r. repeat split; auto; lia.
Qed.

Lemma bundles_returns (retries : nat) (std : Flt.float) (v : vectors)
      (seen : list (list frame_sample)) :
  (31 * S retries <= length (stream v))%nat ->
  exists r, bundles retries std v seen = Returns r.
Proof.
  revert std v seen. induction retries as [|retries IH]; intros std v seen Hlen;
    cbn [bundles];
    destruct (bundle_returns 31 {| stream := stream v; fill_rates := fill_rates v;
                                   rmses := [] |}) as [v1 Hb];
    try (cbn [stream]; lia); rewrite Hb; cbn [mbind outcome_bind Outcome.bind].
  - destruct (not_decent _ _); eexists; reflexivity.
  - destruct (not_decent _ _); [|eexists; reflexivity].
    apply IH. apply bundle_spec in Hb as (fs & Hl & Hs & _).
    cbn [stream] in Hs. rewrite Hs, length_app in Hlen. lia.
Qed.

Lemma traced_spec (frames : list frame_sample) (mf mr : Flt.float)
      (seen : list (list frame_sample)) :
  get_depth_metrics_traced frames = Returns (mf, mr, seen) ->
  seen <> [] /\ Forall (fun b => length b = 31%nat) seen
  /\ concat seen `prefix_of` drop 1 frames
  /\ (mf, mr) = median_all_fill_last_rms seen.
Proof.
  unfold get_depth_metrics_traced. intros H.
  apply bind_returns in H as ([f rest] & Hf & H).
  destruct frames as [|f0 frames]; [discriminate|]. injection Hf as -> ->.
  apply bind_returns in H as ([v seen0] & Hb & H). injection H as <- <- <-.
  apply bundles_spec in Hb as (bs & -> & Hne & _ & Hall & Hs & Hf & Hr).
  cbn [stream fill_rates app] in Hs, Hf. cbn [app drop].
  split; [exact Hne|]. split; [exact Hall|].
  split; [exists (stream v); exact Hs|].
  unfold median_all_fill_last_rms. rewrite Hf, Hr. reflexivity.
Qed.

(** The frames of the example: fill rate 80 %, RMS 2 %. *)
Definition steady : frame_sample := Sample (Flt.of_Z32 80) (Some (Flt.of_Z32 2)).

(** Two bundles: a noisy one (RMS 100 %), then a calmer one (RMS 90 %). *)
Definition settling : list frame_sample :=
  replicate 32 (Sample (Flt.of_Z32 80) (Some (Flt.of_Z32 100)))
  ++ replicate 31 (Sample (Flt.of_Z32 70) (Some (Flt.of_Z32 90))).

(** C7, as stated, fails: when a second bundle is sampled, the RMS returned
    is the middle element of the last bundle's values (90), not of the
    values of all 62 sampled frames (100). *)
Lemma get_depth_metrics_rms_not_over_all_frames :
  exists mf mr seen,
    get_depth_metrics_traced settling = Returns (mf, mr, seen)
    /\ get_depth_metrics settling = Returns (mf, mr)
    /\ length (concat seen) = 62%nat
    /\ mr = Flt.of_Z32 90
    /\ snd (median_over_all seen) = Flt.of_Z32 100
    /\ (mf, mr) <> median_over_all seen.
Proof.
  eexists _, _, _. split; [vm_compute; reflexivity|].
  split; [vm_compute; reflexivity|].
  split; [reflexivity|]. split; [reflexivity|].
  split; [vm_compute; reflexivity|].
  vm_compute. discriminate.
Qed.

(** C7, amended.  [get_depth_metrics] returns whenever the stream holds the
    frames it may ask for (one, and up to eleven bundles of 31).  What it
    returns is the middle element (index n/2) of the sorted fill rates of
    all sampled frames, and the middle element of the sorted RMS values of
    the last bundle only.  For 31 identical results with fill rate 80 % and
    RMS 2 % that is exactly (80.0, 2.0). *)
Theorem get_depth_metrics_medians :
  (forall frames,
      ((342 <= length frames)%nat -> returned (get_depth_metrics frames))
      /\ (forall mf mr,
            get_depth_metrics frames = Returns (mf, mr) ->
            exists seen,
              get_depth_metrics_traced frames = Returns (mf, mr, seen)
              /\ seen <> [] /\ Forall (fun b => length b = 31%nat) seen
              /\ concat seen `prefix_of` drop 1 frames
              /\ (mf, mr) = median_all_fill_last_rms seen))
  /\ get_depth_metrics (replicate 32 steady) = Returns (Flt.of_Z32 80, Flt.of_Z32 2).
Proof.
  split; [|vm_compute; reflexivity].
  intros frames. split.
  - intros Hlen. unfold get_depth_metrics, get_depth_metrics_traced.
    destruct frames as [|f frames]; [simpl in Hlen; lia|].
    cbn [fetch_depth_frame mbind outcome_bind Outcome.bind].
    destruct (bundles_returns 10 (Flt.of_Z32 1000)
                {| stream := frames; fill_rates := []; rmses := [] |} [])
      as [[v seen] Hb].
    { cbn [stream]. simpl in Hlen. lia. }
    rewrite Hb. exact I.
  - intros mf mr H. unfold get_depth_metrics in H.
    apply bind_returns in H as ([[mf' mr'] seen] & Ht & H). injection H as <- <-.
    exists seen. split; [exact Ht|]. apply (traced_spec _ _ _ _ Ht).
Qed.

Lemma get_depth_metrics_medians_witness :
  returned (get_depth_metrics (replicate 342 steady))
  /\ exists seen,
      get_depth_metrics_traced (replicate 32 steady)
      = Returns (Flt.of_Z32 80, Flt.of_Z32 2, seen)
      /\ (Flt.of_Z32 80, Flt.of_Z32 2) = median_all_fill_last_rms seen.
Proof.
  split.
  - apply (proj1 (proj1 get_depth_metrics_medians (replicate 342 steady))).
    rewrite length_replicate. lia.
  - destruct (proj2 (proj1 get_depth_metrics_medians (replicate 32 steady))
                (Flt.of_Z32 80) (Flt.of_Z32 2))
      as (seen & Ht & _ & _ & _ & Hm).
    + vm_compute. reflexivity.
    + exists seen. split; [exact Ht | exact Hm].
Defined.

End DepthMetricsFacts.

(** ** The workspace around a session *)

Section SessionFacts.
Import Workspace Session.

Variable env : collaborators.

(** a call that cannot end by an exception *)
Definition no_throw {A} (m : prog A) : Prop :=
  forall st w, fst (m st) <> Raise w.

(** a call that, when it ends normally, has set [_restored] *)
Definition ends_restored (m : prog unit) : Prop :=
  forall st st', m st = (Ok tt, st') -> _restored (fst st') = true.

Lemma no_throw_ret {A} (a : A) : no_throw (mret a : prog A).
Proof. intros st w. discriminate. Qed.

Lemma no_throw_bind {A B} (m : prog A) (k : A -> prog B) :
  no_throw m -> (forall a, no_throw (k a)) -> no_throw (m ≫= k).
Proof.
  intros Hm Hk st w. unfold mbind, workspace_bind, bind.
  specialize (Hm st). destruct (m st) as [[a|w'|] st1]; simpl in *.
  - apply Hk.
  - destruct (Hm w' eq_refl).
  - discriminate.
Qed.

Lemma no_throw_try_catch {A} (m : prog A) (h : string -> prog A) :
  (forall w, no_throw (h w)) -> no_throw (try_catch m h).
Proof.
  intros Hh st w. unfold try_catch.
  destruct (m st) as [[a|w'|] st1]; simpl; try discriminate. apply Hh.
Qed.

Lemma no_throw_update_manager (f : manager -> manager) : no_throw (update_manager f).
Proof. intros st w. discriminate. Qed.

Lemma no_throw_update_external (f : external -> external) :
  no_throw (update_external f).
Proof. intros st w. discriminate. Qed.

Lemma no_throw_when (b : bool) (m : prog unit) : no_throw m -> no_throw (when b m).
Proof. intros Hm. destruct b; [exact Hm | apply no_throw_ret]. Qed.

Lemma no_throw_stop_viewer : no_throw (stop_viewer env).
Proof. apply no_throw_try_catch. intros _. apply no_throw_ret. Qed.

Lemma no_throw_start_viewer (w h fps : Z) : no_throw (start_viewer env w h fps).
Proof. apply no_throw_try_catch. intros _. apply no_throw_ret. Qed.

Lemma no_throw_restore_ui : no_throw restore_ui.
Proof.
  intros st w. unfold restore_ui, mbind, workspace_bind, bind, the_manager.
  destruct (_ui (fst st)); discriminate.
Qed.

Lemma no_throw_restore_ui_color : no_throw restore_ui_color.
Proof.
  intros st w.
  unfold restore_ui_color, mbind, workspace_bind, bind, the_manager, the_external.
  destruct (sub_color (snd st)), (_ui_color (fst st)); discriminate.
Qed.

Lemma ends_restored_bind {A} (m : prog A) (k : A -> prog unit) :
  (forall a, ends_restored (k a)) -> ends_restored (m ≫= k).
Proof.
  intros Hk st st'. unfold mbind, workspace_bind, bind.
  destruct (m st) as [[a|w|] st1]; try discriminate. apply Hk.
Qed.

(** the part of [restore_workspace] after the [_restored] test *)
Definition restoring (m : manager) : prog unit :=
  update_external (set_is_3d_view (_in_3d_view m));;
  update_external (set_synchronization_enable (_synchronized m));;
  stop_viewer env;;
  restore_ui;;
  when (action_eqb (action m) RS2_CALIB_ACTION_UVMAPPING_CALIB) restore_ui_color;;
  update_external (set_post_processing_enabled (_post_processing m));;
  when (_was_streaming m) (start_viewer env 0 0 0;; mret tt);;
  update_manager (set_restored true).

Lemma restoring_no_throw (m : manager) : no_throw (restoring m).
Proof.
  unfold restoring.
  repeat (apply no_throw_bind; [|intros _]);
    auto using no_throw_update_external, no_throw_update_manager,
               no_throw_stop_viewer, no_throw_restore_ui.
  - apply no_throw_when, no_throw_restore_ui_color.
  - apply no_throw_when, no_throw_bind;
      [apply no_throw_start_viewer | intros _; apply no_throw_ret].
Qed.

Lemma restoring_ends_restored (m : manager) : ends_restored (restoring m).
Proof.
  unfold restoring. repeat (apply ends_restored_bind; intros _).
  intros st st' H. injection H as <-. reflexivity.
Qed.

Lemma restore_workspace_unfold (st : state) :
  restore_workspace env st
  = if _restored (fst st) then (Ok tt, st)
    else match restoring (fst st) st with
         | (Raise _, st') => (Ok tt, st')
         | r => r
         end.
Proof.
  unfold restore_workspace, try_catch, mbind, workspace_bind, bind, the_manager.
  cbn [fst snd]. destruct (_restored (fst st)); reflexivity.
Qed.

(** No exception leaves [restore_workspace]. *)
Lemma restore_workspace_swallows : no_throw (restore_workspace env).
Proof.
  intros st w. rewrite restore_workspace_unfold.
  destruct (_restored (fst st)); [discriminate|].
  destruct (restoring (fst st) st) as [[[]|w'|] st1]; discriminate.
Qed.

(** After a call that ended normally, a second call changes nothing. *)
Lemma restore_workspace_once (st st' : state) :
  restore_workspace env st = (Ok tt, st') ->
  restore_workspace env st' = (Ok tt, st').
Proof.
  intros H. rewrite restore_workspace_unfold in H.
  assert (Hr : _restored (fst st') = true).
  { destruct (_restored (fst st)) eqn:Hst.
    - injection H as <-. exact Hst.
    - pose proof (restoring_no_throw (fst st) st) as Hnt.
      pose proof (restoring_ends_restored (fst st) st) as Hend.
      destruct (restoring (fst st) st) as [[[]|w'|] st1]; simpl in *.
      + injection H as <-. apply Hend. reflexivity.
      + destruct (Hnt w' eq_refl).
      + discriminate. }
  rewrite restore_workspace_unfold, Hr. reflexivity.
Qed.

(** [restore_workspace] never writes an option of the sensor itself: what
    it does to them, it does through [start_viewer] -- which switches them
    off again. *)
Lemma restore_workspace_when_idle (st : state) :
  _restored (fst st) = true -> restore_workspace env st = (Ok tt, st).
Proof. intros H. rewrite restore_workspace_unfold, H. reflexivity. Qed.

End SessionFacts.

(** C3 (code defect).  The claim: the emitter and thermal-compensation
    options saved before the override come back at the end of a session.
    The code: [start_viewer] saves and overrides on every call, and a session
    calls it more than once, so the second call saves the overridden value;
    [restore_workspace] restores the viewer's state but never the options.
    On a cooperative camera with both options on, an on-chip calibration
    that succeeds ends with both options off, and writing the saved values
    back changes nothing: the saved values are the overridden ones. *)
Theorem session_loses_device_options :
  let start := (Session.fresh Workspace.RS2_CALIB_ACTION_ON_CHIP_CALIB, Session.camera) in
  let '(r, (m, e)) := Session.session Session.cooperative start in
  Workspace.emitter_enabled Session.camera = Session.one
  /\ Workspace.thermal_compensation Session.camera = Session.one
  /\ r = Workspace.Ok tt
  /\ Workspace._done m = true /\ Workspace._restored m = true
  /\ Workspace.laser_status_prev m = Session.zero
  /\ Workspace.thermal_loop_prev m = Session.zero
  /\ Workspace.emitter_enabled e = Session.zero
  /\ Workspace.thermal_compensation e = Session.zero
  /\ Workspace.sub e = Workspace.sub Session.camera
  /\ Workspace.is_3d_view e = Workspace.is_3d_view Session.camera
  /\ Workspace.synchronization_enable e = Workspace.synchronization_enable Session.camera
  /\ Workspace.post_processing_enabled e = Workspace.post_processing_enabled Session.camera.
Proof. vm_compute. repeat split. Qed.

(** ** The calibration-table patch *)

(** *** binary32 facts: bit patterns, and multiplying by 1.0f *)

Lemma digits2_pos_size (m : positive) : digits2_pos m = Pos.size m.
Proof. induction m; simpl; congruence. Qed.

Lemma digits2_pos_upper (m : positive) (k : Z) :
  0 <= k -> Z.pos m < 2 ^ k -> Z.pos (digits2_pos m) <= k.
Proof.
  intros Hk Hm. rewrite digits2_pos_size.
  pose proof (Pos.size_le m) as Hle.
  apply Pos2Z.pos_le_pos in Hle. rewrite Pos2Z.inj_pow in Hle.
  change (Z.pos m~0) with (2 * Z.pos m) in Hle.
  destruct (Z.le_gt_cases (Z.pos (Pos.size m)) k) as [H|H]; [exact H|].
  assert (2 ^ (k + 1) <= 2 ^ Z.pos (Pos.size m)) by (apply Z.pow_le_mono_r; lia).
  rewrite Z.pow_add_r in * by lia. lia.
Qed.

Lemma digits2_pos_lower (m : positive) (k : Z) :
  0 <= k -> 2 ^ k <= Z.pos m -> k < Z.pos (digits2_pos m).
Proof.
  intros Hk Hm. rewrite digits2_pos_size.
  pose proof (Pos.size_gt m) as Hgt.
  apply Pos2Z.pos_lt_pos in Hgt. rewrite Pos2Z.inj_pow in Hgt.
  destruct (Z.lt_ge_cases k (Z.pos (Pos.size m))) as [H|H]; [exact H|].
  assert (2 ^ Z.pos (Pos.size m) <= 2 ^ k) by (apply Z.pow_le_mono_r; lia).
  lia.
Qed.

(** [x * 1.0f] is [x], for every binary32 value *)
Lemma mul32_one (x : Flt.float) :
  valid_binary Flt.prec32 Flt.emax32 x = true -> Flt.mul32 x (Flt.of_Z32 1) = x.
Proof.
  unfold Flt.mul32, Flt.prec32, Flt.emax32.
  destruct x as [s|s| |s m e]; try reflexivity.
  - simpl. destruct s; reflexivity.
  - simpl. destruct s; reflexivity.
  - intros Hv. simpl in Hv. unfold bounded, canonical_mantissa in Hv.
    apply andb_true_iff in Hv as [Hc He].
    apply Z.eqb_eq in Hc.
    change (Flt.of_Z32 1) with (S754_finite false 8388608 (-23)).
    unfold SFmul. rewrite xorb_false_r.
    rewrite Pos.mul_comm.
    change (8388608 * m)%positive
      with (m~0~0~0~0~0~0~0~0~0~0~0~0~0~0~0~0~0~0~0~0~0~0~0)%positive.
    unfold binary_round_aux, shr_fexp.
    cbn [Zdigits2 digits2_pos shr_record_of_loc].
    match goal with
    | |- context [fexp 24 128 (?a + (e + -23))] =>
        replace (a + (e + -23)) with (Z.pos (digits2_pos m) + e) by lia
    end.
    rewrite Hc. replace (e - (e + -23)) with 23 by lia.
    cbn [shr SpecFloat.iter_pos shr_1 orb shr_m loc_of_shr_record round_nearest_even
         Zdigits2].
    replace (e + -23 + 23) with e by lia.
    rewrite Hc, Z.sub_diag. cbn [shr shr_m].
    rewrite He. reflexivity.
Qed.

Section BitPatterns.
Import TablePatch.

Lemma float_of_bits_valid (w : Z) :
  0 <= w < 2 ^ 32 ->
  valid_binary Flt.prec32 Flt.emax32 (float_of_bits w) = true.
Proof.
  intros Hw. unfold float_of_bits.
  set (e := (w / 2 ^ 23) mod 2 ^ 8). set (f := w mod 2 ^ 23).
  assert (He : 0 <= e < 2 ^ 8) by (apply Z.mod_pos_bound; reflexivity).
  assert (Hf : 0 <= f < 2 ^ 23) by (apply Z.mod_pos_bound; reflexivity).
  destruct (Z.eqb_spec e 0) as [He0|He0].
  - destruct f as [|m|m] eqn:Hfm; try reflexivity.
    simpl. unfold bounded, canonical_mantissa, fexp, emin, Flt.prec32, Flt.emax32.
    pose proof (digits2_pos_upper m 23 ltac:(lia) ltac:(lia)).
    apply andb_true_iff. split; [apply Z.eqb_eq | apply Z.leb_le]; lia.
  - destruct (Z.eqb_spec e 255) as [He255|He255].
    + destruct (f =? 0); reflexivity.
    + destruct (f + 2 ^ 23) as [|m|m] eqn:Hfm; try reflexivity.
      simpl. unfold bounded, canonical_mantissa, fexp, emin, Flt.prec32, Flt.emax32.
      pose proof (digits2_pos_upper m 24 ltac:(lia) ltac:(lia)).
      pose proof (digits2_pos_lower m 23 ltac:(lia) ltac:(lia)).
      change (2 ^ 8) with 256 in He.
      apply andb_true_iff. split; [apply Z.eqb_eq | apply Z.leb_le]; lia.
Qed.

(** a pattern that is not a NaN is the pattern of its value *)
Lemma bits_of_float_of_bits (w : Z) :
  0 <= w < 2 ^ 32 -> Flt.is_nan (float_of_bits w) = false ->
  bits_of_float (float_of_bits w) = w.
Proof.
  intros Hw. unfold float_of_bits.
  assert (Hdm : w = 2 ^ 23 * (w / 2 ^ 23) + w mod 2 ^ 23)
    by (apply Z.div_mod; discriminate).
  assert (Hdm' : w / 2 ^ 23 = 2 ^ 8 * (w / 2 ^ 23 / 2 ^ 8) + (w / 2 ^ 23) mod 2 ^ 8)
    by (apply Z.div_mod; discriminate).
  set (q := w / 2 ^ 23) in *. set (hi := q / 2 ^ 8) in *.
  set (e := q mod 2 ^ 8) in *. set (f := w mod 2 ^ 23) in *.
  assert (He : 0 <= e < 2 ^ 8) by (apply Z.mod_pos_bound; reflexivity).
  assert (Hf : 0 <= f < 2 ^ 23) by (apply Z.mod_pos_bound; reflexivity).
  change (2 ^ 8) with 256 in *. change (2 ^ 23) with 8388608 in *.
  change (2 ^ 32) with 4294967296 in *. change (2 ^ 31) with 2147483648 in *.
  assert (Hs : (if 2147483648 <=? w then 2147483648 else 0) = 2147483648 * hi).
  { destruct (Z.leb_spec 2147483648 w); lia. }
  assert (Hsign : forall P : Z -> Prop,
             P (2147483648 * hi) -> P (if 2147483648 <=? w then 2 ^ 31 else 0)).
  { intros P HP. change (2 ^ 31) with 2147483648. rewrite Hs. exact HP. }
  destruct (Z.eqb_spec e 0) as [He0|He0].
  - destruct f as [|m|m] eqn:Hfm; intros _; cbn [bits_of_float];
      change (2 ^ 23) with 8388608; try (apply Hsign; lia).
    destruct (Z.ltb_spec (Z.pos m) 8388608); apply Hsign; lia.
  - destruct (Z.eqb_spec e 255) as [He255|He255].
    + destruct (Z.eqb_spec f 0); [|discriminate]. intros _. cbn [bits_of_float].
      change (2 ^ 23) with 8388608. apply Hsign. lia.
    + destruct (f + 8388608) as [|m|m] eqn:Hfm; intros _; cbn [bits_of_float];
        change (2 ^ 23) with 8388608; try lia.
      destruct (Z.ltb_spec (Z.pos m) 8388608); apply Hsign; lia.
Qed.

End BitPatterns.

(** *** 32-bit loads and stores on the byte vector *)

Section Words.
Import TablePatch.

Lemma byte_at_returns (t : table) (i : nat) (b : Z) :
  byte_at t i = Returns b <-> t !! i = Some b.
Proof.
  unfold byte_at. destruct (t !! i); split; intros H; try discriminate;
    injection H as ->; reflexivity.
Qed.

Lemma load32_inv (t : table) (off : nat) (w : Z) :
  load32 t off = Returns w ->
  exists b0 b1 b2 b3,
    t !! off = Some b0 /\ t !! (off + 1)%nat = Some b1
    /\ t !! (off + 2)%nat = Some b2 /\ t !! (off + 3)%nat = Some b3
    /\ w = b0 + 2 ^ 8 * b1 + 2 ^ 16 * b2 + 2 ^ 24 * b3.
Proof.
  unfold load32. intros H.
  apply bind_returns in H as (b0 & H0 & H). apply bind_returns in H as (b1 & H1 & H).
  apply bind_returns in H as (b2 & H2 & H). apply bind_returns in H as (b3 & H3 & H).
  injection H as <-. apply byte_at_returns in H0, H1, H2, H3.
  exists b0, b1, b2, b3. auto.
Qed.

Lemma load32_returns (t : table) (off : nat) :
  (off + 4 <= length t)%nat -> exists w, load32 t off = Returns w.
Proof.
  intros Hlen. unfold load32, byte_at.
  destruct (lookup_lt_is_Some_2 t off ltac:(lia)) as [b0 ->].
  destruct (lookup_lt_is_Some_2 t (off + 1) ltac:(lia)) as [b1 ->].
  destruct (lookup_lt_is_Some_2 t (off + 2) ltac:(lia)) as [b2 ->].
  destruct (lookup_lt_is_Some_2 t (off + 3) ltac:(lia)) as [b3 ->].
  eexists. reflexivity.
Qed.

Lemma byte_of (t : table) (i : nat) (b : Z) :
  Forall is_byte t -> t !! i = Some b -> 0 <= b < 256.
Proof. intros Hall Hi. exact (Forall_lookup_1 _ _ _ _ Hall Hi). Qed.

Lemma load32_range (t : table) (off : nat) (w : Z) :
  Forall is_byte t -> load32 t off = Returns w -> 0 <= w < 2 ^ 32.
Proof.
  intros Hall H. apply load32_inv in H as (b0 & b1 & b2 & b3 & H0 & H1 & H2 & H3 & ->).
  pose proof (byte_of _ _ _ Hall H0). pose proof (byte_of _ _ _ Hall H1).
  pose proof (byte_of _ _ _ Hall H2). pose proof (byte_of _ _ _ Hall H3).
  change (2 ^ 8) with 256. change (2 ^ 16) with 65536.
  change (2 ^ 24) with 16777216. change (2 ^ 32) with 4294967296. lia.
Qed.

(** the four bytes of a 32-bit value *)
Lemma split32 (b0 b1 b2 b3 : Z) :
  0 <= b0 < 256 -> 0 <= b1 < 256 -> 0 <= b2 < 256 -> 0 <= b3 < 256 ->
  let w := b0 + 2 ^ 8 * b1 + 2 ^ 16 * b2 + 2 ^ 24 * b3 in
  w mod 256 = b0 /\ (w / 2 ^ 8) mod 256 = b1
  /\ (w / 2 ^ 16) mod 256 = b2 /\ (w / 2 ^ 24) mod 256 = b3.
Proof.
  intros H0 H1 H2 H3 w. subst w.
  change (2 ^ 8) with 256. change (2 ^ 16) with 65536. change (2 ^ 24) with 16777216.
  repeat split; Z.div_mod_to_equations; lia.
Qed.

Lemma join32 (w : Z) :
  0 <= w < 2 ^ 32 ->
  w mod 256 + 2 ^ 8 * ((w / 2 ^ 8) mod 256) + 2 ^ 16 * ((w / 2 ^ 16) mod 256)
  + 2 ^ 24 * ((w / 2 ^ 24) mod 256) = w.
Proof.
  change (2 ^ 8) with 256. change (2 ^ 16) with 65536. change (2 ^ 24) with 16777216.
  change (2 ^ 32) with 4294967296. intros Hw.
  Z.div_mod_to_equations. lia.
Qed.

(** storing back what was loaded changes nothing *)
Lemma store32_load32 (t : table) (off : nat) (w : Z) :
  Forall is_byte t -> load32 t off = Returns w -> store32 t off w = Returns t.
Proof.
  intros Hall H. apply load32_inv in H as (b0 & b1 & b2 & b3 & H0 & H1 & H2 & H3 & ->).
  pose proof (lookup_lt_Some _ _ _ H3) as Hlen.
  destruct (split32 b0 b1 b2 b3) as (E0 & E1 & E2 & E3);
    eauto using byte_of.
  unfold store32. destruct (Nat.leb_spec (off + 4) (length t)) as [_|?]; [|lia].
  rewrite E0, E1, E2, E3.
  rewrite (list_insert_id t off b0 H0), (list_insert_id t _ b1 H1),
    (list_insert_id t _ b2 H2), (list_insert_id t _ b3 H3).
  reflexivity.
Qed.

Lemma lookup_stored (t : table) (off : nat) (x0 x1 x2 x3 : Z) :
  (off + 4 <= length t)%nat ->
  let t' := <[(off + 3)%nat := x3]> (<[(off + 2)%nat := x2]>
              (<[(off + 1)%nat := x1]> (<[off := x0]> t))) in
  t' !! off = Some x0 /\ t' !! (off + 1)%nat = Some x1
  /\ t' !! (off + 2)%nat = Some x2 /\ t' !! (off + 3)%nat = Some x3.
Proof.
  intros Hlen t'. subst t'. repeat split.
  - rewrite 3!list_lookup_insert_ne by lia. apply list_lookup_insert_eq. lia.
  - rewrite 2!list_lookup_insert_ne by lia. apply list_lookup_insert_eq.
    rewrite length_insert. lia.
  - rewrite list_lookup_insert_ne by lia. apply list_lookup_insert_eq.
    rewrite !length_insert. lia.
  - apply list_lookup_insert_eq. rewrite !length_insert. lia.
Qed.

(** what a store leaves alone, and what it leaves behind *)
Lemma store32_spec (t t' : table) (off : nat) (w : Z) :
  store32 t off w = Returns t' ->
  length t' = length t
  /\ (forall n, (off + 4 <= n)%nat -> drop n t' = drop n t)
  /\ (0 <= w < 2 ^ 32 -> load32 t' off = Returns w).
Proof.
  unfold store32. destruct (Nat.leb_spec (off + 4) (length t)) as [Hlen|?];
    [|discriminate].
  intros H. injection H as <-. split; [|split].
  - rewrite !length_insert. reflexivity.
  - intros n Hn. rewrite !drop_insert_lt by lia. reflexivity.
  - intros Hw. unfold load32, byte_at.
    destruct (lookup_stored t off (w mod 256) ((w / 2 ^ 8) mod 256)
                ((w / 2 ^ 16) mod 256) ((w / 2 ^ 24) mod 256) Hlen)
      as (-> & -> & -> & ->).
    cbn [mbind outcome_bind Outcome.bind].
    rewrite (join32 w Hw). reflexivity.
Qed.

End Words.

(** *** The patch with ratio 1.0 *)

Section TablePatchFacts.
Import TablePatch.

Variable header_size crc32_offset right_xx_offset right_xy_offset : nat.
Variable calc_crc32 : list Z -> Z.

#[local] Abbreviation patch_table :=
  (patch_table header_size crc32_offset right_xx_offset right_xy_offset calc_crc32).
#[local] Abbreviation layout_ok :=
  (layout_ok header_size crc32_offset right_xx_offset right_xy_offset calc_crc32).
#[local] Abbreviation scale_is_number :=
  (scale_is_number right_xx_offset right_xy_offset).

(** [corrected_ratio = 0] gives [ratio_to_apply = 1.0f] *)
Lemma unit_ratio :
  Flt.add32 (Flt.div32 (Flt.of_Z32 0) (Flt.of_Z32 100)) (Flt.of_Z32 1) = Flt.of_Z32 1.
Proof. vm_compute. reflexivity. Qed.

(** scaling a stored number by 1.0f stores the same four bytes *)
Lemma rescale_by_one (t : table) (off : nat) (x : Flt.float) :
  Forall is_byte t -> load_float t off = Returns x -> Flt.is_nan x = false ->
  store_float t off (Flt.mul32 x (Flt.of_Z32 1)) = Returns t.
Proof.
  intros Hall Hload Hnan. unfold load_float in Hload.
  apply bind_returns in Hload as (w & Hw & Hx). injection Hx as <-.
  pose proof (load32_range t off w Hall Hw) as Hrange.
  unfold store_float.
  rewrite mul32_one by (apply float_of_bits_valid; exact Hrange).
  rewrite bits_of_float_of_bits by assumption.
  apply store32_load32; assumption.
Qed.

(** Whatever the ratio, the checksum the patch stores is the one of the body
    it leaves behind. *)
Lemma patch_recomputes_checksum (ratio : Flt.float) (_old_calib _new_calib : table) :
  (crc32_offset + 4 <= header_size)%nat ->
  patch_table ratio _old_calib = Returns _new_calib ->
  0 <= calc_crc32 (body header_size _new_calib) < 2 ^ 32 ->
  load32 _new_calib crc32_offset = Returns (calc_crc32 (body header_size _new_calib)).
Proof.
  intros Hcrc H Hrange. unfold TablePatch.patch_table in H.
  apply bind_returns in H as (xx & _ & H). apply bind_returns in H as (t1 & _ & H).
  apply bind_returns in H as (xy & _ & H). apply bind_returns in H as (t2 & _ & H).
  destruct (length t2 <? header_size)%nat; [discriminate|].
  destruct (store32_spec _ _ _ _ H) as (_ & Hdrop & Hload).
  unfold body in *. rewrite (Hdrop header_size Hcrc) in *. apply Hload. exact Hrange.
Qed.

(** C6.  With [corrected_ratio = 0] (ratio 1.0) on a table that holds the
    coefficients layout and numbers in the two scale fields, the patch
    returns a table of the same size whose two right-intrinsic scale fields
    and whose whole body are byte for byte those of the input, and whose
    checksum field holds [calc_crc32] of the input's body -- computed, not
    carried over: nothing is assumed about the checksum the input held. *)
Theorem patch_with_unit_ratio (_old_calib : table) :
  layout_ok _old_calib -> scale_is_number _old_calib ->
  exists _new_calib,
    patch_table (Flt.of_Z32 0) _old_calib = Returns _new_calib
    /\ length _new_calib = length _old_calib
    /\ field _new_calib right_xx_offset = field _old_calib right_xx_offset
    /\ field _new_calib right_xy_offset = field _old_calib right_xy_offset
    /\ body header_size _new_calib = body header_size _old_calib
    /\ load32 _new_calib crc32_offset
       = Returns (calc_crc32 (body header_size _old_calib)).
Proof.
  intros [Hcrc Hxx Hxy Hlen Hbytes Hrange] (xx & xy & Lxx & Lxy & Nxx & Nxy).
  unfold TablePatch.patch_table. rewrite unit_ratio.
  rewrite Lxx. cbn [mbind outcome_bind Outcome.bind].
  rewrite (rescale_by_one _ _ _ Hbytes Lxx Nxx). cbn [mbind outcome_bind Outcome.bind].
  rewrite Lxy. cbn [mbind outcome_bind Outcome.bind].
  rewrite (rescale_by_one _ _ _ Hbytes Lxy Nxy). cbn [mbind outcome_bind Outcome.bind].
  destruct (Nat.ltb_spec (length _old_calib) header_size) as [?|_]; [lia|].
  destruct (store32 _old_calib crc32_offset (calc_crc32 (drop header_size _old_calib)))
    as [new| | |] eqn:Hstore;
    try (unfold store32 in Hstore;
         destruct (Nat.leb_spec (crc32_offset + 4) (length _old_calib));
         [discriminate | lia]).
  destruct (store32_spec _ _ _ _ Hstore) as (Hl & Hdrop & Hload).
  exists new. split; [reflexivity|]. split; [exact Hl|].
  unfold field, body.
  rewrite (Hdrop right_xx_offset), (Hdrop right_xy_offset), (Hdrop header_size) by lia.
  repeat split; try reflexivity. apply Hload. exact Hrange.
Qed.

End TablePatchFacts.

(** A table in the D400 coefficients layout (16-byte header with the
    checksum in its last four bytes; the right camera's x scale factors at
    offsets 52 and 56), zero except for the scale factors 1.0f and 0.5f. *)
Definition sample_table : list Z :=
  replicate 52 0 ++ [0; 0; 128; 63] ++ [0; 0; 0; 63] ++ replicate 452 0.

Lemma patch_with_unit_ratio_witness :
  exists _new_calib,
    TablePatch.patch_table 16 12 52 56 TablePatch.crc32 (Flt.of_Z32 0) sample_table
    = Returns _new_calib
    /\ length _new_calib = 512%nat
    /\ TablePatch.field _new_calib 52 = [0; 0; 128; 63]
    /\ TablePatch.load32 _new_calib 12
       = Returns (TablePatch.crc32 (drop 16 sample_table)).
Proof.
  destruct (patch_with_unit_ratio 16 12 52 56 TablePatch.crc32 sample_table)
    as (new & Hp & Hl & Hxx & _ & _ & Hc).
  - split; try (simpl; lia).
    + apply Forall_forall. intros b Hb.
      apply (proj1 (list_elem_of_In _ _)) in Hb.
      assert (Hall : forallb (fun b => (0 <=? b) && (b <? 256)) sample_table = true)
        by (vm_compute; reflexivity).
      rewrite forallb_forall in Hall. specialize (Hall b Hb).
      unfold TablePatch.is_byte. lia.
    + vm_compute. split; [intros H; discriminate H | reflexivity].
  - eexists _, _. split; [vm_compute; reflexivity|].
    split; [vm_compute; reflexivity|]. split; reflexivity.
  - exists new. split; [exact Hp|]. split; [exact Hl|]. split; [exact Hxx | exact Hc].
Defined.

(* ===================================================================== *)
(** * Further properties of the code                                      *)
(* ===================================================================== *)

(** ** fill_missing_data: what it keeps, when it throws, where it reads *)

Section FillFactorMore.
Import FillFactor.

(** [c] is the index of the first sample of [data], and [v] that sample *)
Definition first_sample (data : list Z) (c : nat) (v : Z) : Prop :=
  (forall j, (j < c)%nat -> data !! j = Some 0) /\ data !! c = Some v /\ v <> 0.

Lemma leading_zeros_first_sample (rest : list Z) (start counter : Z) (c : nat) (v : Z) :
  first_sample rest c v ->
  leading_zeros rest start counter
  = Returns (start + Z.of_nat c + 1, counter + Z.of_nat c).
Proof.
  revert rest start counter.
  induction c as [|c IH]; intros rest start counter (Hz & Hc & Hv).
  - destruct rest as [|x rest]; [discriminate|]. injection Hc as ->.
    cbn [leading_zeros]. destruct (Z.eqb_spec v 0); [contradiction|].
    f_equal. f_equal; lia.
  - destruct rest as [|x rest]; [discriminate|].
    pose proof (Hz 0%nat ltac:(lia)) as H0. cbn in H0. injection H0 as ->.
    cbn [leading_zeros Z.eqb]. rewrite (IH rest).
    + f_equal. f_equal; lia.
    + split; [|split; [exact Hc | exact Hv]].
      intros j Hj. apply (Hz (S j)). lia.
Qed.

Lemma wr_length (data data' : list Z) (i v : Z) :
  wr data i v = Returns data' -> length data' = length data.
Proof. intros H. apply wr_returns in H as (_ & _ & ->). apply length_insert. Qed.

(** the head fill: the first [n] slots get the value of slot [counter] *)
Lemma fill_head_spec (n : nat) (i counter : Z) (data out : list Z) (v : Z) :
  0 <= i -> (Z.to_nat i + n <= Z.to_nat counter)%nat ->
  data !! Z.to_nat counter = Some v ->
  fill_head n i counter data = Returns out ->
  length out = length data
  /\ (forall k, (Z.to_nat i <= k < Z.to_nat i + n)%nat -> out !! k = Some v)
  /\ (forall k, (k < Z.to_nat i \/ Z.to_nat i + n <= k)%nat -> out !! k = data !! k).
Proof.
  revert i data. induction n as [|n IH]; intros i data Hi Hn Hv H.
  - injection H as <-. split; [reflexivity|]. split; [lia | auto].
  - cbn [fill_head] in H. apply bind_returns in H as (x & Hx & H).
    apply rd_returns in Hx as [_ Hx]. rewrite Hv in Hx. injection Hx as <-.
    apply bind_returns in H as (data' & Hw & H).
    apply wr_returns in Hw as (_ & Hlt & ->).
    apply IH in H as (Hlen & Hin & Hout); [| lia | lia |].
    2:{ rewrite list_lookup_insert_ne by lia. exact Hv. }
    rewrite length_insert in Hlen. split; [exact Hlen|]. split.
    + intros k Hk. destruct (decide (k = Z.to_nat i)) as [->|Hne].
      * rewrite Hout by lia. apply list_lookup_insert_eq. exact Hlt.
      * apply Hin. lia.
    + intros k Hk. rewrite Hout by lia. apply list_lookup_insert_ne. lia.
Qed.

(** the stages of a call that returns: the scan finds the first sample, the
    head is filled, and from there on only zero slots are written *)
Lemma fill_missing_data_stages (data out : list Z) (size : Z) :
  fill_missing_data data size = Returns out ->
  exists (c : nat) (v : Z) (data1 : list Z),
    first_sample data c v /\ Z.of_nat c + 3 <= size
    /\ fill_head c 0 (Z.of_nat c) data = Returns data1
    /\ keeps data1 out.
Proof.
  unfold fill_missing_data. intros H.
  apply bind_returns in H as ([start counter] & Hlead & H).
  apply leading_zeros_returns in Hlead as (k & -> & -> & Hz & (v & Hv & Hne)).
  destruct (Z.gtb_spec (0 + Z.of_nat k + 1 + 2) size) as [|Hsize]; [discriminate|].
  apply bind_returns in H as (data1 & Hhead & H).
  apply bind_returns in H as (s & Hpass & H).
  replace (Z.to_nat (0 + Z.of_nat k)) with k in Hhead by lia.
  replace (0 + Z.of_nat k) with (Z.of_nat k) in Hhead by lia.
  exists k, v, data1. split; [split; [exact Hz | split; [exact Hv | exact Hne]]|].
  split; [lia|]. split; [exact Hhead|].
  apply (pass_loop_inv data1) in Hpass; [|lia|].
  2:{ split; [apply keeps_refl|]. split; [reflexivity | left; reflexivity]. }
  destruct Hpass as (Hk & He & Hs).
  destruct Hs as [Hs|(Hpos & Hs & Hzero)].
  - rewrite Hs in H. cbn [Z.eqb negb andb] in H. injection H as <-. exact Hk.
  - rewrite He in H. destruct (Z.eqb_spec (p_start s) 0) as [?|_]; [lia|].
    cbn [Z.eqb negb andb] in H.
    assert (Hsz : 0 + Z.of_nat (Z.to_nat size) = size) by lia.
    rewrite Hsz in Hs, Hzero.
    replace (Z.to_nat (size - p_start s)) with 1%nat in H by lia.
    cbn [fill_tail] in H. apply bind_returns in H as (x & _ & H).
    apply bind_returns in H as (data' & Hw & H). injection H as <-.
    apply (keeps_wr data1 (p_data s) data' (p_start s) x Hk); [|exact Hw].
    rewrite Hs. exact Hzero.
Qed.

Lemma fill_head_length (n : nat) (i counter : Z) (data out : list Z) :
  fill_head n i counter data = Returns out -> length out = length data.
Proof.
  revert i data. induction n as [|n IH]; intros i data H; cbn [fill_head] in H.
  - injection H as <-. reflexivity.
  - apply bind_returns in H as (v & _ & H).
    apply bind_returns in H as (data' & Hw & H).
    apply IH in H. rewrite H. exact (wr_length _ _ _ _ Hw).
Qed.

Lemma fill_tail_length (n : nat) (i start : Z) (data out : list Z) :
  fill_tail n i start data = Returns out -> length out = length data.
Proof.
  revert i data. induction n as [|n IH]; intros i data H; cbn [fill_tail] in H.
  - injection H as <-. reflexivity.
  - apply bind_returns in H as (v & _ & H).
    apply bind_returns in H as (data' & Hw & H).
    apply IH in H. rewrite H. exact (wr_length _ _ _ _ Hw).
Qed.

Lemma interpolate_length (n : nat) (j start : Z) (tmp : Flt.float) (data out : list Z) :
  interpolate n j start tmp data = Returns out -> length out = length data.
Proof.
  revert j data. induction n as [|n IH]; intros j data H; cbn [interpolate] in H.
  - injection H as <-. reflexivity.
  - apply bind_returns in H as (prev & _ & H).
    apply bind_returns in H as (v & _ & H).
    apply bind_returns in H as (data' & Hw & H).
    apply IH in H. rewrite H. exact (wr_length _ _ _ _ Hw).
Qed.

Lemma pass_body_length (i : Z) (s s' : pass) :
  pass_body i s = Returns s' -> length (p_data s') = length (p_data s).
Proof.
  unfold pass_body. intros H. apply bind_returns in H as (di & _ & H).
  cbv zeta in H.
  match type of H with (if ?b then _ else _) = _ => destruct b end.
  - apply bind_returns in H as (de & _ & H).
    apply bind_returns in H as (dp & _ & H).
    apply bind_returns in H as (data' & Hint & H). injection H as <-.
    exact (interpolate_length _ _ _ _ _ _ Hint).
  - injection H as <-. reflexivity.
Qed.

Lemma pass_loop_length (n : nat) (i : Z) (s s' : pass) :
  pass_loop n i s = Returns s' -> length (p_data s') = length (p_data s).
Proof.
  revert i s. induction n as [|n IH]; intros i s H; cbn [pass_loop] in H.
  - injection H as <-. reflexivity.
  - apply bind_returns in H as (s1 & H1 & H). apply IH in H. rewrite H.
    exact (pass_body_length i s s1 H1).
Qed.

(** X1.  Whenever [fill_missing_data] returns, the table has the length it
    had, and every entry that was not zero is still at its place with its
    value. *)
Theorem fill_missing_data_preserves_samples (data out : list Z) (size : Z) :
  fill_missing_data data size = Returns out ->
  length out = length data
  /\ forall i v, data !! i = Some v -> v <> 0 -> out !! i = Some v.
Proof.
  intros H. split; [|exact (fill_missing_data_keeps_samples data out size H)].
  unfold fill_missing_data in H.
  apply bind_returns in H as ([start counter] & _ & H).
  destruct (start + 2 >? size); [discriminate|].
  apply bind_returns in H as (data1 & Hhead & H).
  apply bind_returns in H as (s & Hpass & H).
  apply fill_head_length in Hhead. apply pass_loop_length in Hpass.
  cbn [p_data] in Hpass.
  destruct (negb (p_start s =? 0) && (p_end s =? 0)).
  - apply fill_tail_length in H. congruence.
  - injection H as <-. congruence.
Qed.

Lemma fill_missing_data_preserves_samples_witness :
  fill_missing_data [0; 7; 0; 9; 9] 5 = Returns [7; 7; 8; 9; 9]
  /\ [7; 7; 8; 9; 9] !! 3%nat = Some 9.
Proof.
  assert (H : fill_missing_data [0; 7; 0; 9; 9] 5 = Returns [7; 7; 8; 9; 9])
    by (vm_compute; reflexivity).
  split; [exact H|].
  apply (proj2 (fill_missing_data_preserves_samples
                  [0; 7; 0; 9; 9] [7; 7; 8; 9; 9] 5 H) 3%nat 9);
    [reflexivity | lia].
Defined.

(** X2.  Whenever [fill_missing_data] returns, every slot before the first
    sample holds the value of the first sample. *)
Theorem fill_missing_data_fills_head (data out : list Z) (size : Z) (c : nat) (v : Z) :
  first_sample data c v ->
  fill_missing_data data size = Returns out ->
  forall i, (i <= c)%nat -> out !! i = Some v.
Proof.
  intros (Hz & Hc & Hv) H i Hi.
  apply fill_missing_data_stages in H as (c' & v' & data1 & (Hz' & Hc' & Hv') & _ & Hhead & Hk).
  assert (c' = c) as ->.
  { destruct (Nat.lt_trichotomy c' c) as [Hlt|[->|Hlt]]; [|reflexivity|].
    - rewrite (Hz c' Hlt) in Hc'. congruence.
    - rewrite (Hz' c Hlt) in Hc. congruence. }
  assert (v' = v) as -> by congruence.
  apply (fill_head_spec c 0 (Z.of_nat c) data data1 v) in Hhead as (_ & Hin & Hout);
    [| lia | lia | rewrite Nat2Z.id; exact Hc].
  apply Hk; [|exact Hv].
  destruct (decide (i = c)) as [->|Hne].
  - rewrite Hout by (right; cbn; lia). exact Hc.
  - apply Hin. cbn. lia.
Qed.

Lemma fill_missing_data_fills_head_witness :
  fill_missing_data [0; 0; 7; 9; 9] 5 = Returns [7; 7; 7; 9; 9]
  /\ [7; 7; 7; 9; 9] !! 1%nat = Some 7.
Proof.
  assert (H : fill_missing_data [0; 0; 7; 9; 9] 5 = Returns [7; 7; 7; 9; 9])
    by (vm_compute; reflexivity).
  split; [exact H|].
  apply (fill_missing_data_fills_head [0; 0; 7; 9; 9] [7; 7; 7; 9; 9] 5 2 7);
    [| exact H | lia].
  split; [|split; [reflexivity | lia]].
  intros j Hj. destruct j as [|[|j]]; [reflexivity | reflexivity | lia].
Defined.

(** a call that does not throw, and one that stays inside the array *)
Definition no_throw_out {A} (m : outcome A) : Prop := forall w, m <> Throws w.
Definition in_bounds {A} (m : outcome A) : Prop := forall i, m <> Undefined (OutOfBounds i).

Lemma no_throw_out_bind {A B} (m : outcome A) (k : A -> outcome B) :
  no_throw_out m -> (forall a, no_throw_out (k a)) -> no_throw_out (m ≫= k).
Proof.
  intros Hm Hk w. destruct m as [a|w'|a|u]; cbn; try discriminate.
  - apply Hk.
  - intros [= ->]. exact (Hm w eq_refl).
Qed.

Lemma in_bounds_bind {A B} (m : outcome A) (k : A -> outcome B) :
  in_bounds m -> (forall a, m = Returns a -> in_bounds (k a)) -> in_bounds (m ≫= k).
Proof.
  intros Hm Hk i. destruct m as [a|w'|a|u]; cbn; try discriminate.
  - apply Hk. reflexivity.
  - intros [= ->]. exact (Hm i eq_refl).
Qed.

Lemma rd_no_throw (data : list Z) (i : Z) : no_throw_out (rd data i).
Proof.
  intros w. unfold rd. destruct (i <? 0); [discriminate|].
  destruct (data !! Z.to_nat i); discriminate.
Qed.

Lemma wr_no_throw (data : list Z) (i v : Z) : no_throw_out (wr data i v).
Proof.
  intros w. unfold wr. destruct (i <? 0); [discriminate|].
  destruct (Z.to_nat i <? length data)%nat; discriminate.
Qed.

Lemma to_uint16_no_throw (x : Flt.float) : no_throw_out (to_uint16 x).
Proof.
  intros w. unfold to_uint16. destruct (Flt.trunc x) as [n|]; [|discriminate].
  destruct ((0 <=? n) && (n <=? 65535)); discriminate.
Qed.

Lemma returns_no_throw {A} (a : A) : no_throw_out (Returns a).
Proof. intros w. discriminate. Qed.

Lemma fill_head_no_throw (n : nat) (i counter : Z) (data : list Z) :
  no_throw_out (fill_head n i counter data).
Proof.
  revert i data. induction n as [|n IH]; intros i data; cbn [fill_head].
  - apply returns_no_throw.
  - apply no_throw_out_bind; [apply rd_no_throw|]. intros v.
    apply no_throw_out_bind; [apply wr_no_throw|]. intros data'. apply IH.
Qed.

Lemma interpolate_no_throw (n : nat) (j start : Z) (tmp : Flt.float) (data : list Z) :
  no_throw_out (interpolate n j start tmp data).
Proof.
  revert j data. induction n as [|n IH]; intros j data; cbn [interpolate].
  - apply returns_no_throw.
  - apply no_throw_out_bind; [apply rd_no_throw|]. intros prev.
    apply no_throw_out_bind; [apply to_uint16_no_throw|]. intros v.
    apply no_throw_out_bind; [apply wr_no_throw|]. intros data'. apply IH.
Qed.

Lemma pass_body_no_throw (i : Z) (s : pass) : no_throw_out (pass_body i s).
Proof.
  unfold pass_body. apply no_throw_out_bind; [apply rd_no_throw|]. intros di.
  cbv zeta.
  match goal with |- no_throw_out (if ?b then _ else _) => destruct b end.
  - apply no_throw_out_bind; [apply rd_no_throw|]. intros de.
    apply no_throw_out_bind; [apply rd_no_throw|]. intros dp.
    apply no_throw_out_bind; [apply interpolate_no_throw|]. intros data'.
    apply returns_no_throw.
  - apply returns_no_throw.
Qed.

Lemma pass_loop_no_throw (n : nat) (i : Z) (s : pass) : no_throw_out (pass_loop n i s).
Proof.
  revert i s. induction n as [|n IH]; intros i s; cbn [pass_loop].
  - apply returns_no_throw.
  - apply no_throw_out_bind; [apply pass_body_no_throw|]. intros s'. apply IH.
Qed.

Lemma fill_tail_no_throw (n : nat) (i start : Z) (data : list Z) :
  no_throw_out (fill_tail n i start data).
Proof.
  revert i data. induction n as [|n IH]; intros i data; cbn [fill_tail].
  - apply returns_no_throw.
  - apply no_throw_out_bind; [apply rd_no_throw|]. intros v.
    apply no_throw_out_bind; [apply wr_no_throw|]. intros data'. apply IH.
Qed.

(** X3.  With the first sample at index [c], [fill_missing_data] throws
    exactly when [c + 3 > size], and then with its one message. *)
Theorem fill_missing_data_throws_iff (data : list Z) (size : Z) (c : nat) (v : Z) :
  first_sample data c v ->
  (size < Z.of_nat c + 3 -> fill_missing_data data size = Throws no_data_message)
  /\ (forall w, fill_missing_data data size = Throws w -> size < Z.of_nat c + 3).
Proof.
  intros Hfirst. unfold fill_missing_data.
  rewrite (leading_zeros_first_sample data 0 0 c v Hfirst).
  cbn [mbind outcome_bind Outcome.bind].
  destruct (Z.gtb_spec (0 + Z.of_nat c + 1 + 2) size) as [Hgt|Hle]; split.
  - reflexivity.
  - intros; lia.
  - intros; lia.
  - intros w Hw. exfalso. revert w Hw.
    apply no_throw_out_bind; [apply fill_head_no_throw|]. intros data1.
    apply no_throw_out_bind; [apply pass_loop_no_throw|]. intros s.
    destruct (negb (p_start s =? 0) && (p_end s =? 0)).
    + apply fill_tail_no_throw.
    + apply returns_no_throw.
Qed.

Lemma fill_missing_data_throws_iff_witness :
  fill_missing_data [0; 0; 7; 9] 4 = Throws no_data_message.
Proof.
  assert (Hfirst : first_sample [0; 0; 7; 9] 2 7).
  { split; [|split; [reflexivity | lia]].
    intros j Hj. destruct j as [|[|j]]; [reflexivity | reflexivity | lia]. }
  apply (proj1 (fill_missing_data_throws_iff [0; 0; 7; 9] 4 2 7 Hfirst)).
  cbn. lia.
Defined.

Lemma rd_in_range (data : list Z) (i : Z) :
  0 <= i -> (Z.to_nat i < length data)%nat -> exists v, rd data i = Returns v.
Proof.
  intros Hi Hlt. unfold rd. destruct (Z.ltb_spec i 0); [lia|].
  destruct (lookup_lt_is_Some_2 data (Z.to_nat i) Hlt) as [v Hv].
  exists v. rewrite Hv. reflexivity.
Qed.

Lemma wr_in_range (data : list Z) (i v : Z) :
  0 <= i -> (Z.to_nat i < length data)%nat ->
  wr data i v = Returns (<[Z.to_nat i := v]> data).
Proof.
  intros Hi Hlt. unfold wr. destruct (Z.ltb_spec i 0); [lia|].
  destruct (Nat.ltb_spec (Z.to_nat i) (length data)); [reflexivity | lia].
Qed.

Lemma returns_in_bounds {A} (a : A) : in_bounds (Returns a).
Proof. intros i. discriminate. Qed.

Lemma to_uint16_in_bounds (x : Flt.float) : in_bounds (to_uint16 x).
Proof.
  intros i. unfold to_uint16. destruct (Flt.trunc x) as [n|]; [|discriminate].
  destruct ((0 <=? n) && (n <=? 65535)); discriminate.
Qed.

Lemma fill_head_in_bounds (n : nat) (i counter : Z) (data : list Z) :
  0 <= i -> 0 <= counter -> (Z.to_nat i + n <= Z.to_nat counter)%nat ->
  (Z.to_nat counter < length data)%nat ->
  in_bounds (fill_head n i counter data).
Proof.
  revert i data. induction n as [|n IH]; intros i data Hi Hc Hn Hlen; cbn [fill_head].
  - apply returns_in_bounds.
  - destruct (rd_in_range data counter Hc Hlen) as [v ->].
    cbn [mbind outcome_bind Outcome.bind].
    rewrite (wr_in_range data i v Hi) by lia.
    cbn [mbind outcome_bind Outcome.bind].
    apply IH; [lia | lia | lia | rewrite length_insert; exact Hlen].
Qed.

Lemma interpolate_one_in_bounds (start : Z) (tmp : Flt.float) (data : list Z) :
  1 <= start -> (Z.to_nat start < length data)%nat ->
  in_bounds (interpolate 1 start start tmp data).
Proof.
  intros Hs Hlen. cbn [interpolate].
  destruct (rd_in_range data (start - 1)) as [prev ->]; [lia | lia |].
  cbn [mbind outcome_bind Outcome.bind].
  apply in_bounds_bind; [apply to_uint16_in_bounds|]. intros v _.
  rewrite (wr_in_range data start v) by lia.
  apply returns_in_bounds.
Qed.

Lemma pass_body_in_bounds (orig : list Z) (i : Z) (s : pass) :
  0 <= i -> (Z.to_nat i < length (p_data s))%nat -> pass_inv orig i s ->
  in_bounds (pass_body i s).
Proof.
  intros Hi Hlen (_ & He & Hs). unfold pass_body.
  destruct (rd_in_range (p_data s) i Hi Hlen) as [di ->].
  cbn [mbind outcome_bind Outcome.bind]. rewrite He.
  destruct (Z.eqb_spec di 0) as [->|Hdi0]; cbn [negb andb].
  - rewrite andb_false_r. cbn [negb andb]. rewrite andb_false_r.
    apply returns_in_bounds.
  - rewrite andb_true_r. destruct Hs as [Hs|(Hpos & Hs & _)].
    + rewrite Hs. cbn [Z.eqb negb andb]. apply returns_in_bounds.
    + destruct (Z.eqb_spec (p_start s) 0) as [?|_]; [lia|]. cbn [negb andb].
      destruct (Z.eqb_spec i 0) as [?|_]; [lia|]. cbn [negb].
      destruct (rd_in_range (p_data s) i Hi Hlen) as [de ->].
      destruct (rd_in_range (p_data s) (p_start s - 1)) as [dp ->]; [lia | lia |].
      cbn [mbind outcome_bind Outcome.bind].
      replace (Z.to_nat (i - p_start s)) with 1%nat by lia.
      apply in_bounds_bind.
      * apply interpolate_one_in_bounds; lia.
      * intros data' _. apply returns_in_bounds.
Qed.

Lemma pass_loop_in_bounds (orig : list Z) (n : nat) (i : Z) (s : pass) :
  0 <= i -> (Z.to_nat i + n <= length (p_data s))%nat -> pass_inv orig i s ->
  in_bounds (pass_loop n i s).
Proof.
  revert i s. induction n as [|n IH]; intros i s Hi Hlen Hinv; cbn [pass_loop].
  - apply returns_in_bounds.
  - apply in_bounds_bind.
    + apply (pass_body_in_bounds orig); [exact Hi | lia | exact Hinv].
    + intros s' Hs'. apply IH.
      * lia.
      * rewrite (pass_body_length i s s' Hs'). lia.
      * exact (pass_body_inv orig i s s' Hi Hinv Hs').
Qed.

(** X4.  With the first sample at index [c], [c + 3 <= size] and [size] no
    more than the array's length, no access of [fill_missing_data] is outside
    the array. *)
Theorem fill_missing_data_in_bounds (data : list Z) (size : Z) (c : nat) (v : Z) :
  first_sample data c v ->
  Z.of_nat c + 3 <= size -> size <= Z.of_nat (length data) ->
  in_bounds (fill_missing_data data size).
Proof.
  intros Hfirst Hc Hsize. unfold fill_missing_data.
  rewrite (leading_zeros_first_sample data 0 0 c v Hfirst).
  cbn [mbind outcome_bind Outcome.bind].
  destruct (Z.gtb_spec (0 + Z.of_nat c + 1 + 2) size) as [Hgt|_]; [lia|].
  replace (0 + Z.of_nat c) with (Z.of_nat c) by lia. rewrite Nat2Z.id.
  apply in_bounds_bind.
  { apply fill_head_in_bounds; lia. }
  intros data1 Hhead.
  assert (Hlen1 : length data1 = length data).
  { destruct Hfirst as (_ & Hv & _).
    apply (fill_head_spec c 0 (Z.of_nat c) data data1 v) in Hhead as (Hl & _);
      [exact Hl | lia | lia | rewrite Nat2Z.id; exact Hv]. }
  assert (Hinv : pass_inv data1 0 {| p_data := data1; p_start := 0; p_end := 0 |}).
  { split; [apply keeps_refl|]. split; [reflexivity | left; reflexivity]. }
  apply in_bounds_bind.
  { apply (pass_loop_in_bounds data1); [lia | cbn [p_data]; lia | exact Hinv]. }
  intros s Hpass.
  pose proof (pass_loop_length _ _ _ _ Hpass) as Hlen. cbn [p_data] in Hlen.
  apply (pass_loop_inv data1) in Hpass; [|lia|exact Hinv].
  destruct Hpass as (_ & He & Hs). rewrite He.
  destruct Hs as [Hs|(Hpos & Hs & _)].
  - rewrite Hs. cbn [Z.eqb negb andb]. apply returns_in_bounds.
  - destruct (Z.eqb_spec (p_start s) 0) as [?|_]; [lia|]. cbn [Z.eqb negb andb].
    replace (Z.to_nat (size - p_start s)) with 1%nat by lia.
    cbn [fill_tail].
    destruct (rd_in_range (p_data s) (p_start s - 1)) as [x ->]; [lia | lia |].
    cbn [mbind outcome_bind Outcome.bind].
    rewrite (wr_in_range (p_data s) (p_start s) x) by lia.
    apply returns_in_bounds.
Qed.

Lemma fill_missing_data_in_bounds_witness :
  in_bounds (fill_missing_data [0; 0; 7; 0; 9; 0] 6).
Proof.
  apply (fill_missing_data_in_bounds [0; 0; 7; 0; 9; 0] 6 2 7).
  - split; [|split; [reflexivity | lia]].
    intros j Hj. destruct j as [|[|j]]; [reflexivity | reflexivity | lia].
  - lia.
  - cbn. lia.
Defined.

(** every slot of [data] below [size] holds a sample *)
Definition complete (data : list Z) (size : Z) : Prop :=
  forall j, (j < Z.to_nat size)%nat -> exists v, data !! j = Some v /\ v <> 0.

Lemma pass_loop_complete (n : nat) (i : Z) (data : list Z) :
  0 <= i ->
  (forall j, (Z.to_nat i <= j < Z.to_nat i + n)%nat ->
             exists v, data !! j = Some v /\ v <> 0) ->
  pass_loop n i {| p_data := data; p_start := 0; p_end := 0 |}
  = Returns {| p_data := data; p_start := 0; p_end := 0 |}.
Proof.
  revert i. induction n as [|n IH]; intros i Hi Hall; cbn [pass_loop]; [reflexivity|].
  destruct (Hall (Z.to_nat i) ltac:(lia)) as (v & Hv & Hne).
  unfold pass_body at 1. cbn [p_data p_start p_end].
  rewrite (proj2 (rd_returns data i v) (conj Hi Hv)).
  cbn [mbind outcome_bind Outcome.bind].
  destruct (Z.eqb_spec v 0) as [?|_]; [contradiction|].
  cbn [Z.eqb negb andb].
  apply IH; [lia|]. intros j Hj. apply Hall. lia.
Qed.

(** X23.  A table without a gap comes back as it went in: when every slot
    below [size] holds a sample and [size] is at least 3,
    [fill_missing_data] returns the table unchanged. *)
Theorem fill_missing_data_complete (data : list Z) (size : Z) :
  3 <= size -> complete data size ->
  fill_missing_data data size = Returns data.
Proof.
  intros Hsize Hall. destruct (Hall 0%nat ltac:(lia)) as (v & Hv & Hne).
  unfold fill_missing_data.
  rewrite (leading_zeros_first_sample data 0 0 0 v).
  2:{ split; [intros j Hj; lia | split; [exact Hv | exact Hne]]. }
  cbn [mbind outcome_bind Outcome.bind].
  change (0 + Z.of_nat 0) with 0.
  destruct (Z.gtb_spec (0 + 1 + 2) size) as [?|_]; [lia|].
  change (Z.to_nat 0) with 0%nat. cbn [fill_head].
  cbn [mbind outcome_bind Outcome.bind].
  rewrite pass_loop_complete; [reflexivity | lia |].
  intros j Hj. apply Hall. lia.
Qed.

Lemma fill_missing_data_complete_witness :
  fill_missing_data [4; 5; 6; 0] 3 = Returns [4; 5; 6; 0].
Proof.
  apply (fill_missing_data_complete [4; 5; 6; 0] 3); [lia|].
  intros j Hj. destruct j as [|[|[|j]]]; [| | |simpl in Hj; lia];
    eexists; (split; [reflexivity | lia]).
Defined.

End FillFactorMore.

(** ** The workspace: what the calls keep, save and give back *)

Section WorkspaceLogic.
Import Workspace Session.

(** [Q] survives the call however it ends *)
Definition preserves {A} (Q : state -> Prop) (m : prog A) : Prop :=
  forall st, Q st -> Q (snd (m st)).

Lemma bind_ok {A B} (m : prog A) (k : A -> prog B) (st st' : state) (a : A) :
  m st = (Ok a, st') -> (m ≫= k) st = k a st'.
Proof. intros H. unfold mbind, workspace_bind, bind. rewrite H. reflexivity. Qed.

Lemma bind_ok_inv {A B} (m : prog A) (k : A -> prog B) (st st' : state) (b : B) :
  (m ≫= k) st = (Ok b, st') ->
  exists a st1, m st = (Ok a, st1) /\ k a st1 = (Ok b, st').
Proof.
  unfold mbind, workspace_bind, bind.
  destruct (m st) as [[a|w|] st1]; try discriminate. intros H. eauto.
Qed.

Lemma snd_try_catch_ret {A} (m : prog A) (a : A) (st : state) :
  snd (try_catch m (fun _ => ret a) st) = snd (m st).
Proof. unfold try_catch. destruct (m st) as [[x|w|] st1]; reflexivity. Qed.

Lemma preserves_ret {A} (Q : state -> Prop) (a : A) : preserves Q (ret a).
Proof. intros st H. exact H. Qed.

Lemma preserves_throw {A} (Q : state -> Prop) (w : string) : preserves Q (@throw A w).
Proof. intros st H. exact H. Qed.

Lemma preserves_crash {A} (Q : state -> Prop) : preserves Q (@crash A).
Proof. intros st H. exact H. Qed.

Lemma preserves_the_manager (Q : state -> Prop) : preserves Q the_manager.
Proof. intros st H. exact H. Qed.

Lemma preserves_the_external (Q : state -> Prop) : preserves Q the_external.
Proof. intros st H. exact H. Qed.

Lemma preserves_bind {A B} (Q : state -> Prop) (m : prog A) (k : A -> prog B) :
  preserves Q m -> (forall a, preserves Q (k a)) -> preserves Q (m ≫= k).
Proof.
  intros Hm Hk st H. unfold mbind, workspace_bind, bind.
  specialize (Hm st H). destruct (m st) as [[a|w|] st1]; cbn [snd] in *.
  - apply Hk. exact Hm.
  - exact Hm.
  - exact Hm.
Qed.

Lemma preserves_try_catch {A} (Q : state -> Prop) (m : prog A) (h : string -> prog A) :
  preserves Q m -> (forall w, preserves Q (h w)) -> preserves Q (try_catch m h).
Proof.
  intros Hm Hh st H. unfold try_catch.
  specialize (Hm st H). destruct (m st) as [[a|w|] st1]; cbn [snd] in *.
  - exact Hm.
  - apply Hh. exact Hm.
  - exact Hm.
Qed.

Lemma preserves_when (Q : state -> Prop) (b : bool) (m : prog unit) :
  preserves Q m -> preserves Q (when b m).
Proof. intros Hm. destruct b; [exact Hm | apply preserves_ret]. Qed.

Lemma preserves_update_manager (Q : state -> Prop) (f : manager -> manager) :
  (forall m e, Q (m, e) -> Q (f m, e)) -> preserves Q (update_manager f).
Proof. intros Hf [m e] H. apply Hf. exact H. Qed.

Lemma preserves_update_external (Q : state -> Prop) (f : external -> external) :
  (forall m e, Q (m, e) -> Q (m, f e)) -> preserves Q (update_external f).
Proof. intros Hf [m e] H. apply Hf. exact H. Qed.

Lemma preserves_call {A} (Q : state -> Prop) (f : external -> res A * external) :
  (forall m e, Q (m, e) -> Q (m, snd (f e))) -> preserves Q (call f).
Proof.
  intros Hf [m e] H. unfold call. cbn [snd fst].
  specialize (Hf m e H). destruct (f e) as [r e']. exact Hf.
Qed.

End WorkspaceLogic.

(** breaks a call into its statements, leaving what each primitive must keep *)
Ltac preserving :=
  repeat first
    [ apply preserves_ret | apply preserves_throw | apply preserves_crash
    | apply preserves_the_manager | apply preserves_the_external
    | apply preserves_when
    | apply preserves_update_manager | apply preserves_update_external
    | apply preserves_call
    | apply preserves_try_catch; [|intros ?]
    | apply preserves_bind; [|intros ?]
    | match goal with
      | |- preserves _ (if ?b then _ else _) => destruct b
      | |- preserves _ (match ?x with _ => _ end) => destruct x
      end
    | progress cbv zeta
    | progress unfold Session.try_start_viewer, Session.start_viewer,
        Session.start_viewer_body, Session.stop_viewer, Session.restore_ui,
        Session.restore_ui_color, Session.emitter_off, Session.thermal_off ].

Section SessionMore.
Import Workspace Session.

Variable env : collaborators.

(** what [start_viewer] writes into the manager, given the sensor it finds *)
Definition saved_options (m : manager) (e : external) : manager :=
  let m := if supports_emitter e
           then set_laser_status_prev (emitter_enabled e) m else m in
  if supports_thermal e
  then set_thermal_loop_prev (thermal_compensation e) m else m.

(** [start_viewer] after the two option blocks *)
Definition start_viewer_rest (w h fps : Z) : prog bool :=
  m ← the_manager;
  let run_fl_calib :=
    action_eqb (action m) RS2_CALIB_ACTION_FL_CALIB
    && (w =? 1280) && (h =? 720) && (fps =? 30) in
  (if action_eqb (action m) RS2_CALIB_ACTION_TARE_GROUND_TRUTH then ret tt
   else if action_eqb (action m) RS2_CALIB_ACTION_UVMAPPING_CALIB then
     e ← the_external;
     match sub_color e with
     | None => crash
     | Some _ => emitter_off;; thermal_off
     end
   else if action_eqb (action m) RS2_CALIB_ACTION_UVMAPPING then
     e ← the_external;
     match sub_color e with
     | None => crash
     | Some _ => emitter_off
     end
   else if run_fl_calib then emitter_off;; thermal_off
   else ret tt);;
  update_external
    (fun e => set_sub (StreamConfig.select_stream (is_combination_supported env)
                         w h fps (sub e)) e);;
  (if action_eqb (action m) RS2_CALIB_ACTION_UVMAPPING_CALIB then
     update_external
       (fun e => set_sub_color (select_color w h fps <$> sub_color e) e)
   else ret tt);;
  call (play_streams env).

(** the sensor after the two option blocks *)
Definition options_off (e : external) : external :=
  let e := if supports_emitter e then set_emitter_enabled zero e else e in
  if supports_thermal e then set_thermal_compensation zero e else e.

Lemma start_viewer_body_unfold (w h fps : Z) (st : state) :
  start_viewer_body env w h fps st
  = start_viewer_rest w h fps (saved_options (fst st) (snd st), options_off (snd st)).
Proof.
  destruct st as [m e]. unfold start_viewer_body, saved_options, options_off.
  cbn [fst snd].
  rewrite (bind_ok the_external _ (m, e) (m, e) e eq_refl).
  destruct (supports_emitter e) eqn:He.
  - erewrite bind_ok by reflexivity. cbn [fst snd].
    erewrite bind_ok by reflexivity. cbn [snd supports_thermal set_emitter_enabled].
    destruct (supports_thermal e) eqn:Ht.
    + erewrite bind_ok by reflexivity. reflexivity.
    + erewrite bind_ok by reflexivity. reflexivity.
  - erewrite bind_ok by reflexivity. cbn [fst snd].
    erewrite bind_ok by reflexivity. cbn [snd].
    destruct (supports_thermal e) eqn:Ht.
    + erewrite bind_ok by reflexivity. reflexivity.
    + erewrite bind_ok by reflexivity. reflexivity.
Qed.

Lemma start_viewer_rest_keeps_manager (w h fps : Z) (m0 : manager) :
  preserves (fun st => fst st = m0) (start_viewer_rest w h fps).
Proof. unfold start_viewer_rest. preserving; intros m e H; exact H. Qed.

Lemma start_viewer_manager (w h fps : Z) (st : state) :
  fst (snd (start_viewer env w h fps st)) = saved_options (fst st) (snd st).
Proof.
  unfold start_viewer. rewrite snd_try_catch_ret, start_viewer_body_unfold.
  apply (start_viewer_rest_keeps_manager w h fps). reflexivity.
Qed.


(** a collaborator call that leaves the two options of the sensor alone *)
Definition keeps_options {A} (f : external -> res A * external) : Prop :=
  forall e,
    supports_emitter (snd (f e)) = supports_emitter e
    /\ emitter_enabled (snd (f e)) = emitter_enabled e
    /\ supports_thermal (snd (f e)) = supports_thermal e
    /\ thermal_compensation (snd (f e)) = thermal_compensation e.

(** the sensor has the option, and it is off *)
Definition emitter_is_off (st : state) : Prop :=
  supports_emitter (snd st) = true -> emitter_enabled (snd st) = zero.

Definition thermal_is_off (st : state) : Prop :=
  supports_thermal (snd st) = true -> thermal_compensation (snd st) = zero.

Lemma start_viewer_rest_keeps_emitter_off (w h fps : Z) :
  keeps_options (play_streams env) ->
  preserves emitter_is_off (start_viewer_rest w h fps).
Proof.
  intros Hplay. unfold start_viewer_rest, emitter_is_off.
  preserving; intros m e H; cbn [fst snd] in *; try exact H.
  all: try (destruct (Hplay e) as (-> & -> & _); exact H).
  all: cbn; intros _; reflexivity.
Qed.

Lemma start_viewer_rest_keeps_thermal_off (w h fps : Z) :
  keeps_options (play_streams env) ->
  preserves thermal_is_off (start_viewer_rest w h fps).
Proof.
  intros Hplay. unfold start_viewer_rest, thermal_is_off.
  preserving; intros m e H; cbn [fst snd] in *; try exact H.
  all: try (destruct (Hplay e) as (_ & _ & -> & ->); exact H).
  all: cbn; intros _; reflexivity.
Qed.

Lemma start_viewer_options_off (w h fps : Z) (st : state) :
  keeps_options (play_streams env) ->
  let st' := snd (start_viewer env w h fps st) in
  emitter_is_off st' /\ thermal_is_off st'.
Proof.
  intros Hplay. cbv zeta. unfold start_viewer.
  rewrite snd_try_catch_ret, start_viewer_body_unfold. split.
  - apply (start_viewer_rest_keeps_emitter_off w h fps Hplay).
    unfold emitter_is_off, options_off. cbn [snd].
    destruct (supports_emitter (snd st)) eqn:He.
    + destruct (supports_thermal (set_emitter_enabled zero (snd st))); reflexivity.
    + destruct (supports_thermal (snd st)); cbn; rewrite He; discriminate.
  - apply (start_viewer_rest_keeps_thermal_off w h fps Hplay).
    unfold thermal_is_off, options_off. cbn [snd].
    destruct (supports_emitter (snd st)) eqn:He.
    + destruct (supports_thermal (set_emitter_enabled zero (snd st))) eqn:Ht;
        [reflexivity | rewrite Ht; discriminate].
    + destruct (supports_thermal (snd st)) eqn:Ht;
        [reflexivity | rewrite Ht; discriminate].
Qed.

(** X6.  When starting the streams leaves the sensor's options alone, the
    sensor comes out of [start_viewer] with each option it supports switched
    off, and a second [start_viewer] therefore records 0 in
    [laser_status_prev] and [thermal_loop_prev], whatever the first call had
    saved there. *)
Theorem start_viewer_again_saves_zero (w h fps w' h' fps' : Z) (st : state) :
  keeps_options (play_streams env) ->
  let st1 := snd (start_viewer env w h fps st) in
  let st2 := snd (start_viewer env w' h' fps' st1) in
  (supports_emitter (snd st1) = true ->
   emitter_enabled (snd st1) = zero /\ laser_status_prev (fst st2) = zero)
  /\ (supports_thermal (snd st1) = true ->
      thermal_compensation (snd st1) = zero /\ thermal_loop_prev (fst st2) = zero).
Proof.
  intros Hplay. cbv zeta.
  destruct (start_viewer_options_off w h fps st Hplay) as [He Ht].
  rewrite start_viewer_manager. unfold saved_options.
  set (st1 := snd (start_viewer env w h fps st)) in *.
  unfold emitter_is_off in He. unfold thermal_is_off in Ht. split.
  - intros Hs. specialize (He Hs). split; [exact He|]. rewrite Hs.
    destruct (supports_thermal (snd st1)); cbn; exact He.
  - intros Hs. specialize (Ht Hs). split; [exact Ht|]. rewrite Hs.
    cbn. exact Ht.
Qed.

Lemma start_viewer_true (w h fps : Z) (st st' : state) :
  start_viewer env w h fps st = (Ok true, st') ->
  exists e0, play_streams env e0 = (Ok true, snd st').
Proof.
  unfold start_viewer, try_catch.
  destruct (start_viewer_body env w h fps st) as [[b|w0|] s1] eqn:Hb;
    intros H; try discriminate.
  injection H as -> ->. rewrite start_viewer_body_unfold in Hb.
  unfold start_viewer_rest in Hb.
  apply bind_ok_inv in Hb as (m & s0 & _ & Hb). cbv zeta in Hb.
  apply bind_ok_inv in Hb as (? & ? & _ & Hb).
  apply bind_ok_inv in Hb as (? & ? & _ & Hb).
  apply bind_ok_inv in Hb as (? & sn & _ & Hb).
  unfold call in Hb. exists (snd sn).
  destruct (play_streams env (snd sn)) as [r e']. injection Hb as -> <-. reflexivity.
Qed.

(** X7.  [try_start_viewer] returns only after a start of the streams at
    which a frame arrived; the one exception it can end with is
    "Failed to start streaming (w, h, fps)!", raised after the streams were
    stopped. *)
Theorem try_start_viewer_result (w h fps : Z) (st : state) :
  match try_start_viewer env w h fps st with
  | (Ok _, st') => exists e0, play_streams env e0 = (Ok true, snd st')
  | (Raise what, st') =>
      what = start_failure w h fps /\ exists e0, snd (stop_streams env e0) = snd st'
  | (Crash, _) => True
  end.
Proof.
  unfold try_start_viewer, mbind, workspace_bind, bind.
  pose proof (no_throw_start_viewer env w h fps st) as Hnt.
  destruct (start_viewer env w h fps st) as [[[|]|w0|] s1] eqn:H1; cbn [negb].
  - cbn. exact (start_viewer_true w h fps st s1 H1).
  - pose proof (no_throw_start_viewer env w h fps s1) as Hnt2.
    destruct (start_viewer env w h fps s1) as [[[|]|w1|] s2] eqn:H2; cbn [negb].
    + exact (start_viewer_true w h fps s1 s2 H2).
    + unfold stop_viewer, try_catch, call, throw, ret.
      destruct (stop_streams env (snd s2)) as [[[]|w2|] e3] eqn:Hs; cbn.
      * split; [reflexivity|]. exists (snd s2). rewrite Hs. reflexivity.
      * split; [reflexivity|]. exists (snd s2). rewrite Hs. reflexivity.
      * exact I.
    + destruct (Hnt2 w1 eq_refl).
    + exact I.
  - destruct (Hnt w0 eq_refl).
  - exact I.
Qed.

(** a collaborator call that leaves the viewer's three switches alone *)
Definition leaves_viewer {A} (f : external -> res A * external) : Prop :=
  forall e,
    is_3d_view (snd (f e)) = is_3d_view e
    /\ synchronization_enable (snd (f e)) = synchronization_enable e
    /\ post_processing_enabled (snd (f e)) = post_processing_enabled e.

(** the viewer's switches, and the manager's copies of them *)
Definition viewer_is (a b c : bool) (st : state) : Prop :=
  is_3d_view (snd st) = a /\ synchronization_enable (snd st) = b
  /\ post_processing_enabled (snd st) = c.

Definition saved_is (a b c : bool) (st : state) : Prop :=
  _in_3d_view (fst st) = a /\ _synchronized (fst st) = b
  /\ _post_processing (fst st) = c /\ _restored (fst st) = false.

Lemma stop_viewer_keeps_viewer (a b c : bool) :
  leaves_viewer (stop_streams env) -> preserves (viewer_is a b c) (stop_viewer env).
Proof.
  intros Hstop. unfold viewer_is. preserving; intros m e H; cbn [fst snd] in *.
  destruct (Hstop e) as (-> & -> & ->). exact H.
Qed.

Lemma start_viewer_keeps_viewer (a b c : bool) (w h fps : Z) :
  leaves_viewer (play_streams env) ->
  preserves (viewer_is a b c) (start_viewer env w h fps).
Proof.
  intros Hplay. unfold viewer_is.
  preserving; intros m e H; cbn [fst snd] in *; try exact H.
  destruct (Hplay e) as (-> & -> & ->). exact H.
Qed.

(** a call that, when it ends normally, has set [_done] and full progress *)
Definition ends_done (m : prog unit) : Prop :=
  forall st st', m st = (Ok tt, st') ->
    _progress (fst st') = 100 /\ _done (fst st') = true.

Lemma ends_done_bind {A} (m : prog A) (k : A -> prog unit) :
  (forall a, ends_done (k a)) -> ends_done (m ≫= k).
Proof.
  intros Hk st st' H. apply bind_ok_inv in H as (a & s1 & _ & H).
  exact (Hk a s1 st' H).
Qed.

Lemma process_flow_ends_done : ends_done (process_flow env).
Proof.
  unfold process_flow. do 24 (apply ends_done_bind; intros ?).
  intros st st' H. unfold mbind, workspace_bind, bind, update_manager in H.
  injection H as <-. split; reflexivity.
Qed.

Lemma process_flow_saves (st st' : state) :
  leaves_viewer (stop_streams env) ->
  leaves_viewer (get_calibration_table env) ->
  process_flow env st = (Ok tt, st') ->
  saved_is (is_3d_view (snd st)) (synchronization_enable (snd st))
           (post_processing_enabled (snd st)) st'.
Proof.
  intros Hstop Hcal H. unfold process_flow in H.
  apply bind_ok_inv in H as (m & s0 & H0 & H).
  unfold the_manager in H0. injection H0 as <- <-. cbv zeta in H.
  apply bind_ok_inv in H as ([] & s1 & H1 & H).
  assert (Hs1 : viewer_is (is_3d_view (snd st)) (synchronization_enable (snd st))
                  (post_processing_enabled (snd st)) s1).
  { pose proof (preserves_when _ (is_action (fst st) RS2_CALIB_ACTION_FL_CALIB
                                  || is_action (fst st) RS2_CALIB_ACTION_UVMAPPING_CALIB)
                  _ (stop_viewer_keeps_viewer (is_3d_view (snd st))
                       (synchronization_enable (snd st))
                       (post_processing_enabled (snd st)) Hstop) st) as Hp.
    rewrite H1 in Hp. apply Hp. repeat split. }
  destruct Hs1 as (H3d & Hsync & Hpp).
  apply bind_ok_inv in H as (e & s2 & H2 & H).
  unfold the_external in H2. injection H2 as <- <-.
  apply bind_ok_inv in H as ([] & s3 & H3 & H).
  unfold update_manager in H3. injection H3 as <-.
  apply bind_ok_inv in H as ([] & s4 & H4 & H).
  unfold update_external in H4. injection H4 as <-. cbn [fst snd] in H.
  apply bind_ok_inv in H as ([] & s5 & H5 & H).
  unfold call in H5. cbn [fst snd] in H5.
  match type of H5 with context [get_calibration_table env ?x] =>
    pose proof (Hcal x) as (_ & Hc2 & Hc3);
    destruct (get_calibration_table env x) as [r e5]
  end.
  injection H5 as -> <-. cbn [snd synchronization_enable post_processing_enabled
                              set_is_3d_view] in Hc2, Hc3.
  apply bind_ok_inv in H as (e & s6 & H6 & H).
  unfold the_external in H6. injection H6 as <- <-. cbn [fst snd] in H.
  do 3 (apply bind_ok_inv in H as ([] & ? & Hu & H);
        unfold update_manager in Hu; injection Hu as <-; cbn [fst snd] in H).
  do 2 (apply bind_ok_inv in H as ([] & ? & Hu & H);
        unfold update_external in Hu; injection Hu as <-; cbn [fst snd] in H).
  apply bind_ok_inv in H as ([] & ? & Hu & H).
  unfold update_manager in Hu. injection Hu as <-. cbn [fst snd] in H.
  match type of H with ?rest ?s = _ =>
    assert (Hp : preserves
                   (saved_is (is_3d_view (snd st)) (synchronization_enable (snd st))
                      (post_processing_enabled (snd st))) rest);
    [| specialize (Hp s); rewrite H in Hp; apply Hp ]
  end.
  - unfold saved_is. preserving; intros m0 e0 Hq; cbn [fst snd] in *; exact Hq.
  - unfold saved_is. cbn. rewrite Hc2, Hc3. auto.
Qed.

Lemma preserves_ok {A} (Q : state -> Prop) (m : prog A) (st st' : state) (a : A) :
  preserves Q m -> Q st -> m st = (Ok a, st') -> Q st'.
Proof. intros Hp Hq H. specialize (Hp st Hq). rewrite H in Hp. exact Hp. Qed.

Lemma restoring_gives_back (st st' : state) :
  leaves_viewer (stop_streams env) ->
  leaves_viewer (play_streams env) ->
  restoring env (fst st) st = (Ok tt, st') ->
  viewer_is (_in_3d_view (fst st)) (_synchronized (fst st))
            (_post_processing (fst st)) st'.
Proof.
  intros Hstop Hplay H. unfold restoring in H.
  destruct st as [m e]. cbn [fst] in *.
  pose (Q := viewer_is (_in_3d_view m) (_synchronized m) (post_processing_enabled e)).
  pose (Q' := viewer_is (_in_3d_view m) (_synchronized m) (_post_processing m)).
  assert (Hui : forall a b c, preserves (viewer_is a b c) restore_ui).
  { intros. unfold viewer_is. preserving; intros m0 e0 Hq; exact Hq. }
  assert (Huc : forall a b c, preserves (viewer_is a b c) restore_ui_color).
  { intros. unfold viewer_is. preserving; intros m0 e0 Hq; exact Hq. }
  apply bind_ok_inv in H as ([] & s1 & H1 & H).
  unfold update_external in H1. injection H1 as <-. cbn [fst snd] in H.
  apply bind_ok_inv in H as ([] & s2 & H2 & H).
  unfold update_external in H2. injection H2 as <-. cbn [fst snd] in H.
  apply bind_ok_inv in H as ([] & s3 & H3 & H).
  assert (Hq3 : Q s3).
  { refine (preserves_ok Q _ _ _ _ (stop_viewer_keeps_viewer _ _ _ Hstop) _ H3).
    repeat split. }
  apply bind_ok_inv in H as ([] & s4 & H4 & H).
  pose proof (preserves_ok Q _ _ _ _ (Hui _ _ _) Hq3 H4) as Hq4.
  apply bind_ok_inv in H as ([] & s5 & H5 & H).
  pose proof (preserves_ok Q _ _ _ _ (preserves_when _ _ _ (Huc _ _ _)) Hq4 H5) as Hq5.
  apply bind_ok_inv in H as ([] & s6 & H6 & H).
  unfold update_external in H6. injection H6 as <-.
  assert (Hq6 : Q' (fst s5, set_post_processing_enabled (_post_processing m) (snd s5))).
  { destruct Hq5 as (? & ? & _). repeat split; assumption. }
  apply bind_ok_inv in H as ([] & s7 & H7 & H).
  assert (Hq7 : Q' s7).
  { refine (preserves_ok Q' _ _ _ _ (preserves_when _ _ _ _) Hq6 H7).
    apply preserves_bind;
      [apply start_viewer_keeps_viewer; exact Hplay | intros; apply preserves_ret]. }
  refine (preserves_ok Q' _ _ _ _ _ Hq7 H).
  apply preserves_update_manager. intros m0 e0 Hq. exact Hq.
Qed.

Lemma restore_workspace_gives_back (st st' : state) :
  leaves_viewer (stop_streams env) ->
  leaves_viewer (play_streams env) ->
  _restored (fst st) = false ->
  restore_workspace env st = (Ok tt, st') ->
  viewer_is (_in_3d_view (fst st)) (_synchronized (fst st))
            (_post_processing (fst st)) st'.
Proof.
  intros Hstop Hplay Hr H. rewrite restore_workspace_unfold, Hr in H.
  pose proof (restoring_no_throw env (fst st) st) as Hnt.
  destruct (restoring env (fst st) st) as [[[]|w|] s1] eqn:Hrest.
  - injection H as <-. exact (restoring_gives_back st s1 Hstop Hplay Hrest).
  - destruct (Hnt w eq_refl).
  - discriminate.
Qed.

(** X8.  When stopping the streams and reading the calibration table leave
    the viewer's switches alone, a [process_flow] that ends normally has
    copied the 3D-view, synchronisation and post-processing switches it found
    into [_in_3d_view], [_synchronized] and [_post_processing], left
    [_restored] false, and set [_progress] to 100 and [_done]. *)
Theorem process_flow_on_success (st st' : state) :
  leaves_viewer (stop_streams env) ->
  leaves_viewer (get_calibration_table env) ->
  process_flow env st = (Ok tt, st') ->
  saved_is (is_3d_view (snd st)) (synchronization_enable (snd st))
           (post_processing_enabled (snd st)) st'
  /\ _progress (fst st') = 100 /\ _done (fst st') = true.
Proof.
  intros Hstop Hcal H. split.
  - exact (process_flow_saves st st' Hstop Hcal H).
  - exact (process_flow_ends_done st st' H).
Qed.

(** X9.  No exception leaves [restore_workspace].  When stopping and starting
    the streams leave the viewer's switches alone, a call with [_restored]
    false that ends normally leaves the viewer's 3D-view, synchronisation and
    post-processing switches at the saved values and [_restored] true, and a
    second call changes nothing. *)
Theorem restore_workspace_gives_viewer_back (st st' : state) :
  (forall w, fst (restore_workspace env st) <> Raise w)
  /\ (leaves_viewer (stop_streams env) ->
      leaves_viewer (play_streams env) ->
      _restored (fst st) = false ->
      restore_workspace env st = (Ok tt, st') ->
      viewer_is (_in_3d_view (fst st)) (_synchronized (fst st))
                (_post_processing (fst st)) st'
      /\ _restored (fst st') = true
      /\ restore_workspace env st' = (Ok tt, st')).
Proof.
  split; [exact (restore_workspace_swallows env st)|].
  intros Hstop Hplay Hr H.
  split; [exact (restore_workspace_gives_back st st' Hstop Hplay Hr H)|].
  pose proof (restore_workspace_once env st st' H) as Honce.
  split; [|exact Honce].
  rewrite restore_workspace_unfold in Honce.
  destruct (_restored (fst st')) eqn:Hr'; [reflexivity|].
  rewrite restore_workspace_unfold, Hr in H.
  pose proof (restoring_no_throw env (fst st) st) as Hnt.
  pose proof (restoring_ends_restored env (fst st) st) as Hend.
  destruct (restoring env (fst st) st) as [[[]|w|] s1]; cbn in *.
  - injection H as <-. rewrite (Hend s1 eq_refl) in Hr'. discriminate.
  - destruct (Hnt w eq_refl).
  - discriminate.
Qed.

(** X10.  With collaborators that leave the viewer's switches alone, a
    [process_flow] followed by [restore_workspace], both ending normally,
    leaves the viewer's 3D-view, synchronisation and post-processing switches
    as they were before [process_flow]. *)
Theorem session_gives_viewer_back (st st' : state) :
  leaves_viewer (stop_streams env) ->
  leaves_viewer (play_streams env) ->
  leaves_viewer (get_calibration_table env) ->
  (process_flow env ≫= fun _ => restore_workspace env) st = (Ok tt, st') ->
  is_3d_view (snd st') = is_3d_view (snd st)
  /\ synchronization_enable (snd st') = synchronization_enable (snd st)
  /\ post_processing_enabled (snd st') = post_processing_enabled (snd st).
Proof.
  intros Hstop Hplay Hcal H.
  apply bind_ok_inv in H as ([] & s1 & Hflow & Hrest).
  destruct (process_flow_saves st s1 Hstop Hcal Hflow) as (H3d & Hsync & Hpp & Hr).
  pose proof (restore_workspace_gives_back s1 st' Hstop Hplay Hr Hrest) as Hback.
  rewrite H3d, Hsync, Hpp in Hback. exact Hback.
Qed.

Lemma bind_raise {A B} (m : prog A) (k : A -> prog B) (st st' : state) (w : string) :
  m st = (Raise w, st') -> (m ≫= k) st = (Raise w, st').
Proof. intros H. unfold mbind, workspace_bind, bind. rewrite H. reflexivity. Qed.

Lemma when_stop_viewer_ok (b : bool) (st : state) :
  (forall e, fst (stop_streams env e) <> Crash) ->
  exists e', when b (stop_viewer env) st = (Ok tt, (fst st, e')).
Proof.
  intros Hstop. destruct b; cbn [when]; [|exists (snd st); destruct st; reflexivity].
  unfold stop_viewer, try_catch, call, ret. specialize (Hstop (snd st)).
  destruct (stop_streams env (snd st)) as [[[]|w|] e']; cbn in *.
  - exists e'. reflexivity.
  - exists e'. reflexivity.
  - destruct (Hstop eq_refl).
Qed.

(** X26.  When the calibration table can be read (and stopping the streams
    does not crash), [process_flow] leaves [_restored] false however it ends
    -- normally, by an exception of any later step, or worse -- so that a
    following [restore_workspace] does its work. *)
Theorem process_flow_marks_unrestored (st : state) :
  (forall e, fst (stop_streams env e) <> Crash) ->
  (forall e, fst (get_calibration_table env e) = Ok tt) ->
  _restored (fst (snd (process_flow env st))) = false.
Proof.
  intros Hstop Hcal. unfold process_flow.
  rewrite (bind_ok the_manager _ st st (fst st) eq_refl). cbv zeta.
  destruct (when_stop_viewer_ok
              (is_action (fst st) RS2_CALIB_ACTION_FL_CALIB
               || is_action (fst st) RS2_CALIB_ACTION_UVMAPPING_CALIB) st Hstop)
    as [e1 H1].
  rewrite (bind_ok _ _ _ _ _ H1).
  do 3 (erewrite bind_ok by reflexivity; cbn [fst snd]).
  match goal with |- context [(call (get_calibration_table env) ≫= _) (?m, ?e)] =>
    pose proof (Hcal e) as Hg;
    rewrite (bind_ok (call (get_calibration_table env)) _ (m, e)
               (m, snd (get_calibration_table env e)) tt)
      by (unfold call; cbn [fst snd];
          destruct (get_calibration_table env e) as [r e5]; cbn in Hg |- *;
          rewrite Hg; reflexivity)
  end.
  do 7 (erewrite bind_ok by reflexivity; cbn [fst snd]).
  match goal with |- _restored (fst (snd (?rest ?s0))) = false =>
    apply (fun Hp : preserves (fun x => _restored (fst x) = false) rest => Hp s0)
  end.
  - preserving; intros m0 e0 Hq; cbn [fst snd] in *; exact Hq.
  - reflexivity.
Qed.

(** X27.  When reading the calibration table throws, [process_flow] ends by
    that exception with [_restored] as it was, but with the viewer's 3D
    switch already overwritten; a [restore_workspace] on a manager whose
    [_restored] was set then changes nothing, and the switch keeps the
    overwritten value. *)
Theorem process_flow_table_failure (st : state) (w : string) :
  (forall e, fst (stop_streams env e) <> Crash) ->
  (forall e, get_calibration_table env e = (Raise w, e)) ->
  let st' := snd (process_flow env st) in
  fst (process_flow env st) = Raise w
  /\ _restored (fst st') = _restored (fst st)
  /\ is_3d_view (snd st')
     = (if is_action (fst st) RS2_CALIB_ACTION_TARE_GROUND_TRUTH then false else true)
  /\ (_restored (fst st) = true -> restore_workspace env st' = (Ok tt, st')).
Proof.
  intros Hstop Hcal. cbv zeta. unfold process_flow.
  rewrite (bind_ok the_manager _ st st (fst st) eq_refl). cbv zeta.
  destruct (when_stop_viewer_ok
              (is_action (fst st) RS2_CALIB_ACTION_FL_CALIB
               || is_action (fst st) RS2_CALIB_ACTION_UVMAPPING_CALIB) st Hstop)
    as [e1 H1].
  rewrite (bind_ok _ _ _ _ _ H1).
  do 3 (erewrite bind_ok by reflexivity; cbn [fst snd]).
  match goal with |- context [(call (get_calibration_table env) ≫= _) (?m, ?e)] =>
    rewrite (bind_raise (call (get_calibration_table env)) _ (m, e) (m, e) w)
      by (unfold call; cbn [fst snd]; rewrite (Hcal e); reflexivity)
  end.
  cbn [fst snd]. split; [reflexivity|]. split; [reflexivity|].
  split; [reflexivity|].
  intros Hr. apply restore_workspace_when_idle. exact Hr.
Qed.

End SessionMore.


Lemma start_viewer_again_saves_zero_witness :
  Workspace.laser_status_prev
    (fst (snd (Session.start_viewer Session.cooperative 0 0 0
            (snd (Session.start_viewer Session.cooperative 0 0 0
                    (Session.fresh Workspace.RS2_CALIB_ACTION_ON_CHIP_CALIB,
                     Session.camera))))))
  = Session.zero.
Proof.
  refine (proj2 (proj1 (start_viewer_again_saves_zero Session.cooperative
                   0 0 0 0 0 0
                   (Session.fresh Workspace.RS2_CALIB_ACTION_ON_CHIP_CALIB,
                    Session.camera) _) _)).
  - intros e. repeat split.
  - reflexivity.
Defined.

(** a session on the cooperative camera, for the instances below *)
Definition idle_camera : Workspace.state :=
  (Session.fresh Workspace.RS2_CALIB_ACTION_ON_CHIP_CALIB, Session.camera).

Lemma cooperative_leaves_viewer :
  leaves_viewer (Session.stop_streams Session.cooperative)
  /\ leaves_viewer (Session.play_streams Session.cooperative)
  /\ leaves_viewer (Session.get_calibration_table Session.cooperative).
Proof. repeat split. Qed.

Lemma process_flow_on_success_witness :
  Workspace._done (fst (snd (Session.process_flow Session.cooperative idle_camera)))
  = true.
Proof.
  refine (proj2 (proj2 (process_flow_on_success Session.cooperative idle_camera
                          (snd (Session.process_flow Session.cooperative idle_camera))
                          _ _ _))).
  - apply cooperative_leaves_viewer.
  - apply cooperative_leaves_viewer.
  - vm_compute. reflexivity.
Defined.

Lemma restore_workspace_gives_viewer_back_witness :
  let st := snd (Session.process_flow Session.cooperative idle_camera) in
  let st' := snd (Session.restore_workspace Session.cooperative st) in
  Workspace._restored (fst st') = true.
Proof.
  cbv zeta.
  refine (proj1 (proj2 (proj2 (restore_workspace_gives_viewer_back Session.cooperative
            (snd (Session.process_flow Session.cooperative idle_camera))
            (snd (Session.restore_workspace Session.cooperative
                    (snd (Session.process_flow Session.cooperative idle_camera)))))
            _ _ _ _))).
  - apply cooperative_leaves_viewer.
  - apply cooperative_leaves_viewer.
  - vm_compute. reflexivity.
  - vm_compute. reflexivity.
Defined.

Lemma session_gives_viewer_back_witness :
  let st' := snd ((Session.process_flow Session.cooperative
                   ≫= fun _ => Session.restore_workspace Session.cooperative)
                    idle_camera) in
  Workspace.is_3d_view (snd st') = Workspace.is_3d_view (snd idle_camera).
Proof.
  cbv zeta.
  refine (proj1 (session_gives_viewer_back Session.cooperative idle_camera _ _ _ _ _)).
  - apply cooperative_leaves_viewer.
  - apply cooperative_leaves_viewer.
  - apply cooperative_leaves_viewer.
  - vm_compute. reflexivity.
Defined.

(** ** get_depth_metrics: failures, what the medians are, how far it reads *)

Section DepthMetricsMore.
Import DepthMetrics.







Lemma insert_sorted_perm (x : Flt.float) (l : list Flt.float) :
  insert_sorted x l ≡ₚ x :: l.
Proof.
  induction l as [|y l IH]; cbn [insert_sorted]; [reflexivity|].
  destruct (Flt.ltb y x); [|reflexivity].
  rewrite IH. apply Permutation_swap.
Qed.

Lemma sort_perm (l : list Flt.float) : sort l ≡ₚ l.
Proof.
  induction l as [|x l IH]; [reflexivity|].
  unfold sort. cbn [fold_right]. fold (sort l).
  rewrite insert_sorted_perm, IH. reflexivity.
Qed.

Lemma middle_cases (l : list Flt.float) :
  (l = [] /\ middle l = S754_zero false) \/ middle l ∈ l.
Proof.
  destruct l as [|x l]; [left; split; reflexivity|]. right. unfold middle.
  destruct (lookup_lt_is_Some_2 (x :: l) (length (x :: l) / 2)) as [y Hy].
  - apply Nat.div_lt; cbn [length]; lia.
  - rewrite Hy. exact (list_elem_of_lookup_2 _ _ _ Hy).
Qed.

Lemma middle_sort_cases (l : list Flt.float) :
  (l = [] /\ middle (sort l) = S754_zero false) \/ middle (sort l) ∈ l.
Proof.
  destruct (middle_cases (sort l)) as [[Hnil Hz]|Hin].
  - left. split; [|exact Hz].
    apply Permutation_nil_r. rewrite <- Hnil. symmetry. apply sort_perm.
  - right. revert Hin. generalize (middle (sort l)). intros x Hin.
    rewrite <- (sort_perm l). exact Hin.
Qed.

Lemma fills_of_elem (fs : list frame_sample) (x : Flt.float) :
  x ∈ fills_of fs -> exists rms, Sample x rms ∈ fs.
Proof.
  induction fs as [|f fs IH]; intros H.
  - apply elem_of_nil in H. destruct H.
  - destruct (collect_app [f] fs) as [Ha _]. cbn [app] in Ha. rewrite Ha in H.
    apply elem_of_app in H as [H|H].
    + destruct f as [|fill [rms|]]; cbn in H.
      * apply elem_of_nil in H. destruct H.
      * apply list_elem_of_singleton in H as ->. eexists. left.
      * apply list_elem_of_singleton in H as ->. eexists. left.
    + destruct (IH H) as [rms Hin]. exists rms. right. exact Hin.
Qed.

Lemma rmses_of_elem (fs : list frame_sample) (x : Flt.float) :
  x ∈ rmses_of fs -> exists fill, Sample fill (Some x) ∈ fs.
Proof.
  induction fs as [|f fs IH]; intros H.
  - apply elem_of_nil in H. destruct H.
  - destruct (collect_app [f] fs) as [_ Hb]. cbn [app] in Hb. rewrite Hb in H.
    apply elem_of_app in H as [H|H].
    + destruct f as [|fill [rms|]]; cbn in H.
      * apply elem_of_nil in H. destruct H.
      * apply list_elem_of_singleton in H as ->. eexists. left.
      * apply elem_of_nil in H. destruct H.
    + destruct (IH H) as [fill Hin]. exists fill. right. exact Hin.
Qed.

Lemma last_in_concat {A} (bs : list (list A)) (x : A) :
  x ∈ default [] (last bs) -> x ∈ concat bs.
Proof.
  induction bs as [|b bs IH]; cbn [last default concat]; intros H.
  - exact H.
  - destruct bs as [|b' bs].
    + cbn [last default] in H. cbn [concat]. rewrite app_nil_r. exact H.
    + apply elem_of_app. right. apply IH. exact H.
Qed.

(** X12.  The two values [get_depth_metrics] returns are never computed:
    the fill rate is the fill rate reported for one of the frames after the
    first, and the RMS is the RMS reported for one of them -- or the value
    is 0, when no analysed frame reported one. *)
Theorem get_depth_metrics_returns_samples (frames : list frame_sample)
        (mf mr : Flt.float) :
  get_depth_metrics frames = Returns (mf, mr) ->
  (mf = S754_zero false \/ exists rms, Sample mf rms ∈ drop 1 frames)
  /\ (mr = S754_zero false \/ exists fill, Sample fill (Some mr) ∈ drop 1 frames).
Proof.
  intros H. unfold get_depth_metrics in H.
  apply bind_returns in H as ([[mf' mr'] seen] & Ht & H). injection H as <- <-.
  apply traced_spec in Ht as (_ & _ & [rest Hpre] & Hm).
  unfold median_all_fill_last_rms in Hm. injection Hm as -> ->.
  rewrite Hpre. split.
  - destruct (middle_sort_cases (fills_of (concat seen))) as [[_ Hz]|Hin];
      [left; exact Hz | right].
    destruct (fills_of_elem _ _ Hin) as [rms Hs]. exists rms.
    apply elem_of_app. left. exact Hs.
  - destruct (middle_sort_cases (rmses_of (default [] (last seen)))) as [[_ Hz]|Hin];
      [left; exact Hz | right].
    destruct (rmses_of_elem _ _ Hin) as [fill Hs]. exists fill.
    apply elem_of_app. left. apply last_in_concat. exact Hs.
Qed.

Lemma get_depth_metrics_returns_samples_witness :
  (Flt.of_Z32 80 = S754_zero false
   \/ exists rms, Sample (Flt.of_Z32 80) rms ∈ drop 1 (replicate 32 steady))
  /\ (Flt.of_Z32 2 = S754_zero false
      \/ exists fill, Sample fill (Some (Flt.of_Z32 2)) ∈ drop 1 (replicate 32 steady)).
Proof.
  apply (get_depth_metrics_returns_samples (replicate 32 steady)
           (Flt.of_Z32 80) (Flt.of_Z32 2)).
  vm_compute. reflexivity.
Defined.

(** the same vectors on a stream with more frames behind *)
Definition extend (more : list frame_sample) (v : vectors) : vectors :=
  {| stream := stream v ++ more; fill_rates := fill_rates v; rmses := rmses v |}.

Lemma bundle_extend (n : nat) (v v' : vectors) (more : list frame_sample) :
  bundle n v = Returns v' -> bundle n (extend more v) = Returns (extend more v').
Proof.
  revert v. induction n as [|n IH]; intros v H.
  - injection H as <-. reflexivity.
  - cbn [bundle] in *. cbn [extend stream fill_rates rmses].
    destruct (stream v) as [|f rest] eqn:Hs; [discriminate|].
    cbn in *. destruct (on_frame f (fill_rates v) (rmses v)) as [fr rm].
    exact (IH _ H).
Qed.

Lemma bundles_extend (retries : nat) (std : Flt.float) (v v' : vectors)
      (seen seen' : list (list frame_sample)) (more : list frame_sample) :
  bundles retries std v seen = Returns (v', seen') ->
  bundles retries std (extend more v) seen = Returns (extend more v', seen').
Proof.
  revert std v seen. induction retries as [|retries IH]; intros std v seen H;
    cbn [bundles] in *; apply bind_returns in H as (v1 & Hb & H);
    pose proof (bundle_extend 31 _ v1 more Hb) as Hb';
    unfold extend in Hb' |- *; cbn [stream fill_rates rmses] in Hb' |- *;
    rewrite Hb';
    cbn [mbind outcome_bind Outcome.bind rmses];
    apply bundle_spec in Hb as (fs & Hlen & Hstream & _); cbn [stream] in Hstream;
    assert (Htake : take 31 (stream v ++ more) = take 31 (stream v))
      by (rewrite Hstream, <- app_assoc, <- Hlen, !take_app_length; reflexivity);
    rewrite Htake.
  - destruct (not_decent _ _); injection H as <- <-; reflexivity.
  - destruct (not_decent _ _); [|injection H as <- <-; reflexivity].
    exact (IH _ _ _ H).
Qed.

Lemma get_depth_metrics_extend (frames more : list frame_sample)
      (r : Flt.float * Flt.float) :
  get_depth_metrics frames = Returns r ->
  get_depth_metrics (frames ++ more) = Returns r.
Proof.
  unfold get_depth_metrics, get_depth_metrics_traced. intros H.
  destruct frames as [|f frames]; [discriminate|].
  cbn [app fetch_depth_frame mbind outcome_bind Outcome.bind] in *.
  destruct (bundles 10 _ _ _) as [[v seen]| | |] eqn:Hb; try discriminate.
  apply (bundles_extend _ _ _ _ _ _ more) in Hb.
  unfold extend in Hb. cbn [stream fill_rates rmses] in Hb. rewrite Hb.
  cbn [mbind outcome_bind Outcome.bind fill_rates rmses] in *. exact H.
Qed.

(** X13.  [get_depth_metrics] never looks past the 342nd frame: a result it
    returns is the result on every longer stream, and on a stream of 342
    frames or more it is the result on the first 342. *)
Theorem get_depth_metrics_reads_342 (frames more : list frame_sample) :
  (forall r, get_depth_metrics frames = Returns r ->
             get_depth_metrics (frames ++ more) = Returns r)
  /\ ((342 <= length frames)%nat ->
      get_depth_metrics frames = get_depth_metrics (take 342 frames)).
Proof.
  split; [intros r; apply get_depth_metrics_extend|].
  intros Hlen.
  assert (Hret : exists r, get_depth_metrics (take 342 frames) = Returns r).
  { unfold get_depth_metrics, get_depth_metrics_traced.
    destruct frames as [|f frames]; [simpl in Hlen; lia|].
    cbn [take fetch_depth_frame mbind outcome_bind Outcome.bind].
    destruct (bundles_returns 10 (Flt.of_Z32 1000)
                {| stream := take 341 frames; fill_rates := []; rmses := [] |} [])
      as [[v seen] Hb].
    { cbn [stream]. rewrite length_take. simpl in Hlen. lia. }
    rewrite Hb. eexists. reflexivity. }
  destruct Hret as [r Hr]. rewrite Hr.
  rewrite <- (take_drop 342 frames) at 1.
  apply get_depth_metrics_extend. exact Hr.
Qed.

Lemma get_depth_metrics_reads_342_witness :
  get_depth_metrics (replicate 343 steady)
  = get_depth_metrics (take 342 (replicate 343 steady)).
Proof.
  apply (proj2 (get_depth_metrics_reads_342 (replicate 343 steady) [])).
  rewrite length_replicate. lia.
Defined.

End DepthMetricsMore.

(** ** The stream selection of start_viewer: what the ids point at *)

Section StreamConfigMore.
Import StreamConfig.

Variable supported : Z -> Z -> bool.

(** a look-up either finds nothing and keeps the selection, or selects an
    entry that matches *)
Lemma select_matching_cases {A} (p : A -> bool) (v : list A) (i sel : Z) :
  (select_matching p v i sel = sel /\ forall x, x ∈ v -> p x = false)
  \/ exists (j : nat) (x : A),
       select_matching p v i sel = i + Z.of_nat j /\ v !! j = Some x /\ p x = true.
Proof.
  revert i sel. induction v as [|y v IH]; intros i sel; cbn [select_matching].
  - left. split; [reflexivity|]. intros x Hx. apply elem_of_nil in Hx. destruct Hx.
  - destruct (IH (i + 1) (if p y then i else sel)) as [[Heq Hnone]|(j & x & Heq & Hj & Hp)].
    + destruct (p y) eqn:Hy.
      * right. exists 0%nat, y. rewrite Heq. split; [lia|]. split; [reflexivity | exact Hy].
      * left. split; [exact Heq|]. intros x Hx.
        apply elem_of_cons in Hx as [->|Hx]; [exact Hy | exact (Hnone x Hx)].
    + right. exists (S j), x. rewrite Heq. split; [lia|]. split; [exact Hj | exact Hp].
Qed.

(** both ids point into their lists *)
Definition valid_selection (s : subdevice) : Prop :=
  (0 <= selected_shared_fps_id s < Z.of_nat (length (shared_fps_values s)))
  /\ (0 <= selected_res_id s < Z.of_nat (length (res_values s))).

Lemma select_matching_range {A} (p : A -> bool) (v : list A) (sel : Z) :
  0 <= sel < Z.of_nat (length v) ->
  0 <= select_matching p v 0 sel < Z.of_nat (length v).
Proof.
  intros Hsel.
  destruct (select_matching_cases p v 0 sel) as [[-> _]|(j & x & -> & Hj & _)];
    [exact Hsel|].
  apply lookup_lt_Some in Hj. lia.
Qed.

Lemma sweep_fps_values (n : nat) (i : Z) (s : subdevice) :
  shared_fps_values (sweep_fps supported n i s) = shared_fps_values s.
Proof.
  revert i s. induction n as [|n IH]; intros i s; cbn [sweep_fps]; [reflexivity|].
  destruct (is_selected_combination_supported supported (set_fps_id i s));
    [reflexivity | rewrite IH; reflexivity].
Qed.

Lemma sweep_fps_range (n : nat) (i : Z) (s : subdevice) :
  selected_shared_fps_id (sweep_fps supported n i s) = selected_shared_fps_id s
  \/ i <= selected_shared_fps_id (sweep_fps supported n i s) < i + Z.of_nat n.
Proof.
  revert i s. induction n as [|n IH]; intros i s; cbn [sweep_fps]; [left; reflexivity|].
  destruct (is_selected_combination_supported supported (set_fps_id i s)).
  - right. cbn. lia.
  - destruct (IH (i + 1) (set_fps_id i s)) as [->|H]; right; cbn; lia.
Qed.

Lemma requested_valid (w h fps : Z) (s : subdevice) :
  valid_selection s -> valid_selection (requested w h fps s).
Proof.
  intros [Hf Hr]. unfold requested, valid_selection. cbn. split.
  - apply select_matching_range. exact Hf.
  - apply select_matching_range. exact Hr.
Qed.

(** X14.  The stream selection of [start_viewer] never changes the lists of
    frame rates and resolutions, and ids that pointed into them before still
    do afterwards, whichever of the look-up, the sweep and the 640x480
    fall-back set them. *)
Theorem select_stream_in_range (w h fps : Z) (s : subdevice) :
  let out := select_stream supported w h fps s in
  shared_fps_values out = shared_fps_values s
  /\ res_values out = res_values s
  /\ (valid_selection s -> valid_selection out).
Proof.
  cbv zeta. unfold select_stream.
  set (r := requested w h fps s).
  assert (Hrf : shared_fps_values r = shared_fps_values s) by reflexivity.
  assert (Hrr : res_values r = res_values s) by reflexivity.
  destruct (is_selected_combination_supported supported r); cbn [negb].
  { split; [exact Hrf|]. split; [exact Hrr|]. apply requested_valid. }
  set (sw := sweep_fps supported (length (shared_fps_values r)) 0 r).
  destruct (sweep_fps_res supported (length (shared_fps_values r)) 0 r) as [Hsr Hsv].
  pose proof (sweep_fps_values (length (shared_fps_values r)) 0 r) as Hsf.
  pose proof (sweep_fps_range (length (shared_fps_values r)) 0 r) as Hrange.
  fold sw in Hsr, Hsv, Hsf, Hrange.
  assert (Hvalid : valid_selection s -> valid_selection sw).
  { intros Hs. destruct (requested_valid w h fps s Hs) as [Hf Hr]. fold r in Hf, Hr.
    split.
    - rewrite Hsf. destruct Hrange as [->|Hin]; [exact Hf | lia].
    - rewrite Hsr, Hsv. exact Hr. }
  destruct (is_selected_combination_supported supported sw); cbn [negb].
  - split; [congruence|]. split; [congruence | exact Hvalid].
  - cbn [set_res_id shared_fps_values res_values].
    split; [congruence|]. split; [congruence|].
    intros Hs. destruct (Hvalid Hs) as [Hf Hr]. split; [exact Hf|].
    cbn. apply select_matching_range. exact Hr.
Qed.

(** X15.  The look-up of the requested values: when the sensor lists the
    frame rate, the selected frame-rate entry holds it, and when it lists the
    resolution, the selected resolution entry holds it; a value that is not
    listed leaves the id as it was.  When that combination is supported, it
    is what [select_stream] selects. *)
Theorem select_stream_lookup (w h fps : Z) (s : subdevice) :
  let r := requested w h fps s in
  (fps ∈ shared_fps_values s ->
   shared_fps_values s !! Z.to_nat (selected_shared_fps_id r) = Some fps)
  /\ (fps ∉ shared_fps_values s ->
      selected_shared_fps_id r = selected_shared_fps_id s)
  /\ ((w, h) ∈ res_values s ->
      res_values s !! Z.to_nat (selected_res_id r) = Some (w, h))
  /\ ((w, h) ∉ res_values s -> selected_res_id r = selected_res_id s)
  /\ (is_selected_combination_supported supported r = true ->
      select_stream supported w h fps s = r).
Proof.
  cbv zeta. unfold requested at 1 2 3 4. cbn [set_res_id set_fps_id
    selected_shared_fps_id selected_res_id res_values shared_fps_values].
  split; [|split; [|split; [|split]]].
  - intros Hin.
    destruct (select_matching_cases (Z.eqb fps) (shared_fps_values s) 0
                (selected_shared_fps_id s)) as [[_ Hnone]|(j & x & -> & Hj & Hp)].
    + specialize (Hnone fps Hin). rewrite Z.eqb_refl in Hnone. discriminate.
    + apply Z.eqb_eq in Hp. subst x.
      replace (Z.to_nat (0 + Z.of_nat j)) with j by lia. exact Hj.
  - intros Hnot. apply select_matching_none. intros x Hx.
    destruct (Z.eqb_spec fps x) as [->|]; [contradiction | reflexivity].
  - intros Hin.
    destruct (select_matching_cases (res_eqb w h) (res_values s) 0
                (selected_res_id s)) as [[_ Hnone]|(j & x & -> & Hj & Hp)].
    + specialize (Hnone (w, h) Hin).
      rewrite (proj2 (res_eqb_true w h (w, h)) eq_refl) in Hnone. discriminate.
    + apply res_eqb_true in Hp. subst x.
      replace (Z.to_nat (0 + Z.of_nat j)) with j by lia. exact Hj.
  - intros Hnot. apply select_matching_none. intros x Hx.
    destruct (res_eqb w h x) eqn:Hp; [|reflexivity].
    apply res_eqb_true in Hp. subst x. contradiction.
  - intros Hsup. unfold select_stream. rewrite Hsup. reflexivity.
Qed.

End StreamConfigMore.

Lemma select_stream_in_range_witness :
  valid_selection
    (StreamConfig.select_stream (fun _ _ => false) 848 480 30
       (Workspace.sub Session.camera)).
Proof.
  apply (select_stream_in_range (fun _ _ => false) 848 480 30
           (Workspace.sub Session.camera)).
  split; cbn; lia.
Defined.

Lemma select_stream_lookup_witness :
  StreamConfig.res_values (Workspace.sub Session.camera)
    !! Z.to_nat (StreamConfig.selected_res_id
                   (StreamConfig.requested 1280 720 30 (Workspace.sub Session.camera)))
  = Some (1280, 720).
Proof.
  apply (select_stream_lookup (fun _ _ => true) 1280 720 30
           (Workspace.sub Session.camera)).
  cbn. do 6 apply list_elem_of_further. apply list_elem_of_here.
Defined.

(** ** uvmapping_calib: its constructor, and what calibrate accepts *)

Module UVMappingCtor.
Import UVMapping.

(** the five vectors while the constructor fills them *)
Record points := {
  pts_left_x : list Flt.float; pts_left_y : list Flt.float;
  pts_left_z : list Flt.float;
  pts_color_x : list Flt.float; pts_color_y : list Flt.float
}.

(** body of the constructor's loop; the [const float*] arguments are arrays
    of the length the caller gave them *)
Definition emplace (left_x left_y left_z color_x color_y : list Flt.float)
    (i : Z) (p : points) : outcome points :=
  lx ← at_ left_x i;
  ly ← at_ left_y i;
  lz ← at_ left_z i;
  cx ← at_ color_x i;
  cy ← at_ color_y i;
  Returns {| pts_left_x := pts_left_x p ++ [lx]; pts_left_y := pts_left_y p ++ [ly];
             pts_left_z := pts_left_z p ++ [lz];
             pts_color_x := pts_color_x p ++ [cx];
             pts_color_y := pts_color_y p ++ [cy] |}.

(** [uvmapping_calib::uvmapping_calib(pt_num, left_x, ..., extrin)] *)
Definition uvmapping_calib_ctor (pt_num : Z)
    (left_x left_y left_z color_x color_y : list Flt.float)
    (left_intrin color_intrin : rs2_intrinsics) (extrin : rs2_extrinsics)
  : outcome uvmapping_calib :=
  p ← for_loop (Z.to_nat pt_num) 0 (emplace left_x left_y left_z color_x color_y)
        {| pts_left_x := []; pts_left_y := []; pts_left_z := [];
           pts_color_x := []; pts_color_y := [] |};
  Returns {| _pt_num := pt_num;
             _left_x := pts_left_x p; _left_y := pts_left_y p;
             _left_z := pts_left_z p;
             _color_x := pts_color_x p; _color_y := pts_color_y p;
             _left_intrin := left_intrin; _color_intrin := color_intrin;
             _extrin := extrin |}.

(** not NaN and not an infinity *)
Definition is_number (x : Flt.float) : bool :=
  match x with
  | S754_zero _ | S754_finite _ _ _ => true
  | _ => false
  end.

End UVMappingCtor.

Section UVMappingMore.
Import UVMapping UVMappingCtor.

Variable rs2_deproject_pixel_to_point :
  rs2_intrinsics -> Flt.float * Flt.float -> Flt.float -> point3.
Variable rs2_transform_point_to_point : rs2_extrinsics -> point3 -> point3.
Variable _max_change : Flt.float.

#[local] Abbreviation calibrate :=
  (calibrate rs2_deproject_pixel_to_point rs2_transform_point_to_point _max_change).

Lemma within_max_change_numbers (a b : Flt.float) :
  within_max_change _max_change a b = true ->
  is_number a = true /\ is_number b = true.
Proof.
  unfold within_max_change, Flt.ltb, Flt.fabs, Flt.sub32.
  destruct a as [sa|sa| |sa ma ea], b as [sb|sb| |sb mb eb];
    try (intros _; split; reflexivity); intros H; exfalso; revert H;
    try destruct sa; try destruct sb;
    destruct _max_change as [st|st| |st mt et]; try destruct st;
    cbn; discriminate.
Qed.

(** the return value of a call that returns *)
Lemma calibrate_accepted (c : uvmapping_calib) (prior : params) (r : result) :
  calibrate c prior = Returns r ->
  accepted r
  = within_max_change _max_change (ppx (_color_intrin c)) (p_ppx (fitted r))
    && within_max_change _max_change (ppy (_color_intrin c)) (p_ppy (fitted r))
    && within_max_change _max_change (fx (_color_intrin c)) (p_fx (fitted r))
    && within_max_change _max_change (fy (_color_intrin c)) (p_fy (fitted r)).
Proof.
  unfold UVMapping.calibrate. intros H.
  apply bind_returns in H as ([[pts eb] s] & _ & H).
  destruct (solve_x s prior []) as [p1 log1].
  destruct (solve_y s p1 log1) as [p2 log2].
  apply bind_returns in H as (ea & _ & H). injection H as <-. reflexivity.
Qed.

(** X16.  [calibrate] never returns [true] for parameters that are not
    numbers: when it accepts, the fitted [ppx], [ppy], [fx], [fy] and the
    colour intrinsics they are compared with are all finite, whatever
    [_max_change] is. *)
Theorem calibrate_accepts_only_numbers (c : uvmapping_calib) (prior : params)
        (r : result) :
  calibrate c prior = Returns r -> accepted r = true ->
  (is_number (p_ppx (fitted r)) = true /\ is_number (p_ppy (fitted r)) = true
   /\ is_number (p_fx (fitted r)) = true /\ is_number (p_fy (fitted r)) = true)
  /\ (is_number (ppx (_color_intrin c)) = true
      /\ is_number (ppy (_color_intrin c)) = true
      /\ is_number (fx (_color_intrin c)) = true
      /\ is_number (fy (_color_intrin c)) = true).
Proof.
  intros Hr Hacc. rewrite (calibrate_accepted c prior r Hr) in Hacc.
  apply andb_true_iff in Hacc as [Hacc H4].
  apply andb_true_iff in Hacc as [Hacc H3].
  apply andb_true_iff in Hacc as [H1 H2].
  apply within_max_change_numbers in H1 as [? ?].
  apply within_max_change_numbers in H2 as [? ?].
  apply within_max_change_numbers in H3 as [? ?].
  apply within_max_change_numbers in H4 as [? ?].
  repeat split; assumption.
Qed.

Lemma at_returns (v : list Flt.float) (i : Z) (x : Flt.float) :
  at_ v i = Returns x -> 0 <= i /\ v !! Z.to_nat i = Some x.
Proof.
  unfold at_. destruct (Z.ltb_spec i 0); [discriminate|].
  destruct (v !! Z.to_nat i) as [y|]; [|discriminate].
  intros [= ->]. auto.
Qed.

Lemma at_past_end (v : list Flt.float) (i : Z) :
  0 <= i -> (length v <= Z.to_nat i)%nat -> at_ v i = Undefined (OutOfBounds i).
Proof.
  intros Hi Hlen. unfold at_. destruct (Z.ltb_spec i 0); [lia|].
  rewrite (lookup_ge_None_2 v (Z.to_nat i) Hlen). reflexivity.
Qed.

Lemma at_within (v : list Flt.float) (i : Z) :
  0 <= i -> (Z.to_nat i < length v)%nat -> exists x, at_ v i = Returns x.
Proof.
  intros Hi Hlen. unfold at_. destruct (Z.ltb_spec i 0); [lia|].
  destruct (lookup_lt_is_Some_2 v (Z.to_nat i) Hlen) as [x ->]. eexists. reflexivity.
Qed.

Section Ctor.

Variables left_x left_y left_z color_x color_y : list Flt.float.

(** after [k] rounds each vector holds the first [k] elements of its array *)
Definition filled (k : nat) (p : points) : Prop :=
  (pts_left_x p = take k left_x /\ (k <= length left_x)%nat)
  /\ (pts_left_y p = take k left_y /\ (k <= length left_y)%nat)
  /\ (pts_left_z p = take k left_z /\ (k <= length left_z)%nat)
  /\ (pts_color_x p = take k color_x /\ (k <= length color_x)%nat)
  /\ (pts_color_y p = take k color_y /\ (k <= length color_y)%nat).

Lemma take_one_more (v : list Flt.float) (k : nat) (x : Flt.float)
      (l : list Flt.float) :
  l = take k v -> v !! k = Some x ->
  l ++ [x] = take (S k) v /\ (S k <= length v)%nat.
Proof.
  intros -> Hx. split.
  - symmetry. apply take_S_r. exact Hx.
  - apply lookup_lt_Some in Hx. lia.
Qed.

Lemma emplace_filled (k : nat) (p p' : points) :
  filled k p ->
  emplace left_x left_y left_z color_x color_y (Z.of_nat k) p = Returns p' ->
  filled (S k) p'.
Proof.
  intros ((H1 & _) & (H2 & _) & (H3 & _) & (H4 & _) & (H5 & _)) H.
  unfold emplace in H.
  apply bind_returns in H as (lx & Hlx & H). apply at_returns in Hlx as [_ Hlx].
  apply bind_returns in H as (ly & Hly & H). apply at_returns in Hly as [_ Hly].
  apply bind_returns in H as (lz & Hlz & H). apply at_returns in Hlz as [_ Hlz].
  apply bind_returns in H as (cx & Hcx & H). apply at_returns in Hcx as [_ Hcx].
  apply bind_returns in H as (cy & Hcy & H). apply at_returns in Hcy as [_ Hcy].
  rewrite Nat2Z.id in *. injection H as <-. unfold filled. cbn.
  repeat split; eapply take_one_more; eassumption.
Qed.

Lemma emplace_loop_filled (n k : nat) (p p' : points) :
  filled k p ->
  for_loop n (Z.of_nat k) (emplace left_x left_y left_z color_x color_y) p
  = Returns p' ->
  filled (k + n) p'.
Proof.
  revert k p. induction n as [|n IH]; intros k p Hinv H; cbn [for_loop] in H.
  - injection H as <-. rewrite Nat.add_0_r. exact Hinv.
  - destruct (emplace _ _ _ _ _ (Z.of_nat k) p) as [p1| | |] eqn:Hstep;
      try discriminate.
    cbn [Outcome.bind] in H.
    replace (Z.of_nat k + 1) with (Z.of_nat (S k)) in H by lia.
    replace (k + S n)%nat with (S k + n)%nat by lia.
    apply (IH (S k) p1); [|exact H].
    exact (emplace_filled k p p1 Hinv Hstep).
Qed.

Lemma ctor_filled (pt_num : Z) (li ci : rs2_intrinsics) (ex : rs2_extrinsics)
      (c : uvmapping_calib) :
  uvmapping_calib_ctor pt_num left_x left_y left_z color_x color_y li ci ex
  = Returns c ->
  filled (Z.to_nat pt_num)
    {| pts_left_x := _left_x c; pts_left_y := _left_y c; pts_left_z := _left_z c;
       pts_color_x := _color_x c; pts_color_y := _color_y c |}
  /\ _pt_num c = pt_num /\ _left_intrin c = li /\ _color_intrin c = ci
  /\ _extrin c = ex.
Proof.
  unfold uvmapping_calib_ctor. intros H.
  apply bind_returns in H as (p & Hloop & H). injection H as <-. cbn.
  split; [|auto].
  apply (emplace_loop_filled (Z.to_nat pt_num) 0) in Hloop.
  - destruct p. exact Hloop.
  - unfold filled. cbn. repeat split; lia.
Qed.

End Ctor.

Lemma for_loop_stops {St} (k n : nat) (first : Z) (body : Z -> St -> outcome St)
      (s : St) (u : undefined) :
  (k < n)%nat ->
  (forall j s, first <= j < first + Z.of_nat k -> exists s', body j s = Returns s') ->
  (forall s, body (first + Z.of_nat k) s = Undefined u) ->
  for_loop n first body s = Undefined u.
Proof.
  revert n first s. induction k as [|k IH]; intros n first s Hlt Hok Hbad;
    (destruct n as [|n]; [lia|]); cbn [for_loop].
  - replace (first + Z.of_nat 0) with first in Hbad by lia.
    rewrite Hbad. reflexivity.
  - destruct (Hok first s ltac:(lia)) as [s1 ->]. cbn [Outcome.bind].
    apply IH; [lia | |].
    + intros j s2 Hj. apply Hok. lia.
    + intros s2. replace (first + 1 + Z.of_nat k) with (first + Z.of_nat (S k)) by lia.
      apply Hbad.
Qed.

(** X17.  A [uvmapping_calib] built from [pt_num] points holds, in each of
    its five vectors, the first [pt_num] elements of the array it was given.
    [calibrate] reads four points whatever [pt_num] was: built from fewer
    than four it indexes the vectors past their end, built from four or more
    (and with the colour model it asserts) it returns. *)
Theorem uvmapping_calib_needs_four_points (pt_num : Z)
        (left_x left_y left_z color_x color_y : list Flt.float)
        (li ci : rs2_intrinsics) (ex : rs2_extrinsics)
        (c : uvmapping_calib) (prior : params) :
  uvmapping_calib_ctor pt_num left_x left_y left_z color_x color_y li ci ex
  = Returns c ->
  model ci = RS2_DISTORTION_INVERSE_BROWN_CONRADY ->
  (_left_x c = take (Z.to_nat pt_num) left_x
   /\ _left_y c = take (Z.to_nat pt_num) left_y
   /\ _left_z c = take (Z.to_nat pt_num) left_z
   /\ _color_x c = take (Z.to_nat pt_num) color_x
   /\ _color_y c = take (Z.to_nat pt_num) color_y
   /\ length (_left_x c) = Z.to_nat pt_num)
  /\ (0 <= pt_num < 4 -> calibrate c prior = Undefined (OutOfBounds pt_num))
  /\ (4 <= pt_num -> returned (calibrate c prior)).
Proof.
  intros Hctor Hmodel.
  apply ctor_filled in Hctor
    as (((H1 & L1) & (H2 & L2) & (H3 & L3) & (H4 & L4) & (H5 & L5))
        & _ & _ & Hci & _).
  cbn in H1, H2, H3, H4, H5.
  assert (Len : forall v w : list Flt.float, v = take (Z.to_nat pt_num) w ->
                            (Z.to_nat pt_num <= length w)%nat ->
                            length v = Z.to_nat pt_num).
  { intros v w -> Hle. rewrite length_take. lia. }
  pose proof (Len _ _ H1 L1) as N1. pose proof (Len _ _ H2 L2) as N2.
  pose proof (Len _ _ H3 L3) as N3. pose proof (Len _ _ H4 L4) as N4.
  pose proof (Len _ _ H5 L5) as N5.
  split; [auto 10|]. split.
  - intros Hn. unfold UVMapping.calibrate, UVMapping.moments.
    rewrite (for_loop_stops (Z.to_nat pt_num) 4 0 _ [] (OutOfBounds pt_num));
      [reflexivity | lia | |].
    + intros j acc Hj. unfold project.
      destruct (at_within (_left_x c) j) as [lx ->]; [lia | lia |].
      destruct (at_within (_left_y c) j) as [ly ->]; [lia | lia |].
      destruct (at_within (_left_z c) j) as [lz ->]; [lia | lia |].
      cbn [mbind outcome_bind Outcome.bind].
      destruct (rs2_transform_point_to_point _ _) as [[pc0 pc1] pc2].
      rewrite Hci, Hmodel. cbn. eexists. reflexivity.
    + intros acc. unfold project.
      replace (0 + Z.of_nat (Z.to_nat pt_num)) with pt_num by lia.
      rewrite (at_past_end (_left_x c) pt_num); [reflexivity | lia | lia].
  - intros Hn.
    destruct (calibrate_returns rs2_deproject_pixel_to_point
                rs2_transform_point_to_point _max_change c prior)
      as (pts & eb & s0 & ea & _ & _ & ->).
    + unfold four_points. lia.
    + unfold asserted_model. rewrite Hci. exact Hmodel.
    + exact I.
Qed.

End UVMappingMore.

Lemma calibrate_accepts_only_numbers_witness :
  exists r,
    UVMapping.calibrate UVMappingExample.pinhole UVMappingExample.same_frame
      (Flt.of_Z32 1000) UVMappingExample.four UVMappingExample.prior = Returns r
    /\ UVMappingCtor.is_number (UVMapping.p_fy (UVMapping.fitted r)) = true.
Proof.
  assert (Hr : exists r,
             UVMapping.calibrate UVMappingExample.pinhole UVMappingExample.same_frame
               (Flt.of_Z32 1000) UVMappingExample.four UVMappingExample.prior
             = Returns r
             /\ UVMapping.accepted r = true).
  { eexists. split; [vm_compute; reflexivity | reflexivity]. }
  destruct Hr as (r & Hr & Hacc). exists r. split; [exact Hr|].
  exact (proj2 (proj2 (proj2 (proj1
           (calibrate_accepts_only_numbers UVMappingExample.pinhole
              UVMappingExample.same_frame (Flt.of_Z32 1000)
              UVMappingExample.four UVMappingExample.prior r Hr Hacc))))).
Defined.

Lemma uvmapping_calib_needs_four_points_witness :
  exists c,
    UVMappingCtor.uvmapping_calib_ctor 3
      (UVMapping._left_x UVMappingExample.four) (UVMapping._left_y UVMappingExample.four)
      (UVMapping._left_z UVMappingExample.four) (UVMapping._color_x UVMappingExample.four)
      (UVMapping._color_y UVMappingExample.four)
      UVMappingExample.color UVMappingExample.color
      (UVMapping._extrin UVMappingExample.four) = Returns c
    /\ UVMapping.calibrate UVMappingExample.pinhole UVMappingExample.same_frame
         (Flt.of_Z32 1000) c UVMappingExample.prior = Undefined (OutOfBounds 3).
Proof.
  eexists. split; [vm_compute; reflexivity|].
  refine (proj1 (proj2 (uvmapping_calib_needs_four_points UVMappingExample.pinhole
            UVMappingExample.same_frame (Flt.of_Z32 1000) 3
            (UVMapping._left_x UVMappingExample.four)
            (UVMapping._left_y UVMappingExample.four)
            (UVMapping._left_z UVMappingExample.four)
            (UVMapping._color_x UVMappingExample.four)
            (UVMapping._color_y UVMappingExample.four)
            UVMappingExample.color UVMappingExample.color
            (UVMapping._extrin UVMappingExample.four) _
            UVMappingExample.prior _ _)) _).
  - vm_compute. reflexivity.
  - reflexivity.
  - lia.
Defined.

(** ** The health scores, and the recommendation drawn from them *)

Module Dismiss.
Import Workspace.

(** [recommend_keep] of [autocalib_notification_model::draw_dismiss], from
    the manager's action and the values of [get_health()],
    [get_health_1()] and [get_health_2()] *)
Definition recommend_keep (action : calib_action)
    (health health_1 health_2 : Flt.float) : bool :=
  if action_eqb action RS2_CALIB_ACTION_ON_CHIP_OB_CALIB then
    let recommend_keep_1 := Flt.ltb (Flt.fabs health_1) (Flt.lit32 25 2) in
    let recommend_keep_2 := Flt.ltb (Flt.fabs health_2) (Flt.lit32 15 2) in
    recommend_keep_1 && recommend_keep_2
  else if action_eqb action RS2_CALIB_ACTION_ON_CHIP_FL_CALIB then
    Flt.ltb (Flt.fabs health) (Flt.lit32 15 2)
  else if action_eqb action RS2_CALIB_ACTION_ON_CHIP_CALIB then
    Flt.ltb (Flt.fabs health) (Flt.lit32 25 2)
  else false.

End Dismiss.

Section HealthMore.
Import Health Dismiss.

(** a property of the 12-bit magnitudes, checked on each of them *)
Lemma below_4096 (P : Z -> bool) :
  forallb P (Z.of_nat <$> seq 0 4096) = true ->
  forall n, 0 <= n < 4096 -> P n = true.
Proof.
  intros Hall n Hn. rewrite forallb_forall in Hall. apply Hall.
  apply in_map_iff. exists (Z.to_nat n). split; [lia|]. apply in_seq. lia.
Qed.

Lemma magnitude_range (h : Z) : 0 <= Z.land h 0xFFF < 4096.
Proof.
  change 0xFFF with (Z.ones 12). rewrite Z.land_ones by lia.
  apply Z.mod_pos_bound. lia.
Qed.

Lemma decode_ob_health_scores (h : Z) :
  exists s1 s2,
    decode_ob_health h
    = (signed_score (Z.land h 0xFFF) s1,
       signed_score (Z.land (Z.shiftr h 12) 0xFFF) s2).
Proof.
  unfold decode_ob_health, signed_score. rewrite magnitude_field.
  eexists _, _. reflexivity.
Qed.

(** what the two tests below look at in a score *)
Definition score_in_range (x : Flt.float) : bool :=
  Flt.leb (Flt.fabs x) (Flt.lit32 4095 3).

Lemma signed_score_in_range (n : Z) (s : bool) :
  0 <= n < 4096 -> score_in_range (signed_score n s) = true.
Proof.
  intros Hn.
  pose (P := fun n => score_in_range (signed_score n false)
                      && score_in_range (signed_score n true)).
  assert (H : P n = true).
  { apply (below_4096 P); [|exact Hn]. vm_compute. reflexivity. }
  unfold P in H. apply andb_true_iff in H as [Hf Ht].
  destruct s; assumption.
Qed.

(** X18.  Whatever code the firmware returns, the two health scores decoded
    from it are numbers of magnitude at most 4.095 (the [float] nearest to
    it): neither NaN nor an infinity can come out of the decoding. *)
Theorem decode_ob_health_in_range (h : Z) :
  score_in_range (fst (decode_ob_health h)) = true
  /\ score_in_range (snd (decode_ob_health h)) = true.
Proof.
  destruct (decode_ob_health_scores h) as (s1 & s2 & ->). cbn [fst snd].
  split; apply signed_score_in_range; apply magnitude_range.
Qed.

Lemma recommend_on_magnitude (n : Z) (s : bool) :
  0 <= n < 4096 ->
  Flt.ltb (Flt.fabs (signed_score n s)) (Flt.lit32 25 2) = (n <? 250)
  /\ Flt.ltb (Flt.fabs (signed_score n s)) (Flt.lit32 15 2) = (n <? 150).
Proof.
  intros Hn.
  pose (P := fun n =>
          Bool.eqb (Flt.ltb (Flt.fabs (signed_score n false)) (Flt.lit32 25 2))
                   (n <? 250)
          && Bool.eqb (Flt.ltb (Flt.fabs (signed_score n true)) (Flt.lit32 25 2))
                      (n <? 250)
          && Bool.eqb (Flt.ltb (Flt.fabs (signed_score n false)) (Flt.lit32 15 2))
                      (n <? 150)
          && Bool.eqb (Flt.ltb (Flt.fabs (signed_score n true)) (Flt.lit32 15 2))
                      (n <? 150)).
  assert (H : P n = true).
  { apply (below_4096 P); [|exact Hn]. vm_compute. reflexivity. }
  unfold P in H.
  apply andb_true_iff in H as [H H4]. apply andb_true_iff in H as [H H3].
  apply andb_true_iff in H as [H1 H2].
  apply eqb_prop in H1, H2, H3, H4. destruct s; split; assumption.
Qed.

(** X19.  For the on-chip calibration with both intrinsic and extrinsic
    parts, keeping the result is recommended exactly when the first
    magnitude of the firmware's code is below 250 and the second below 150
    (thousandths): the sign bits play no part, and the rounding of the
    [float] division does not move either threshold. *)
Theorem recommend_keep_thresholds (h : Z) (health : Flt.float) :
  recommend_keep Workspace.RS2_CALIB_ACTION_ON_CHIP_OB_CALIB health
    (fst (decode_ob_health h)) (snd (decode_ob_health h))
  = (Z.land h 0xFFF <? 250) && (Z.land (Z.shiftr h 12) 0xFFF <? 150).
Proof.
  destruct (decode_ob_health_scores h) as (s1 & s2 & ->). cbn [fst snd].
  unfold recommend_keep. cbn [Workspace.action_eqb]. cbv zeta.
  rewrite (proj1 (recommend_on_magnitude _ s1 (magnitude_range h))).
  rewrite (proj2 (recommend_on_magnitude _ s2 (magnitude_range (Z.shiftr h 12)))).
  reflexivity.
Qed.

End HealthMore.

(** ** The focal-length patch: what it touches, and when it can run *)

Section TablePatchMore.
Import TablePatch.

Variable header_size crc32_offset right_xx_offset right_xy_offset : nat.
Variable calc_crc32 : list Z -> Z.

#[local] Abbreviation patch_table :=
  (patch_table header_size crc32_offset right_xx_offset right_xy_offset calc_crc32).
#[local] Abbreviation layout_ok :=
  (layout_ok header_size crc32_offset right_xx_offset right_xy_offset calc_crc32).
#[local] Abbreviation scale_is_number :=
  (scale_is_number right_xx_offset right_xy_offset).

Lemma store32_returns (t : table) (off : nat) (w : Z) :
  (off + 4 <= length t)%nat -> exists t', store32 t off w = Returns t'.
Proof.
  intros Hlen. unfold store32.
  destruct (Nat.leb_spec (off + 4) (length t)); [|lia]. eexists. reflexivity.
Qed.

Lemma store32_frame (t t' : table) (off : nat) (w : Z) :
  store32 t off w = Returns t' ->
  (off + 4 <= length t)%nat /\ length t' = length t
  /\ forall i, (i < off \/ off + 4 <= i)%nat -> t' !! i = t !! i.
Proof.
  unfold store32. destruct (Nat.leb_spec (off + 4) (length t)) as [Hlen|?];
    [|discriminate].
  intros H. injection H as <-. split; [exact Hlen|]. split.
  - rewrite !length_insert. reflexivity.
  - intros i Hi. rewrite !list_lookup_insert_ne by lia. reflexivity.
Qed.

Lemma store32_bytes (t t' : table) (off : nat) (w : Z) :
  Forall is_byte t -> store32 t off w = Returns t' -> Forall is_byte t'.
Proof.
  unfold store32. destruct (off + 4 <=? length t)%nat; [|discriminate].
  intros Hall H. injection H as <-.
  repeat (apply Forall_insert; [|apply Z.mod_pos_bound; lia]). exact Hall.
Qed.

Lemma load32_length (t : table) (off : nat) (w : Z) :
  load32 t off = Returns w -> (off + 4 <= length t)%nat.
Proof.
  intros H. apply load32_inv in H as (b0 & b1 & b2 & b3 & _ & _ & _ & H3 & _).
  apply lookup_lt_Some in H3. lia.
Qed.

Lemma load32_same (t t' : table) (off : nat) :
  (forall i, (off <= i < off + 4)%nat -> t' !! i = t !! i) ->
  load32 t' off = load32 t off.
Proof.
  intros Hsame. unfold load32, byte_at.
  rewrite (Hsame off), (Hsame (off + 1)%nat), (Hsame (off + 2)%nat),
    (Hsame (off + 3)%nat) by lia.
  reflexivity.
Qed.

(** the slots outside the two scale fields and the checksum field *)
Definition untouched (i : nat) : Prop :=
  (i < right_xx_offset \/ right_xx_offset + 4 <= i)%nat
  /\ (i < right_xy_offset \/ right_xy_offset + 4 <= i)%nat
  /\ (i < crc32_offset \/ crc32_offset + 4 <= i)%nat.

Lemma patch_table_frame (ratio : Flt.float) (_old_calib _new_calib : table) :
  patch_table ratio _old_calib = Returns _new_calib ->
  length _new_calib = length _old_calib
  /\ (right_xy_offset + 4 <= length _old_calib)%nat
  /\ forall i, untouched i -> _new_calib !! i = _old_calib !! i.
Proof.
  intros H. unfold TablePatch.patch_table in H.
  apply bind_returns in H as (xx & _ & H).
  apply bind_returns in H as (t1 & H1 & H).
  apply bind_returns in H as (xy & Hxy & H).
  apply bind_returns in H as (t2 & H2 & H).
  destruct (length t2 <? header_size)%nat; [discriminate|].
  apply store32_frame in H1 as (_ & L1 & F1).
  apply store32_frame in H2 as (_ & L2 & F2).
  apply store32_frame in H as (_ & L3 & F3).
  unfold load_float in Hxy. apply bind_returns in Hxy as (w & Hw & _).
  apply load32_length in Hw.
  split; [congruence|]. split; [lia|].
  intros i (Hx & Hy & Hc). rewrite F3, F2, F1 by assumption. reflexivity.
Qed.

(** X20.  Whatever the ratio, a patch that returns gives a table of the
    same size that differs from the input at most in the twelve bytes of the
    two right-intrinsic scale fields and of the checksum field; and with the
    checksum field inside the header, the checksum stored is that of the
    body as patched. *)
Theorem patch_table_touches_three_fields (ratio : Flt.float)
        (_old_calib _new_calib : table) :
  patch_table ratio _old_calib = Returns _new_calib ->
  length _new_calib = length _old_calib
  /\ (forall i, untouched i -> _new_calib !! i = _old_calib !! i)
  /\ ((crc32_offset + 4 <= header_size)%nat ->
      0 <= calc_crc32 (body header_size _new_calib) < 2 ^ 32 ->
      load32 _new_calib crc32_offset
      = Returns (calc_crc32 (body header_size _new_calib))).
Proof.
  intros H. destruct (patch_table_frame ratio _ _ H) as (Hlen & _ & Hframe).
  split; [exact Hlen|]. split; [exact Hframe|].
  intros Hcrc Hrange.
  exact (patch_recomputes_checksum header_size crc32_offset right_xx_offset
           right_xy_offset calc_crc32 ratio _old_calib _new_calib Hcrc H Hrange).
Qed.

(** X21.  With the checksum in the header and the two scale fields behind
    it, the patch returns exactly when the table is long enough to hold the
    second scale field; on a shorter table -- an empty one, say -- it reads
    or writes outside the table, whatever the ratio. *)
Theorem patch_table_returns_iff (ratio : Flt.float) (_old_calib : table) :
  (crc32_offset + 4 <= header_size)%nat ->
  (header_size <= right_xx_offset)%nat ->
  (right_xx_offset + 4 <= right_xy_offset)%nat ->
  ((exists _new_calib, patch_table ratio _old_calib = Returns _new_calib)
   <-> (right_xy_offset + 4 <= length _old_calib)%nat)
  /\ ((length _old_calib < right_xy_offset + 4)%nat ->
      exists i, patch_table ratio _old_calib = Undefined (OutOfBounds i)).
Proof.
  intros Hcrc Hxx Hxy.
  assert (Hok : (right_xy_offset + 4 <= length _old_calib)%nat ->
                exists _new_calib, patch_table ratio _old_calib = Returns _new_calib).
  { intros Hlen. unfold TablePatch.patch_table, load_float, store_float.
    destruct (load32_returns _old_calib right_xx_offset ltac:(lia)) as [w1 ->].
    cbn [mbind outcome_bind Outcome.bind].
    destruct (store32_returns _old_calib right_xx_offset
                (bits_of_float
                   (Flt.mul32 (float_of_bits w1)
                      (Flt.add32 (Flt.div32 ratio (Flt.of_Z32 100)) (Flt.of_Z32 1))))
                ltac:(lia)) as [t1 H1].
    rewrite H1. cbn [mbind outcome_bind Outcome.bind].
    apply store32_frame in H1 as (_ & L1 & _).
    destruct (load32_returns t1 right_xy_offset ltac:(lia)) as [w2 ->].
    cbn [mbind outcome_bind Outcome.bind].
    destruct (store32_returns t1 right_xy_offset
                (bits_of_float
                   (Flt.mul32 (float_of_bits w2)
                      (Flt.add32 (Flt.div32 ratio (Flt.of_Z32 100)) (Flt.of_Z32 1))))
                ltac:(lia)) as [t2 H2].
    rewrite H2. cbn [mbind outcome_bind Outcome.bind].
    apply store32_frame in H2 as (_ & L2 & _).
    destruct (Nat.ltb_spec (length t2) header_size); [lia|].
    apply store32_returns. lia. }
  split; [split; [|exact Hok]|].
  - intros [new H]. apply (patch_table_frame ratio _ _ H).
  - intros Hshort. unfold TablePatch.patch_table, load_float, store_float.
    destruct (load32 _old_calib right_xx_offset) as [w1| | |[i|]] eqn:Hl1;
      cbn [mbind outcome_bind Outcome.bind];
      try (exfalso; revert Hl1; unfold load32, byte_at;
           repeat (match goal with |- context [?t !! ?i] => destruct (t !! i) end;
                   cbn [mbind outcome_bind Outcome.bind]); discriminate);
      [|eexists; reflexivity].
    apply load32_length in Hl1.
    destruct (store32_returns _old_calib right_xx_offset
                (bits_of_float
                   (Flt.mul32 (float_of_bits w1)
                      (Flt.add32 (Flt.div32 ratio (Flt.of_Z32 100)) (Flt.of_Z32 1))))
                Hl1) as [t1 H1].
    rewrite H1. cbn [mbind outcome_bind Outcome.bind].
    apply store32_frame in H1 as (_ & L1 & _).
    destruct (load32 t1 right_xy_offset) as [w2| | |[i|]] eqn:Hl2;
      cbn [mbind outcome_bind Outcome.bind];
      try (exfalso; revert Hl2; unfold load32, byte_at;
           repeat (match goal with |- context [?t !! ?i] => destruct (t !! i) end;
                   cbn [mbind outcome_bind Outcome.bind]); discriminate);
      [|eexists; reflexivity].
    apply load32_length in Hl2. lia.
Qed.

(** with ratio 1.0 on a well-laid-out table, the patch is the store of the
    checksum *)
Lemma patch_unit_is_checksum_store (t : table) :
  layout_ok t -> scale_is_number t ->
  patch_table (Flt.of_Z32 0) t
  = store32 t crc32_offset (calc_crc32 (drop header_size t)).
Proof.
  intros [Hcrc Hxx Hxy Hlen Hbytes Hrange] (xx & xy & Lxx & Lxy & Nxx & Nxy).
  unfold TablePatch.patch_table. rewrite unit_ratio.
  rewrite Lxx. cbn [mbind outcome_bind Outcome.bind].
  rewrite (rescale_by_one _ _ _ Hbytes Lxx Nxx). cbn [mbind outcome_bind Outcome.bind].
  rewrite Lxy. cbn [mbind outcome_bind Outcome.bind].
  rewrite (rescale_by_one _ _ _ Hbytes Lxy Nxy). cbn [mbind outcome_bind Outcome.bind].
  destruct (Nat.ltb_spec (length t) header_size) as [?|_]; [lia | reflexivity].
Qed.

(** X22.  With ratio 1.0 the patch is idempotent: on a table in the
    coefficients layout whose scale fields hold numbers, patching the patched
    table once more returns it unchanged. *)
Theorem patch_unit_idempotent (_old_calib _new_calib : table) :
  layout_ok _old_calib -> scale_is_number _old_calib ->
  patch_table (Flt.of_Z32 0) _old_calib = Returns _new_calib ->
  patch_table (Flt.of_Z32 0) _new_calib = Returns _new_calib.
Proof.
  intros Hlay Hnum H. rewrite (patch_unit_is_checksum_store _ Hlay Hnum) in H.
  destruct Hlay as [Hcrc Hxx Hxy Hlen Hbytes Hrange].
  destruct (store32_spec _ _ _ _ H) as (Hl & Hdrop & Hload).
  destruct (store32_frame _ _ _ _ H) as (_ & _ & Hframe).
  pose proof (store32_bytes _ _ _ _ Hbytes H) as Hbytes'.
  assert (Hbody : drop header_size _new_calib = drop header_size _old_calib)
    by (apply Hdrop; lia).
  rewrite patch_unit_is_checksum_store.
  - rewrite Hbody. apply store32_load32; [exact Hbytes' | exact (Hload Hrange)].
  - split; try assumption; [lia | rewrite Hbody; exact Hrange].
  - destruct Hnum as (xx & xy & Lxx & Lxy & Nxx & Nxy). exists xx, xy.
    unfold load_float in *.
    rewrite (load32_same _old_calib _new_calib right_xx_offset)
      by (intros i Hi; apply Hframe; lia).
    rewrite (load32_same _old_calib _new_calib right_xy_offset)
      by (intros i Hi; apply Hframe; lia).
    auto.
Qed.

End TablePatchMore.

Lemma sample_table_layout :
  TablePatch.layout_ok 16 12 52 56 TablePatch.crc32 sample_table.
Proof.
  split; try (simpl; lia).
  - apply Forall_forall. intros b Hb.
    apply (proj1 (list_elem_of_In _ _)) in Hb.
    assert (Hall : forallb (fun b => (0 <=? b) && (b <? 256)) sample_table = true)
      by (vm_compute; reflexivity).
    rewrite forallb_forall in Hall. specialize (Hall b Hb).
    unfold TablePatch.is_byte. lia.
  - vm_compute. split; [intros H; discriminate H | reflexivity].
Qed.

Lemma sample_table_scale : TablePatch.scale_is_number 52 56 sample_table.
Proof.
  eexists _, _. split; [vm_compute; reflexivity|].
  split; [vm_compute; reflexivity|]. split; reflexivity.
Qed.

Lemma patch_table_touches_three_fields_witness :
  exists _new_calib,
    TablePatch.patch_table 16 12 52 56 TablePatch.crc32 (Flt.of_Z32 100) sample_table
    = Returns _new_calib
    /\ length _new_calib = length sample_table.
Proof.
  eexists. split; [vm_compute; reflexivity|].
  refine (proj1 (patch_table_touches_three_fields 16 12 52 56 TablePatch.crc32
                   (Flt.of_Z32 100) sample_table _ _)).
  vm_compute. reflexivity.
Defined.

Lemma patch_table_returns_iff_witness :
  exists _new_calib,
    TablePatch.patch_table 16 12 52 56 TablePatch.crc32 (Flt.of_Z32 100) sample_table
    = Returns _new_calib.
Proof.
  refine (proj2 (proj1 (patch_table_returns_iff 16 12 52 56 TablePatch.crc32
                          (Flt.of_Z32 100) sample_table _ _ _)) _);
    cbn; lia.
Defined.

Lemma patch_unit_idempotent_witness :
  exists _new_calib,
    TablePatch.patch_table 16 12 52 56 TablePatch.crc32 (Flt.of_Z32 0) sample_table
    = Returns _new_calib
    /\ TablePatch.patch_table 16 12 52 56 TablePatch.crc32 (Flt.of_Z32 0) _new_calib
       = Returns _new_calib.
Proof.
  eexists. split; [vm_compute; reflexivity|].
  refine (patch_unit_idempotent 16 12 52 56 TablePatch.crc32 sample_table _
            sample_table_layout sample_table_scale _).
  vm_compute. reflexivity.
Defined.

(** ** safe_send_command *)

Module SendCommand.
Import TablePatch.

Definition no_debug_protocol : string := "Device does not support debug protocol!".

Definition not_enough_data (name : string) : string :=
  "Not enough data from " +:+ name +:+ "!".

Definition firmware_error (return_code : Z) (name : string) : string :=
  "Firmware error (" +:+ pretty return_code +:+ ") from " +:+ name +:+ "!".

(** the value of a 32-bit pattern read as [int32_t] *)
Definition to_int32 (w : Z) : Z := if w <? 2 ^ 31 then w else w - 2 ^ 32.

Section Device.

(** [_dev.as<debug_protocol>()] is usable, and what
    [dp.send_and_receive_raw_data(cmd)] answers: both belong to the SDK. *)
Variable dp : bool.
Variable send_and_receive_raw_data : list Z -> outcome (list Z).

(** [on_chip_calib_manager::safe_send_command(cmd, name)] *)
Definition safe_send_command (cmd : list Z) (name : string) : outcome (list Z) :=
  if negb dp then Throws no_debug_protocol
  else
    res ← send_and_receive_raw_data cmd;
    if (length res <? 4)%nat then Throws (not_enough_data name)
    else
      w ← load32 res 0;
      let return_code := to_int32 w in
      if return_code <? 0 then Throws (firmware_error return_code name)
      else Returns res.

End Device.

End SendCommand.

Section SendCommandFacts.
Import TablePatch SendCommand.

Variable dp : bool.
Variable send_and_receive_raw_data : list Z -> outcome (list Z).

#[local] Abbreviation safe_send_command :=
  (safe_send_command dp send_and_receive_raw_data).

Lemma to_int32_sign (b0 b1 b2 b3 : Z) :
  0 <= b0 < 256 -> 0 <= b1 < 256 -> 0 <= b2 < 256 -> 0 <= b3 < 256 ->
  (to_int32 (b0 + 2 ^ 8 * b1 + 2 ^ 16 * b2 + 2 ^ 24 * b3) <? 0) = (128 <=? b3).
Proof.
  intros H0 H1 H2 H3. unfold to_int32.
  change (2 ^ 8) with 256. change (2 ^ 16) with 65536.
  change (2 ^ 24) with 16777216. change (2 ^ 31) with 2147483648.
  change (2 ^ 32) with 4294967296.
  destruct (Z.ltb_spec (b0 + 256 * b1 + 65536 * b2 + 16777216 * b3) 2147483648);
    match goal with |- (?a <? 0) = _ => destruct (Z.ltb_spec a 0) end;
    destruct (Z.leb_spec 128 b3); try reflexivity; lia.
Qed.

(** X24.  [safe_send_command] hands back the device's answer untouched, and
    only an answer of at least four bytes whose first four bytes, read as a
    little-endian [int32_t], are not negative (the top bit of the fourth
    byte is clear); it never reads the answer past its end, and a shorter
    answer, a negative code or a device without debug protocol each end in
    their own exception. *)
Theorem safe_send_command_accepts (cmd res : list Z) (name : string) :
  send_and_receive_raw_data cmd = Returns res -> Forall is_byte res ->
  (safe_send_command cmd name = Returns res
   <-> dp = true /\ (4 <= length res)%nat
       /\ exists b3, res !! 3%nat = Some b3 /\ b3 < 128)
  /\ (forall r, safe_send_command cmd name = Returns r -> r = res)
  /\ (forall u, safe_send_command cmd name <> Undefined u)
  /\ (dp = false -> safe_send_command cmd name = Throws no_debug_protocol)
  /\ (dp = true -> (length res < 4)%nat ->
      safe_send_command cmd name = Throws (not_enough_data name)).
Proof.
  intros Hsend Hbytes. unfold SendCommand.safe_send_command. rewrite Hsend.
  cbn [mbind outcome_bind Outcome.bind].
  destruct dp; cbn [negb].
  2:{ split; [split; [discriminate | intros [? _]; discriminate]|].
      split; [discriminate|]. split; [discriminate|].
      split; [reflexivity | discriminate]. }
  destruct (Nat.ltb_spec (length res) 4) as [Hshort|Hlong].
  { split; [split; [discriminate | intros (_ & ? & _); lia]|].
    split; [discriminate|]. split; [discriminate|].
    split; [discriminate | reflexivity]. }
  destruct (load32_returns res 0 ltac:(lia)) as [w Hw]. rewrite Hw.
  cbn [mbind outcome_bind Outcome.bind].
  apply load32_inv in Hw as (b0 & b1 & b2 & b3 & H0 & H1 & H2 & H3 & ->).
  rewrite (to_int32_sign b0 b1 b2 b3) by eauto using byte_of.
  cbn [Nat.add] in H3.
  destruct (Z.leb_spec 128 b3) as [Hneg|Hpos].
  - split; [split; [discriminate|]|].
    + intros (_ & _ & b & Hb & Hlt). rewrite H3 in Hb. injection Hb as <-. lia.
    + split; [discriminate|]. split; [discriminate|].
      split; [discriminate | intros _ ?; lia].
  - split; [split; [intros _|reflexivity]|].
    + split; [reflexivity|]. split; [exact Hlong|]. exists b3. auto.
    + split; [intros r [= <-]; reflexivity|]. split; [discriminate|].
      split; [discriminate | intros _ ?; lia].
Qed.

End SendCommandFacts.

Lemma safe_send_command_accepts_witness :
  SendCommand.safe_send_command true (fun _ => Returns [0; 0; 0; 0; 7]) [20] "OCC"
  = Returns [0; 0; 0; 0; 7].
Proof.
  assert (Hbytes : Forall TablePatch.is_byte [0; 0; 0; 0; 7])
    by (repeat constructor; unfold TablePatch.is_byte; lia).
  apply (proj2 (proj1 (safe_send_command_accepts true
                         (fun _ => Returns [0; 0; 0; 0; 7])
                         [20] [0; 0; 0; 0; 7] "OCC" eq_refl Hbytes))).
  split; [reflexivity|]. split; [cbn; lia|].
  exists 0. split; [reflexivity | lia].
Defined.

(** ** get_ground_truth: the capture loop and what follows it *)

Module GroundTruth.

(** [int limit = 50;] *)
Definition limit : Z := 50.

(** the locals of the loop; [waited] counts the calls of [wait_for_frame],
    [queue] holds the numbers of the frames enqueued, oldest first *)
Record capture := {
  counter : Z;
  frm_idx : Z;
  waited : nat;
  queue : list nat
}.

Definition start : capture :=
  {| counter := 0; frm_idx := 0; waited := 0; queue := [] |}.

(** how the function ends: the distance is stored, or one of the two
    [fail] calls is made *)
Inductive verdict : Type :=
| Stored (target_z_mm : Flt.float)
| FailedToCalculate
| FailedToCapture.

Section Frames.

(** Whether the frame that the [k]-th call of [wait_for_frame] hands over
    is a frame ([if (f)]), and [calculate_target_z] on the frames enqueued
    (with the target's width and height from the configuration file): both
    belong to the SDK.  A call that throws ends the function in its [catch]
    block; that path is not represented, nor is [_progress]. *)
Variable wait_for_frame : nat -> bool.
Variable calculate_target_z : list nat -> Flt.float.

(** [while ((counter < limit) && (++frm_idx < limit*2)) { ... }]; [None]
    when [fuel] iterations were not enough to leave the loop *)
Fixpoint gather (fuel : nat) (s : capture) : option capture :=
  match fuel with
  | O => None
  | S fuel' =>
      if counter s <? limit then
        let frm_idx := frm_idx s + 1 in
        if frm_idx <? limit * 2 then
          let k := waited s in
          if wait_for_frame k then
            gather fuel' {| counter := counter s + 1; frm_idx := frm_idx;
                            waited := S k; queue := queue s ++ [k] |}
          else
            gather fuel' {| counter := counter s; frm_idx := frm_idx;
                            waited := S k; queue := queue s |}
        else Some {| counter := counter s; frm_idx := frm_idx;
                     waited := waited s; queue := queue s |}
      else Some s
  end.

(** the part of [get_ground_truth] after the loop *)
Definition conclude (s : capture) : verdict :=
  if limit <=? counter s then
    let target_z_mm := calculate_target_z (queue s) in
    if Flt.gtb target_z_mm (S754_zero false) then Stored target_z_mm
    else FailedToCalculate
  else FailedToCapture.

Definition get_ground_truth (fuel : nat) : option verdict :=
  conclude <$> gather fuel start.

(** the frames among the first [n] waited for that are frames *)
Definition valid_among (n : nat) : list nat :=
  List.filter wait_for_frame (seq 0 n).

End Frames.

End GroundTruth.

Section GroundTruthFacts.
Import GroundTruth.

Variable wait_for_frame : nat -> bool.
Variable calculate_target_z : list nat -> Flt.float.

#[local] Abbreviation gather := (gather wait_for_frame).
#[local] Abbreviation valid_among := (valid_among wait_for_frame).

(** what holds at the loop test *)
Definition capturing (s : capture) : Prop :=
  frm_idx s = Z.of_nat (waited s) /\ (waited s <= 99)%nat
  /\ counter s = Z.of_nat (length (queue s))
  /\ queue s = valid_among (waited s) /\ counter s <= 50.

(** what holds when the loop is left *)
Definition captured (s : capture) : Prop :=
  (waited s <= 99)%nat
  /\ counter s = Z.of_nat (length (queue s))
  /\ queue s = valid_among (waited s)
  /\ (counter s = 50 \/ (counter s < 50 /\ waited s = 99%nat)).

Lemma valid_among_S (k : nat) :
  valid_among (S k)
  = valid_among k ++ (if wait_for_frame k then [k] else []).
Proof.
  unfold GroundTruth.valid_among. rewrite seq_S, List.filter_app. cbn.
  destruct (wait_for_frame k); reflexivity.
Qed.

Lemma gather_captured (fuel : nat) (s : capture) :
  capturing s -> (99 - waited s < fuel)%nat ->
  exists s', gather fuel s = Some s' /\ captured s'.
Proof.
  revert s. induction fuel as [|fuel IH]; intros s (Hidx & Hw & Hc & Hq & Hle) Hfuel;
    [lia|].
  cbn [GroundTruth.gather]. unfold limit.
  destruct (Z.ltb_spec (counter s) 50) as [Hlt|Hge].
  - destruct (Z.ltb_spec (frm_idx s + 1) (50 * 2)) as [Hmore|Hstop].
    + pose proof (valid_among_S (waited s)) as HS.
      destruct (wait_for_frame (waited s)).
      * apply IH; [|cbn [waited]; lia]. unfold capturing.
        cbn [counter frm_idx waited queue].
        rewrite HS, <- Hq, length_app. cbn [length]. repeat split; lia.
      * apply IH; [|cbn [waited]; lia]. unfold capturing.
        cbn [counter frm_idx waited queue].
        rewrite HS, <- Hq, app_nil_r. repeat split; lia.
    + eexists. split; [reflexivity|]. unfold captured.
      cbn [counter frm_idx waited queue].
      repeat split; try assumption. right. split; lia.
  - exists s. split; [reflexivity|]. unfold captured.
    repeat split; try assumption. left. lia.
Qed.

Lemma captured_queue (s : capture) :
  captured s ->
  queue s = take 50 (valid_among 99)
  /\ ((limit <=? counter s) = true <-> (50 <= length (valid_among 99))%nat).
Proof.
  intros (Hw & Hc & Hq & Hend). unfold limit.
  assert (Hsplit : valid_among 99
                   = queue s ++ List.filter wait_for_frame (seq (waited s) (99 - waited s))).
  { unfold GroundTruth.valid_among.
    replace 99%nat with (waited s + (99 - waited s))%nat at 1 by lia.
    rewrite seq_app, List.filter_app, Hq. reflexivity. }
  destruct Hend as [H50|[Hlt H99]].
  - split.
    + rewrite Hsplit. replace 50%nat with (length (queue s)) by lia.
      rewrite take_app_length. reflexivity.
    + rewrite Hsplit, length_app. split; [lia|]. intros _. apply Z.leb_le. lia.
  - split.
    + rewrite <- H99, <- Hq. symmetry. apply take_ge. lia.
    + rewrite <- H99, <- Hq. split; [intros H; apply Z.leb_le in H; lia | lia].
Qed.

(** X25.  [get_ground_truth] waits for at most 99 frames and leaves its
    loop (100 iterations of fuel are enough, and more change nothing).  It
    reports "Failed to capture enough frames" exactly when fewer than 50 of
    the first 99 frames waited for are frames; otherwise the distance is
    calculated from exactly the first 50 of them, in order, and stored only
    if it is greater than 0. *)
Theorem get_ground_truth_capture (extra : nat) :
  exists s,
    gather (100 + extra) start = Some s
    /\ (waited s <= 99)%nat
    /\ queue s = take 50 (valid_among 99)
    /\ get_ground_truth wait_for_frame calculate_target_z (100 + extra)
       = Some (if (50 <=? length (valid_among 99))%nat
               then let z := calculate_target_z (take 50 (valid_among 99)) in
                    if Flt.gtb z (S754_zero false) then Stored z
                    else FailedToCalculate
               else FailedToCapture).
Proof.
  destruct (gather_captured (100 + extra) start) as (s & Hs & Hcap).
  { unfold capturing, start. cbn. repeat split; lia. }
  { cbn. lia. }
  exists s. destruct (captured_queue s Hcap) as [Hq Hiff].
  split; [exact Hs|]. split; [apply Hcap|]. split; [exact Hq|].
  unfold get_ground_truth. rewrite Hs. cbn [fmap option_fmap option_map].
  unfold conclude. rewrite Hq.
  destruct (Nat.leb_spec 50 (length (valid_among 99))) as [Hlen|Hlen].
  - rewrite (proj2 Hiff Hlen). reflexivity.
  - destruct (limit <=? counter s) eqn:Hc; [|reflexivity].
    pose proof (proj1 Hiff eq_refl). lia.
Qed.

End GroundTruthFacts.

(** the cooperative camera, except that its calibration table cannot be read *)
Definition unreadable : Session.collaborators :=
  {| Session.is_combination_supported := fun _ _ => true;
     Session.stop_streams := Session.stop_streams Session.cooperative;
     Session.play_streams := Session.play_streams Session.cooperative;
     Session.get_calibration_table := fun e => (Workspace.Raise "no table", e);
     Session.run_calibration := Session.run_calibration Session.cooperative;
     Session.run_ground_truth := fun e => e;
     Session.measure_depth := Session.measure_depth Session.cooperative;
     Session.apply_new_calib := Session.apply_new_calib Session.cooperative;
     Session.usb3 := true |}.

Lemma process_flow_marks_unrestored_witness :
  Workspace._restored (fst (snd (Session.process_flow Session.cooperative idle_camera)))
  = false.
Proof.
  apply (process_flow_marks_unrestored Session.cooperative idle_camera).
  - intros e. cbn. discriminate.
  - intros e. reflexivity.
Defined.

Lemma process_flow_table_failure_witness :
  Workspace.is_3d_view (snd (snd (Session.process_flow unreadable idle_camera))) = true.
Proof.
  refine (proj1 (proj2 (proj2 (process_flow_table_failure unreadable idle_camera
                                 "no table" _ _)))).
  - intros e. cbn. discriminate.
  - intros e. reflexivity.
Defined.

(** ** apply_calib: applying the new table, then going back *)

Section ApplyCalibMore.
Import ApplyCalib.

(** the table in effect on the device: the last one it was handed, given
    the one in effect before any call *)
Definition in_effect (initial : table) (d : calib_device) : table :=
  default initial (last (tables_set d)).

(** X28.  Applying the new table and then the old one ([apply_calib(true)]
    followed by [apply_calib(false)], as when a result is tried and then
    dismissed) leaves the old table in effect exactly when the manager holds
    a non-empty old table; with an empty old table the second call does
    nothing and the new table, if it was not empty, stays in effect. *)
Theorem apply_calib_revert (m : tables) (d : calib_device) (initial : table) :
  let d' := apply_calib false m (apply_calib true m d) in
  (_old_calib m <> [] -> in_effect initial d' = _old_calib m)
  /\ (_old_calib m = [] -> _new_calib m <> [] -> in_effect initial d' = _new_calib m)
  /\ (_old_calib m = [] -> _new_calib m = [] -> d' = d).
Proof.
  cbv zeta. unfold apply_calib, in_effect, size.
  assert (Hnz : forall (x : Z) (l : table),
             negb (Z.of_nat (length (x :: l)) =? 0) = true).
  { intros x l. cbn [length]. destruct (Z.eqb_spec (Z.of_nat (S (length l))) 0);
      [lia | reflexivity]. }
  destruct (_old_calib m) as [|b old], (_new_calib m) as [|c new];
    rewrite ?Hnz; change (negb (Z.of_nat (length (@nil Z)) =? 0)) with false;
    cbn [set_calibration_table tables_set];
    repeat split; intros; try congruence;
    rewrite ?last_snoc; reflexivity.
Qed.

End ApplyCalibMore.

Lemma apply_calib_revert_witness :
  in_effect [9]
    (ApplyCalib.apply_calib false
       {| ApplyCalib._new_calib := [3; 4]; ApplyCalib._old_calib := [1; 2] |}
       (ApplyCalib.apply_calib true
          {| ApplyCalib._new_calib := [3; 4]; ApplyCalib._old_calib := [1; 2] |}
          {| ApplyCalib.tables_set := [] |}))
  = [1; 2].
Proof.
  apply (apply_calib_revert
           {| ApplyCalib._new_calib := [3; 4]; ApplyCalib._old_calib := [1; 2] |}
           {| ApplyCalib.tables_set := [] |} [9]).
  discriminate.
Defined.
